(** * DockerManager: a model of [index.js] and the properties of its
    lifecycle bookkeeping.

    The class [DockerManager] sequences calls to a Docker engine (through
    dockerode) and keeps two arrays of image descriptions.  Its methods are
    [async] functions: they are embedded here as programs of a small free
    monad over the engine calls, and run by an event loop in which the
    answers of the engine arrive one at a time.

    The first part holds the definitions: JavaScript strings, the data
    model, memory with object and array references, the monad and the
    methods, the event loop, a reference engine, and the predicates the
    properties are stated with.  The second part holds the properties, method
    by method. *)

From Stdlib Require Import String Ascii Bool Arith Lia.
From stdpp Require Import base list strings.

Open Scope string_scope.
Open Scope list_scope.

(** ** JavaScript strings *)

Module Js.

(** [s.replace(pat, rep)] with a string pattern: only the first occurrence of
    [pat] is replaced ([rep] holds no [$], so it is inserted as it is). *)
Fixpoint replace (pat rep s : string) : string :=
  if String.prefix pat s
  then String.append rep
         (String.substring (String.length pat)
                           (String.length s - String.length pat) s)
  else match s with
       | EmptyString => EmptyString
       | String c s' => String c (replace pat rep s')
       end.

(** What a template literal prints for a property that may be [undefined]. *)
Definition template (v : option string) : string :=
  match v with
  | Some s => s
  | None => "undefined"
  end.

(** Truthiness of an optional boolean argument ([undefined] when omitted). *)
Definition truthy (v : option bool) : bool :=
  match v with
  | Some b => b
  | None => false
  end.

(** [arr.includes(x)] on an array of strings. *)
Definition includes (arr : list string) (x : string) : bool :=
  bool_decide (x ∈ arr).

(** The number of occurrences of a character. *)
Fixpoint occurrences (c : ascii) (s : string) : nat :=
  match s with
  | EmptyString => 0
  | String d s' => (if Ascii.eqb c d then 1 else 0) + occurrences c s'
  end.

End Js.

(** ** Name derivation *)

(** [_formatContainerName(imageName)]:
    [`${imageName}-container`.replace(':', '-')]. *)
Definition _formatContainerName (imageName : string) : string :=
  Js.replace ":" "-" (imageName ++ "-container")%string.

(** What the documentation asks for: every colon becomes a hyphen. *)
Fixpoint replace_all_colons (s : string) : string :=
  match s with
  | EmptyString => EmptyString
  | String c s' =>
      String (if Ascii.eqb c ":" then "-"%char else c) (replace_all_colons s')
  end.

(** ** Data model *)

(** A value thrown or used to reject a promise. *)
Definition Error := string.

(** The [options] of the [DockerImage] typedef; the values are opaque to the
    manager and kept as the text of their JSON. *)
Record ContainerOptions := {
  HostConfig : option string;
  Env : option (list string);
  Volumes : option string;
  ExposedPorts : option string
}.

(** The [DockerImage] typedef.  [containerName] is [None] while the property
    is absent; [options] is [None] when the caller gave none. *)
Record DockerImage := {
  name : string;
  containerName : option string;
  options : option ContainerOptions
}.

(** *** What the engine client (dockerode) exchanges with the manager *)

Record ImageInfo := { RepoTags : option (list string) }.
Record ContainerInfo := { Names : list string }.
Record ContainerInspectInfo := { State_Status : string }.

(** A dockerode container handle: it only holds the id it was made for. *)
Record Container := { id : option string }.

(** The progress stream of a pull: its data chunks, and whether it emits
    ['end'].  The events of one stream are handed over together. *)
Record PullStream := { chunks : list string; ends : bool }.

(** The argument of [docker.createContainer]:
    [{ Image: Image.name, name: Image.containerName, ...Image.options }]. *)
Record ContainerCreateOptions := {
  cc_Image : string;
  cc_name : option string;
  cc_HostConfig : option string;
  cc_Env : option (list string);
  cc_Volumes : option string;
  cc_ExposedPorts : option string
}.

Definition create_options (Image : DockerImage) : ContainerCreateOptions :=
  {| cc_Image := name Image;
     cc_name := containerName Image;
     cc_HostConfig := o ← options Image; HostConfig o;
     cc_Env := o ← options Image; Env o;
     cc_Volumes := o ← options Image; Volumes o;
     cc_ExposedPorts := o ← options Image; ExposedPorts o |}.

(** How a promise settles. *)
Inductive Settled (X : Type) : Type :=
| Fulfilled (x : X)
| Rejected (e : Error).
Arguments Fulfilled {X} x.
Arguments Rejected {X} e.

(** The asynchronous calls of the engine client, indexed by what they
    resolve with. *)
Inductive Op : Type -> Type :=
| listImages : Op (list ImageInfo)
| pull (repoTag : string) : Op PullStream
| listContainers (all : bool) : Op (list ContainerInfo)
| createContainer (opts : ContainerCreateOptions) : Op Container
| container_start (c : Container) : Op unit
| container_stop (c : Container) : Op unit
| container_remove (c : Container) : Op unit
| container_inspect (c : Container) : Op ContainerInspectInfo.

(** [docker.getContainer(id)] is synchronous: it only builds a handle. *)
Definition getContainer (i : option string) : Container := {| id := i |}.

(** ** Memory: objects, arrays and the fields of the manager *)

(** Objects and arrays are referred to by their address, so that two
    descriptions with the same fields are still two objects, and an array
    that is pushed to is seen by everyone who holds it. *)
Definition ref := nat.
Definition aref := nat.

Record Mem := {
  objects : list DockerImage;
  arrays : list (list ref);
  _runningImageList : aref;
  _stoppingImageList : aref
}.

(** [new DockerManager()] over the objects the caller has built. *)
Definition constructor (objs : list DockerImage) : Mem :=
  {| objects := objs;
     arrays := [ []; [] ];
     _runningImageList := 0;
     _stoppingImageList := 1 |}.

Definition dummy_image : DockerImage :=
  {| name := ""; containerName := None; options := None |}.

(** Reading an object and an array.  Every reference a program holds is
    allocated, so the defaults are never reached. *)
Definition deref (m : Mem) (r : ref) : DockerImage :=
  default dummy_image (objects m !! r).

Definition array (m : Mem) (a : aref) : list ref :=
  default [] (arrays m !! a).

(** [Image.containerName = v]. *)
Definition set_containerName (r : ref) (v : string) (m : Mem) : Mem :=
  {| objects :=
       <[ r := {| name := name (deref m r);
                  containerName := Some v;
                  options := options (deref m r) |} ]> (objects m);
     arrays := arrays m;
     _runningImageList := _runningImageList m;
     _stoppingImageList := _stoppingImageList m |}.

(** [arr.push(x)]: the array itself grows. *)
Definition array_push (a : aref) (x : ref) (m : Mem) : Mem :=
  {| objects := objects m;
     arrays := <[ a := array m a ++ [x] ]> (arrays m);
     _runningImageList := _runningImageList m;
     _stoppingImageList := _stoppingImageList m |}.

(** [arr.includes(x)] on an array of objects compares addresses. *)
Definition array_includes (m : Mem) (a : aref) (x : ref) : bool :=
  bool_decide (x ∈ array m a).

(** [arr.filter(image => image.containerName !== Image.containerName)]:
    a new array; the old one is left as it was. *)
Definition filter_other_names (m : Mem) (l : list ref) (Image : ref)
    : list ref :=
  filter (λ image,
            containerName (deref m image) ≠ containerName (deref m Image)) l.

Definition alloc_array (l : list ref) (m : Mem) : aref * Mem :=
  (length (arrays m),
   {| objects := objects m;
      arrays := arrays m ++ [l];
      _runningImageList := _runningImageList m;
      _stoppingImageList := _stoppingImageList m |}).

Definition set_runningImageList (a : aref) (m : Mem) : Mem :=
  {| objects := objects m;
     arrays := arrays m;
     _runningImageList := a;
     _stoppingImageList := _stoppingImageList m |}.

Definition set_stoppingImageList (a : aref) (m : Mem) : Mem :=
  {| objects := objects m;
     arrays := arrays m;
     _runningImageList := _runningImageList m;
     _stoppingImageList := a |}.

(** ** Asynchronous programs *)

(** Where a line of the console comes from. *)
Inductive Console := console_log | console_error.

(** The body of an [async] function.  [Await] issues an engine call and
    suspends until it settles; [Sync] reads or writes memory; [Fork] calls
    an [async] function and drops its promise; [ForOf] is a [for ... of]
    loop over an array, at index [i], with the handler its body's exceptions
    reach and the code after the loop; [Never] waits on a promise that
    nobody settles. *)
Inductive Prog (A : Type) : Type :=
| Ret (a : A)
| Throw (e : Error)
| Await {X : Type} (op : Op X) (k : Settled X -> Prog A)
| Sync {X : Type} (f : Mem -> X * Mem) (k : X -> Prog A)
| Print (c : Console) (line : list string) (k : Prog A)
| Fork (p : Prog unit) (k : Prog A)
| ForOf (arr : aref) (i : nat) (body : ref -> Prog unit)
        (onThrow : Error -> Prog A) (k : Prog A)
| Never.

Arguments Ret {A} a.
Arguments Throw {A} e.
Arguments Await {A X} op k.
Arguments Sync {A X} f k.
Arguments Print {A} c line k.
Arguments Fork {A} p k.
Arguments ForOf {A} arr i body onThrow k.
Arguments Never {A}.

(** Sequencing with a handler: [f] continues a normal completion, [h] an
    exception.  A forked call keeps its own exceptions: its promise was
    dropped, so no handler of the caller sees them. *)
Fixpoint bind_catch {A B : Type} (p : Prog A)
    (f : A -> Prog B) (h : Error -> Prog B) : Prog B :=
  match p with
  | Ret a => f a
  | Throw e => h e
  | Await op k => Await op (λ r, bind_catch (k r) f h)
  | Sync g k => Sync g (λ x, bind_catch (k x) f h)
  | Print c line k => Print c line (bind_catch k f h)
  | Fork q k => Fork q (bind_catch k f h)
  | ForOf arr i body onThrow k =>
      ForOf arr i body (λ e, bind_catch (onThrow e) f h) (bind_catch k f h)
  | Never => Never
  end.

Global Instance Prog_ret : MRet Prog := λ A a, Ret a.
Global Instance Prog_bind : MBind Prog := λ A B f p, bind_catch p f Throw.

(** [try { p } catch (error) { h error }]. *)
Definition try_catch {A : Type} (p : Prog A) (h : Error -> Prog A) : Prog A :=
  bind_catch p Ret h.

(** [await op]: a rejection is thrown where the [await] stands. *)
Definition await {X : Type} (op : Op X) : Prog X :=
  Await op (λ r, match r with
                 | Fulfilled x => Ret x
                 | Rejected e => Throw e
                 end).

Definition read {X : Type} (f : Mem -> X) : Prog X :=
  Sync (λ m, (f m, m)) Ret.

Definition write (f : Mem -> Mem) : Prog unit :=
  Sync (λ m, (tt, f m)) Ret.

Definition new_array (l : list ref) : Prog aref :=
  Sync (alloc_array l) Ret.

Definition print (c : Console) (line : list string) : Prog unit :=
  Print c line (Ret tt).

(** Calling an [async] function without awaiting what it returns. *)
Definition fork (p : Prog unit) : Prog unit :=
  Fork p (Ret tt).

(** [for (const x of arr) { body x }]. *)
Definition for_of (arr : aref) (body : ref -> Prog unit) : Prog unit :=
  ForOf arr 0 body Throw (Ret tt).

(** [list.forEach(cb)] over an array of the caller that nothing changes
    while the callbacks run. *)
Fixpoint forEach (l : list ref) (cb : ref -> Prog unit) : Prog unit :=
  match l with
  | [] => Ret tt
  | x :: l' => cb x;; forEach l' cb
  end.

Fixpoint print_each (c : Console) (lines : list string) : Prog unit :=
  match lines with
  | [] => Ret tt
  | d :: lines' => print c [d];; print_each c lines'
  end.

(** ** The methods of [DockerManager] *)

(** Line 97:
    [containers.some(container => container.Names.includes(`/${cn}`))]. *)
Definition listed (cn : option string) (l : list ContainerInfo) : bool :=
  existsb (λ container,
             Js.includes (Names container) ("/" ++ Js.template cn)%string) l.

(** Line 57:
    [images.some(image => image.RepoTags && image.RepoTags.includes(nm))]. *)
Definition tagged (nm : string) (l : list ImageInfo) : bool :=
  existsb (λ image, match RepoTags image with
                    | Some tags => Js.includes tags nm
                    | None => false
                    end) l.

(** Lines 117-121: the bookkeeping after a start. *)
Definition record_started (Image : ref) : Prog unit :=
  cn ← read (λ m, containerName (deref m Image));
  print console_log [("Container " ++ Js.template cn ++ " started")%string];;
  running ← read _runningImageList;
  write (array_push running Image);;
  stopping ← read _stoppingImageList;
  listed ← read (λ m, array_includes m stopping Image);
  if listed : bool then
    l ← read (λ m, filter_other_names m (array m stopping) Image);
    a ← new_array l;
    write (set_stoppingImageList a)
  else Ret tt.

(** [async startContainer(Image)]. *)
Definition startContainer (Image : ref) : Prog unit :=
  try_catch
    (containers ← await (listContainers true);
     cn ← read (λ m, containerName (deref m Image));
     let exist := listed cn containers in
     if negb exist then
       opts ← read (λ m, create_options (deref m Image));
       container ← await (createContainer opts);
       await (container_start container);;
       record_started Image
     else
       let container := getContainer cn in
       inspect ← await (container_inspect container);
       if negb (String.eqb (State_Status inspect) "running") then
         await (container_start container);;
         record_started Image
       else
         cn' ← read (λ m, containerName (deref m Image));
         print console_log
           [("Container " ++ Js.template cn' ++ " is running")%string])
    (λ error,
       print console_error ["Error starting container:"; error];;
       Throw error).

(** Lines 156-160: the bookkeeping after a stop. *)
Definition record_stopped (Image : ref) : Prog unit :=
  cn ← read (λ m, containerName (deref m Image));
  print console_log [("Container " ++ Js.template cn ++ " stopped")%string];;
  stopping ← read _stoppingImageList;
  write (array_push stopping Image);;
  running ← read _runningImageList;
  listed ← read (λ m, array_includes m running Image);
  if listed : bool then
    l ← read (λ m, filter_other_names m (array m running) Image);
    a ← new_array l;
    write (set_runningImageList a)
  else Ret tt.

(** [async stopContainer(Image, IsRemoveContainer)]. *)
Definition stopContainer (Image : ref) (IsRemoveContainer : option bool)
    : Prog unit :=
  try_catch
    (cn ← read (λ m, containerName (deref m Image));
     let container := getContainer cn in
     await (container_stop container);;
     record_stopped Image;;
     if Js.truthy IsRemoveContainer then
       await (container_remove container);;
       cn' ← read (λ m, containerName (deref m Image));
       print console_log
         [("Container " ++ Js.template cn' ++ " removed")%string]
     else Ret tt)
    (λ error,
       print console_error ["Error stopping container:"; error];;
       Throw error).

(** [async init(imageList, IsStartContainer = true)].  The callback of
    [forEach] is [async]: each call is forked.  It passes [IsStartContainer]
    to [startContainer], which declares one parameter only. *)
Definition init (imageList : list ref) (IsStartContainer : option bool)
    : Prog unit :=
  let IsStartContainer := default true IsStartContainer in
  try_catch
    (forEach imageList (λ Image,
       fork (nm ← read (λ m, name (deref m Image));
             write (set_containerName Image (_formatContainerName nm));;
             startContainer Image)))
    (λ error,
       print console_error ["Error initializing images:"; error];;
       Throw error).

(** What [stream.on] throws when the pull has failed and there is no
    stream. *)
Definition no_stream : Error := "TypeError".

(** The promise [pullImage] returns when the image is missing, lines 60-75.
    When the pull fails the callback rejects it and goes on to [stream.on],
    which throws out of the callback.  Otherwise the chunks are printed, and
    the listener of ['end'] resolves it; that listener is [async], nobody
    holds its promise: when the start in it fails, its rejection is
    unhandled and the promise of [pullImage] is never settled.  It is never
    settled either when the stream does not end. *)
Definition pull_promise (Image : ref) (IsStartContainer : option bool)
    : Prog unit :=
  nm ← read (λ m, name (deref m Image));
  Await (pull nm) (λ r,
    match r with
    | Rejected err => Fork (Throw no_stream) (Throw err)
    | Fulfilled stream =>
        print_each console_log (chunks stream);;
        if ends stream then
          if Js.truthy IsStartContainer
          then try_catch (startContainer Image)
                         (λ error, Fork (Throw error) Never)
          else Ret tt
        else Never
    end).

(** [async pullImage(Image, IsStartContainer)].  The promise of the missing
    image is returned, not awaited: the [catch] does not see its rejection. *)
Definition pullImage (Image : ref) (IsStartContainer : option bool)
    : Prog unit :=
  returned ← try_catch
    (images ← await listImages;
     nm ← read (λ m, name (deref m Image));
     let exist := tagged nm images in
     if negb exist then
       Ret (Some (pull_promise Image IsStartContainer))
     else
       print console_log [("Image " ++ nm ++ " already exists")%string];;
       (if Js.truthy IsStartContainer then startContainer Image else Ret tt);;
       Ret None)
    (λ error,
       print console_error ["Error pulling image:"; error];;
       Throw error);
  match returned with
  | Some promise => promise
  | None => Ret tt
  end.

(** [async stop(IsRemoveContainer = false)]: the loop walks the array that
    [_runningImageList] holds when the loop starts. *)
Definition stop (IsRemoveContainer : option bool) : Prog unit :=
  let IsRemoveContainer := default false IsRemoveContainer in
  try_catch
    (running ← read _runningImageList;
     for_of running (λ Image, stopContainer Image (Some IsRemoveContainer)))
    (λ error,
       print console_error ["Error stopping images:"; error];;
       Throw error).

(** [getRunningContainerList()] and [getStoppingContainerList()]: the
    elements of a copy of the array. *)
Definition getRunningContainerList (m : Mem) : list ref :=
  array m (_runningImageList m).

Definition getStoppingContainerList (m : Mem) : list ref :=
  array m (_stoppingImageList m).

(** ** The event loop *)

(** What an execution leaves behind, in order: the engine calls as they are
    issued, the lines of the console, and the errors that nobody handles:
    the rejection of a promise that nobody holds, and an exception that
    escapes a callback. *)
Inductive Event : Type :=
| Called {X : Type} (op : Op X)
| Printed (c : Console) (line : list string)
| Unhandled (e : Error).

Inductive Outcome := Resolved | Failed (e : Error).

(** Who holds the promise of a running call: the caller, in slot [n] of its
    promises, or nobody. *)
Inductive Awaiter := Held (n : nat) | Dropped.

(** A call that is ready to run, and a call suspended on the engine. *)
Record Thread := { code : Prog unit; awaiter : Awaiter }.

Record Request := {
  answer : Type;
  request : Op answer;
  resume : Settled answer -> Prog unit;
  owner : Awaiter
}.

(** An engine: anything that answers the calls, one at a time. *)
Record Engine := {
  engine_state : Type;
  respond : forall X : Type, Op X -> engine_state -> Settled X * engine_state
}.

Section EventLoop.

Context (G : Engine).

Record Loop := {
  memory : Mem;
  engine : engine_state G;
  ready : list Thread;
  waiting : list Request;
  trace : list Event;
  promises : list (option Outcome)
}.

Definition boot (m : Mem) (e : engine_state G) : Loop :=
  {| memory := m; engine := e; ready := []; waiting := [];
     trace := []; promises := [] |}.

Definition with_memory (m : Mem) (c : Loop) : Loop :=
  {| memory := m; engine := engine c; ready := ready c;
     waiting := waiting c; trace := trace c; promises := promises c |}.

Definition with_engine (e : engine_state G) (c : Loop) : Loop :=
  {| memory := memory c; engine := e; ready := ready c;
     waiting := waiting c; trace := trace c; promises := promises c |}.

Definition with_ready (l : list Thread) (c : Loop) : Loop :=
  {| memory := memory c; engine := engine c; ready := l;
     waiting := waiting c; trace := trace c; promises := promises c |}.

Definition with_waiting (l : list Request) (c : Loop) : Loop :=
  {| memory := memory c; engine := engine c; ready := ready c;
     waiting := l; trace := trace c; promises := promises c |}.

Definition emit (ev : Event) (c : Loop) : Loop :=
  {| memory := memory c; engine := engine c; ready := ready c;
     waiting := waiting c; trace := trace c ++ [ev];
     promises := promises c |}.

Definition with_promises (l : list (option Outcome)) (c : Loop) : Loop :=
  {| memory := memory c; engine := engine c; ready := ready c;
     waiting := waiting c; trace := trace c; promises := l |}.

(** The promise of a call settles. *)
Definition settle (w : Awaiter) (o : Outcome) (c : Loop) : Loop :=
  match w with
  | Held n => with_promises (<[ n := Some o ]> (promises c)) c
  | Dropped =>
      match o with
      | Resolved => c
      | Failed e => emit (Unhandled e) c
      end
  end.

(** Run a call until it suspends or completes.  An engine call is issued and
    parked with its continuation; a forked call runs first, up to its own
    first suspension; a loop head is parked as ready and taken up by the
    next [tick], before any answer of the engine is looked at. *)
Fixpoint advance (p : Prog unit) (w : Awaiter) (c : Loop) : Loop :=
  match p with
  | Ret _ => settle w Resolved c
  | Throw e => settle w (Failed e) c
  | Await op k =>
      with_waiting
        (waiting c ++ [ {| request := op; resume := k; owner := w |} ])
        (emit (Called op) c)
  | Sync f k =>
      let '(x, m) := f (memory c) in advance (k x) w (with_memory m c)
  | Print s line k => advance k w (emit (Printed s line) c)
  | Fork q k => advance k w (advance q Dropped c)
  | ForOf _ _ _ _ _ =>
      with_ready (ready c ++ [ {| code := p; awaiter := w |} ]) c
  | Never => c
  end.

(** One turn of a [for ... of] loop: the iterator reads the array as it is
    now; past its end the loop is over. *)
Definition loop_turn (arr : aref) (i : nat) (body : ref -> Prog unit)
    (onThrow : Error -> Prog unit) (k : Prog unit) (m : Mem) : Prog unit :=
  match array m arr !! i with
  | Some x => bind_catch (body x) (λ _, ForOf arr (S i) body onThrow k) onThrow
  | None => k
  end.

(** Take up the first ready call. *)
Definition tick (c : Loop) : Loop :=
  match ready c with
  | [] => c
  | t :: rest =>
      let c' := with_ready rest c in
      match code t with
      | ForOf arr i body onThrow k =>
          advance (loop_turn arr i body onThrow k (memory c)) (awaiter t) c'
      | p => advance p (awaiter t) c'
      end
  end.

(** The engine answers the [n]-th call that is waiting. *)
Definition deliver (n : nat) (c : Loop) : Loop :=
  match waiting c !! n with
  | None => c
  | Some rq =>
      let '(r, e) := respond G (answer rq) (request rq) (engine c) in
      advance (resume rq r) (owner rq)
              (with_engine e (with_waiting (delete n (waiting c)) c))
  end.

(** The caller calls a method and keeps its promise. *)
Definition invoke (p : Prog unit) (c : Loop) : Loop :=
  advance p (Held (length (promises c)))
          (with_promises (promises c ++ [None]) c).

(** A schedule: what the caller does and what the engine answers, in order.
    Ready calls run before anything else happens. *)
Inductive Cmd : Type :=
| Call (p : Prog unit)
| Tick
| Answer (n : nat).

Definition step (cmd : Cmd) (c : Loop) : option Loop :=
  match cmd, ready c with
  | Tick, _ :: _ => Some (tick c)
  | Call p, [] => Some (invoke p c)
  | Answer n, [] =>
      if bool_decide (n < length (waiting c)) then Some (deliver n c) else None
  | _, _ => None
  end.

Fixpoint run (cmds : list Cmd) (c : Loop) : option Loop :=
  match cmds with
  | [] => Some c
  | cmd :: cmds' =>
      match step cmd c with
      | Some c' => run cmds' c'
      | None => None
      end
  end.

(** Let the loop run with nothing else going on: ready calls first, then the
    oldest waiting call is answered. *)
Fixpoint drain (fuel : nat) (c : Loop) : Loop :=
  match fuel with
  | 0 => c
  | S fuel' =>
      match ready c, waiting c with
      | _ :: _, _ => drain fuel' (tick c)
      | [], _ :: _ => drain fuel' (deliver 0 c)
      | [], [] => c
      end
  end.

Definition quiescent (c : Loop) : Prop :=
  ready c = [] /\ waiting c = [].

(** [await manager.method(...)] from a caller that does nothing else. *)
Definition call_and_wait (fuel : nat) (p : Prog unit) (c : Loop) : Loop :=
  drain fuel (invoke p c).

End EventLoop.

Arguments memory {G} _.
Arguments engine {G} _.
Arguments ready {G} _.
Arguments waiting {G} _.
Arguments trace {G} _.
Arguments promises {G} _.

(** ** Reading a trace *)

Definition is_pull (ev : Event) : bool :=
  match ev with Called (pull _) => true | _ => false end.

Definition is_create (ev : Event) : bool :=
  match ev with Called (createContainer _) => true | _ => false end.

Definition is_start (ev : Event) : bool :=
  match ev with Called (container_start _) => true | _ => false end.

Definition is_stop (ev : Event) : bool :=
  match ev with Called (container_stop _) => true | _ => false end.

Definition is_remove (ev : Event) : bool :=
  match ev with Called (container_remove _) => true | _ => false end.

Definition is_call (ev : Event) : bool :=
  match ev with Called _ => true | _ => false end.

Definition count (f : Event -> bool) (t : list Event) : nat :=
  length (List.filter f t).

(** The engine calls of a trace, without the console. *)
Definition calls (t : list Event) : list Event :=
  List.filter is_call t.

Arguments settle {G} w o c.
Arguments advance {G} p w c.
Arguments tick {G} c.
Arguments deliver {G} n c.
Arguments invoke {G} p c.
Arguments step {G} cmd c.
Arguments run {G} cmds c.
Arguments drain {G} fuel c.
Arguments quiescent {G} c.
Arguments call_and_wait {G} fuel p c.
Arguments emit {G} ev c /.
Arguments with_memory {G} m c /.
Arguments with_engine {G} e c /.
Arguments with_ready {G} l c /.
Arguments with_waiting {G} l c /.
Arguments with_promises {G} l c /.

(** ** A reference engine *)

(** A Docker engine as far as the manager can tell: the images it holds and
    its containers, each with a name, an image and a status.  A container is
    addressed by its name, which is also what the handle of a created
    container holds.  The answers follow the Docker API as dockerode reports
    it: creating from a missing image or under a taken name is an error, and
    so are starting a running container, stopping one that does not run and
    removing one that runs.  A container created without a name gets a name
    the engine makes up.  Names are taken as they are given (the model
    covers names without a leading ['/'], which Docker would drop). *)
Module Docker.

Record container := {
  c_name : string;
  c_image : string;
  c_status : string
}.

Record state := {
  images : list ImageInfo;
  containers : list container
}.

Definition has_image (tag : string) (s : state) : bool :=
  tagged tag (images s).

Definition named (n : string) (c : container) : bool :=
  String.eqb (c_name c) n.

(** The name the engine makes up for a container created without one: the
    first of [unnamed], [unnamed_], [unnamed__], ... that no container
    has. *)
Fixpoint unused (tries : nat) (n : string) (cs : list container) : string :=
  match tries with
  | 0 => n
  | S tries' =>
      if existsb (named n) cs then unused tries' (n ++ "_")%string cs else n
  end.

Definition invented (s : state) : string :=
  unused (length (containers s)) "unnamed" (containers s).

Definition lookup (h : Container) (s : state) : option container :=
  match id h with
  | Some n => List.find (named n) (containers s)
  | None => None
  end.

Definition set_status (n st : string) (s : state) : state :=
  {| images := images s;
     containers :=
       map (λ c, if String.eqb (c_name c) n
                 then {| c_name := c_name c; c_image := c_image c;
                         c_status := st |}
                 else c) (containers s) |}.

Definition add_image (tag : string) (s : state) : state :=
  {| images := if has_image tag s then images s
               else images s ++ [ {| RepoTags := Some [tag] |} ];
     containers := containers s |}.

Definition add_container (c : container) (s : state) : state :=
  {| images := images s; containers := containers s ++ [c] |}.

Definition drop_container (n : string) (s : state) : state :=
  {| images := images s;
     containers :=
       List.filter (λ c, negb (String.eqb (c_name c) n)) (containers s) |}.

Definition listing (all : bool) (s : state) : list ContainerInfo :=
  map (λ c, {| Names := [("/" ++ c_name c)%string] |})
      (List.filter (λ c, all || String.eqb (c_status c) "running")
                   (containers s)).

Definition answer_to (X : Type) (op : Op X) (s : state) : Settled X * state :=
  match op in Op X return Settled X * state with
  | listImages => (Fulfilled (images s), s)
  | pull tag =>
      (Fulfilled {| chunks := [("Pulling " ++ tag)%string]; ends := true |},
       add_image tag s)
  | listContainers all => (Fulfilled (listing all s), s)
  | createContainer opts =>
      match cc_name opts with
      | None =>
          if negb (has_image (cc_Image opts) s)
          then (Rejected "no such image", s)
          else (Fulfilled (getContainer (Some (invented s))),
                add_container {| c_name := invented s;
                                 c_image := cc_Image opts;
                                 c_status := "created" |} s)
      | Some n =>
          if negb (has_image (cc_Image opts) s)
          then (Rejected "no such image", s)
          else match lookup (getContainer (Some n)) s with
               | Some _ => (Rejected "name already in use", s)
               | None =>
                   (Fulfilled (getContainer (Some n)),
                    add_container {| c_name := n; c_image := cc_Image opts;
                                     c_status := "created" |} s)
               end
      end
  | container_start h =>
      match lookup h s with
      | None => (Rejected "no such container", s)
      | Some c =>
          if String.eqb (c_status c) "running"
          then (Rejected "container already started", s)
          else (Fulfilled tt, set_status (c_name c) "running" s)
      end
  | container_stop h =>
      match lookup h s with
      | None => (Rejected "no such container", s)
      | Some c =>
          if String.eqb (c_status c) "running"
          then (Fulfilled tt, set_status (c_name c) "exited" s)
          else (Rejected "container already stopped", s)
      end
  | container_remove h =>
      match lookup h s with
      | None => (Rejected "no such container", s)
      | Some c =>
          if String.eqb (c_status c) "running"
          then (Rejected "cannot remove a running container", s)
          else (Fulfilled tt, drop_container (c_name c) s)
      end
  | container_inspect h =>
      match lookup h s with
      | None => (Rejected "no such container", s)
      | Some c => (Fulfilled {| State_Status := c_status c |}, s)
      end
  end.

Definition daemon : Engine :=
  {| engine_state := state; respond := answer_to |}.

Definition empty : state := {| images := []; containers := [] |}.

End Docker.

(** An engine that fails every call, as when the daemon cannot be reached. *)
Definition unreachable : Engine :=
  {| engine_state := unit;
     respond := λ X _ s, (Rejected "connect ECONNREFUSED", s) |}.

(** An engine that grants every request and holds nothing. *)
Definition obliging : Engine :=
  {| engine_state := unit;
     respond := λ X op s,
       (match op in Op X return Settled X with
        | listImages => Fulfilled []
        | pull _ => Fulfilled {| chunks := []; ends := true |}
        | listContainers _ => Fulfilled []
        | createContainer opts => Fulfilled (getContainer (cc_name opts))
        | container_start _ => Fulfilled tt
        | container_stop _ => Fulfilled tt
        | container_remove _ => Fulfilled tt
        | container_inspect _ => Fulfilled {| State_Status := "running" |}
        end, s) |}.

(** An engine that stops what it is asked to stop and refuses to remove
    anything. *)
Definition keeper : Engine :=
  {| engine_state := unit;
     respond := λ X op s,
       (match op in Op X return Settled X with
        | container_stop _ => Fulfilled tt
        | _ => Rejected "refused"
        end, s) |}.

(** ** Well-formed memory *)

(** The two fields of the manager hold two different allocated arrays, as
    the constructor leaves them and every method keeps them. *)
Definition wf_mem (m : Mem) : Prop :=
  _runningImageList m < length (arrays m) /\
  _stoppingImageList m < length (arrays m) /\
  _runningImageList m <> _stoppingImageList m.

(** The container names a list of descriptions stands for. *)
Definition names_of (m : Mem) (l : list ref) : list (option string) :=
  map (λ r, containerName (deref m r)) l.

(** The memory [record_started] and [record_stopped] leave. *)
Definition after_start (Image : ref) (m : Mem) : Mem :=
  let m1 := array_push (_runningImageList m) Image m in
  if array_includes m1 (_stoppingImageList m1) Image then
    let '(a, m2) :=
      alloc_array
        (filter_other_names m1 (array m1 (_stoppingImageList m1)) Image) m1 in
    set_stoppingImageList a m2
  else m1.

Definition after_stop (Image : ref) (m : Mem) : Mem :=
  let m1 := array_push (_stoppingImageList m) Image m in
  if array_includes m1 (_runningImageList m1) Image then
    let '(a, m2) :=
      alloc_array
        (filter_other_names m1 (array m1 (_runningImageList m1)) Image) m1 in
    set_runningImageList a m2
  else m1.

(** How the promise of a call settles when its last engine call settles
    with [r]. *)
Definition outcome_of {X : Type} (r : Settled X) : Outcome :=
  match r with
  | Fulfilled _ => Resolved
  | Rejected err => Failed err
  end.

(** ** Teardown over a snapshot *)

(** The teardown as section 4.5 of the design words it: the members of the
    running list are copied first, and the copy is walked, each member
    awaited in turn; [onThrow] is the [catch] around the loop. *)
Fixpoint await_each (l : list ref) (body : ref -> Prog unit)
    (onThrow : Error -> Prog unit) : Prog unit :=
  match l with
  | [] => Ret tt
  | x :: l' => bind_catch (body x) (λ _, await_each l' body onThrow) onThrow
  end.

Definition stop_over_snapshot (IsRemoveContainer : option bool) : Prog unit :=
  let IsRemoveContainer := default false IsRemoveContainer in
  snapshot ← read getRunningContainerList;
  await_each snapshot
    (λ Image, stopContainer Image (Some IsRemoveContainer))
    (λ error,
       print console_error ["Error stopping images:"; error];;
       Throw error).

(** The loop is idle, and the array [arr] holds [L] and is not the array of
    stopped descriptions. *)
Definition walkable {G : Engine} (arr : aref) (L : list ref) (c : Loop G)
    : Prop :=
  ready c = [] /\
  waiting c = [] /\
  arrays (memory c) !! arr = Some L /\
  _stoppingImageList (memory c) <> arr.

(** The engine calls of a teardown that meets no failure: for each
    description in turn, a stop of its container and, when asked for, its
    removal. *)
Definition teardown_calls (m : Mem) (rm : bool) (l : list ref) : list Event :=
  flat_map (λ x, let h := getContainer (containerName (deref m x)) in
                 Called (container_stop h) ::
                 (if rm then [Called (container_remove h)] else [])) l.

(** The engine grants every stop and every removal. *)
Definition grants_teardown (G : Engine) : Prop :=
  forall (h : Container) (s : engine_state G),
    (respond G unit (container_stop h) s).1 = Fulfilled tt /\
    (respond G unit (container_remove h) s).1 = Fulfilled tt.

(** ** Scenarios *)

Definition image (n : string) (cn : option string) : DockerImage :=
  {| name := n; containerName := cn; options := None |}.

(** The description [{ name: 'nginx:latest' }]. *)
Definition nginx : DockerImage := image "nginx:latest" None.

(** An engine state with the given tags and the given containers, each with
    its name and status. *)
Definition docker_with (tags : list string) (cs : list (string * string))
    : Docker.state :=
  {| Docker.images := map (λ t, {| RepoTags := Some [t] |}) tags;
     Docker.containers :=
       map (λ '(n, s), {| Docker.c_name := n; Docker.c_image := "";
                          Docker.c_status := s |}) cs |}.

(** A new manager over the given objects, facing the given engine. *)
Definition fresh (G : Engine) (objs : list DockerImage) (e : engine_state G)
    : Loop G :=
  boot G (constructor objs) e.

(** An image reference with a registry port and a tag. *)
Definition registry_image : string := "localhost:5000/nginx:latest".

(** A first container is started and awaited. *)
Definition one_running : list Cmd :=
  [ Call (startContainer 0); Answer 0; Answer 0; Answer 0 ].

(** [stop()] begins; while the engine is still stopping the first container,
    a second description is started, and the engine answers that start
    before it answers the stop. *)
Definition late_arrival : list Cmd :=
  [ Call (stop None); Tick;
    Call (startContainer 1); Answer 1; Answer 1; Answer 1;
    Answer 0; Tick; Answer 0; Tick ].

(** ** Calls a program cannot issue *)

(** No path through [p] issues an engine call that [f] marks, whatever the
    engine answers and whatever memory holds. *)
Fixpoint avoids {A : Type} (f : Event -> bool) (p : Prog A) : Prop :=
  match p with
  | Ret _ | Throw _ | Never => True
  | Await op k => f (Called op) = false /\ forall r, avoids f (k r)
  | Sync g k => forall x, avoids f (k x)
  | Print _ _ k => avoids f k
  | Fork q k => avoids f q /\ avoids f k
  | ForOf _ _ body onThrow k =>
      (forall x, avoids f (body x)) /\ (forall e, avoids f (onThrow e)) /\
      avoids f k
  end.

(** [f] marks engine calls only. *)
Definition marks_calls (f : Event -> bool) : Prop :=
  (forall c line, f (Printed c line) = false) /\
  (forall e, f (Unhandled e) = false).

(** Nothing marked has happened, and nothing that is ready or waiting can
    make it happen. *)
Definition clean {G : Engine} (f : Event -> bool) (c : Loop G) : Prop :=
  count f (trace c) = 0 /\
  Forall (λ t, avoids f (code t)) (ready c) /\
  Forall (λ rq, forall r, avoids f (resume rq r)) (waiting c).

(** Every method the schedule calls avoids [f]. *)
Fixpoint calls_avoid (f : Event -> bool) (cmds : list Cmd) : Prop :=
  match cmds with
  | [] => True
  | Call p :: cmds' => avoids f p /\ calls_avoid f cmds'
  | _ :: cmds' => calls_avoid f cmds'
  end.

(** ** What every reachable memory satisfies *)

(** Memory is well formed and no description is, as an object, in both
    lists. *)
Definition sound (m : Mem) : Prop :=
  wf_mem m /\
  forall x : ref,
    x ∈ getRunningContainerList m -> x ∉ getStoppingContainerList m.

(** Started from memory [m], the program [p] has memory satisfy [I] whenever
    it suspends or completes, provided memory satisfies [I] whenever it is
    resumed. *)
Fixpoint keeps {A : Type} (I : Mem -> Prop) (p : Prog A) (m : Mem) : Prop :=
  match p with
  | Ret _ | Throw _ | Never => I m
  | Await _ k => I m /\ forall r m', I m' -> keeps I (k r) m'
  | Sync g k => keeps I (k (g m).1) (g m).2
  | Print _ _ k => keeps I k m
  | Fork q k => keeps I q m /\ forall m', I m' -> keeps I k m'
  | ForOf _ _ body onThrow k =>
      I m /\
      forall m', I m' ->
        (forall x, keeps I (body x) m') /\
        (forall e, keeps I (onThrow e) m') /\
        keeps I k m'
  end.

(** Memory satisfies [I], and whatever is ready or waiting keeps it so. *)
Definition stable {G : Engine} (I : Mem -> Prop) (c : Loop G) : Prop :=
  I (memory c) /\
  Forall (λ t, forall m, I m -> keeps I (code t) m) (ready c) /\
  Forall (λ rq, forall r m, I m -> keeps I (resume rq r) m) (waiting c).

(** The methods a caller can call. *)
Inductive method : Prog unit -> Prop :=
| method_init imageList flag : method (init imageList flag)
| method_pullImage Image flag : method (pullImage Image flag)
| method_startContainer Image : method (startContainer Image)
| method_stop flag : method (stop flag)
| method_stopContainer Image flag : method (stopContainer Image flag).

(** The schedule calls methods only. *)
Fixpoint calls_methods (cmds : list Cmd) : Prop :=
  match cmds with
  | [] => True
  | Call p :: cmds' => method p /\ calls_methods cmds'
  | _ :: cmds' => calls_methods cmds'
  end.

(** ** Which methods a schedule calls *)

(** Every call of the schedule is a program that satisfies [P]. *)
Fixpoint calls_only (P : Prog unit -> Prop) (cmds : list Cmd) : Prop :=
  match cmds with
  | [] => True
  | Call p :: cmds' => P p /\ calls_only P cmds'
  | _ :: cmds' => calls_only P cmds'
  end.

(** The methods that bring containers up. *)
Inductive startup : Prog unit -> Prop :=
| startup_init imageList flag : startup (init imageList flag)
| startup_pullImage Image flag : startup (pullImage Image flag)
| startup_startContainer Image : startup (startContainer Image).

(** The methods that take containers down. *)
Inductive teardown : Prog unit -> Prop :=
| teardown_stop flag : teardown (stop flag)
| teardown_stopContainer Image flag : teardown (stopContainer Image flag).

(** Every method but [pullImage]. *)
Inductive pull_free : Prog unit -> Prop :=
| pull_free_init imageList flag : pull_free (init imageList flag)
| pull_free_startContainer Image : pull_free (startContainer Image)
| pull_free_teardown p : teardown p -> pull_free p.

(** Every method but [init]. *)
Inductive init_free : Prog unit -> Prop :=
| init_free_pullImage Image flag : init_free (pullImage Image flag)
| init_free_startContainer Image : init_free (startContainer Image)
| init_free_teardown p : teardown p -> init_free p.

(** Any method, called without asking for a removal: [stop()] or
    [stop(false)], [stopContainer(Image)] or [stopContainer(Image, false)]. *)
Inductive keeping : Prog unit -> Prop :=
| keeping_startup p : startup p -> keeping p
| keeping_stop flag : default false flag = false -> keeping (stop flag)
| keeping_stopContainer Image flag :
    Js.truthy flag = false -> keeping (stopContainer Image flag).

(** The engine calls that take a container down, and all the others. *)
Definition takes_down (ev : Event) : bool := is_stop ev || is_remove ev.

Definition brings_up (ev : Event) : bool := is_call ev && negb (takes_down ev).

(** ** Reading the console and the promises *)

(** The lines of [console.error], in order. *)
Definition errors (t : list Event) : list (list string) :=
  flat_map (λ ev, match ev with
                  | Printed console_error line => [line]
                  | _ => []
                  end) t.

(** The errors that nobody handled, in order. *)
Definition unhandled (t : list Event) : list Error :=
  flat_map (λ ev, match ev with
                  | Unhandled e => [e]
                  | _ => []
                  end) t.

(** The promise of the last call the caller made. *)
Definition last_promise {G : Engine} (c : Loop G) : option Outcome :=
  mjoin (last (promises c)).

(** ** What [init] leaves when it returns *)

(** The description as [init] leaves it: the container name is derived from
    the image, whatever it was. *)
Definition named_by_init (Image : DockerImage) : DockerImage :=
  {| name := name Image;
     containerName := Some (_formatContainerName (name Image));
     options := options Image |}.

(** Every reference of the list is an allocated object. *)
Definition allocated (m : Mem) (l : list ref) : Prop :=
  Forall (λ x, x < length (objects m)) l.

(** The image and the options of every description are those of [objs]. *)
Definition same_images (objs : list DockerImage) (m : Mem) : Prop :=
  length (objects m) = length objs /\
  forall r : ref,
    name (deref m r) = name (default dummy_image (objs !! r)) /\
    options (deref m r) = options (default dummy_image (objs !! r)).

(** ** Further engines and schedules *)

(** An engine that holds the given tags and no container, grants every
    pull, and refuses to create, start, stop, remove or inspect. *)
Definition registry (tags : list string) : Engine :=
  {| engine_state := unit;
     respond := λ X op s,
       (match op in Op X return Settled X with
        | listImages =>
            Fulfilled (map (λ t, {| RepoTags := Some [t] |}) tags)
        | pull t =>
            Fulfilled {| chunks := [("Pulling " ++ t)%string];
                         ends := true |}
        | listContainers _ => Fulfilled []
        | _ => Rejected "refused"
        end, s) |}.

(** Two calls of [startContainer] made one after the other without awaiting
    the first; the engine answers the two listings, then the two creations,
    then the start. *)
Definition overlapping_starts (x y : ref) : list Cmd :=
  [ Call (startContainer x); Call (startContainer y);
    Answer 0; Answer 0; Answer 0; Answer 0; Answer 0 ].

(** * Properties *)

(** ** The event loop at rest *)

Lemma drain_quiescent {G : Engine} (fuel : nat) (c : Loop G) :
  quiescent c -> drain fuel c = c.
Proof.
  intros [Hr Hw]. destruct fuel as [|fuel]; simpl; [done|].
  by rewrite Hr, Hw.
Qed.

Lemma drain_more {G : Engine} (n fuel : nat) (c : Loop G) :
  quiescent (drain n c) -> n <= fuel -> drain fuel c = drain n c.
Proof.
  revert fuel c. induction n as [|n IH]; intros fuel c Hq Hle.
  - simpl in *. by apply drain_quiescent.
  - destruct fuel as [|fuel]; [lia|]. simpl in *.
    destruct (ready c), (waiting c); try (apply IH; [done|lia]). done.
Qed.

Lemma with_ready_idle {G : Engine} (c : Loop G) :
  ready c = [] -> with_ready [] c = c.
Proof. destruct c. simpl. by intros ->. Qed.

Lemma settle_idle {G : Engine} (w : Awaiter) (o : Outcome) (c : Loop G) :
  quiescent c -> quiescent (settle w o c).
Proof. intros [Hr Hw]. by destruct w, o. Qed.

Lemma insert_last {A : Type} (l : list A) (x y : A) :
  <[ length l := y ]> (l ++ [x]) = l ++ [y].
Proof.
  rewrite insert_app_r_alt by lia. by rewrite Nat.sub_diag.
Qed.

Lemma count_app (f : Event -> bool) (t u : list Event) :
  count f (t ++ u) = count f t + count f u.
Proof. unfold count. by rewrite List.filter_app, length_app. Qed.

Lemma calls_app (t u : list Event) : calls (t ++ u) = calls t ++ calls u.
Proof. apply List.filter_app. Qed.

Lemma errors_app (t u : list Event) : errors (t ++ u) = errors t ++ errors u.
Proof. unfold errors. by rewrite flat_map_app. Qed.

Lemma unhandled_app (t u : list Event) :
  unhandled (t ++ u) = unhandled t ++ unhandled u.
Proof. unfold unhandled. by rewrite flat_map_app. Qed.

Lemma last_promise_invoked {G : Engine} (m : Mem) (e : engine_state G)
    (r : list Thread) (w : list Request) (t : list Event)
    (ps : list (option Outcome)) (o : option Outcome) :
  last_promise (Build_Loop G m e r w t (ps ++ [o])) = o.
Proof. unfold last_promise. simpl. by rewrite last_snoc. Qed.

(** [bind], [ret] and [try_catch] down to [bind_catch]. *)
Ltac unfold_bind := unfold mbind, Prog_bind, mret, Prog_ret, try_catch in *.

(** ** Arrays and the two lists *)

Lemma array_push_other (m : Mem) (a b : aref) (x : ref) :
  a <> b -> array (array_push a x m) b = array m b.
Proof.
  intros H. unfold array, array_push. simpl.
  by rewrite list_lookup_insert_ne.
Qed.

Lemma array_push_same (m : Mem) (a : aref) (x : ref) :
  a < length (arrays m) -> array (array_push a x m) a = array m a ++ [x].
Proof.
  intros H. unfold array at 1, array_push. simpl.
  by rewrite list_lookup_insert_eq.
Qed.

Lemma deref_array_push (m : Mem) (a : aref) (x r : ref) :
  deref (array_push a x m) r = deref m r.
Proof. done. Qed.

Lemma filter_other_names_push (m : Mem) (a : aref) (x : ref) (l : list ref)
    (Image : ref) :
  filter_other_names (array_push a x m) l Image = filter_other_names m l Image.
Proof. done. Qed.

Lemma not_in_filter_other_names (m : Mem) (l : list ref) (Image : ref) :
  Image ∉ filter_other_names m l Image.
Proof.
  unfold filter_other_names. rewrite list_elem_of_filter. by intros [H _].
Qed.

Lemma in_filter_other_names (m : Mem) (l : list ref) (x y : ref) :
  y ∈ filter_other_names m l x -> y ∈ l.
Proof.
  unfold filter_other_names. rewrite list_elem_of_filter. by intros [_ H].
Qed.

Lemma wf_constructor (objs : list DockerImage) : wf_mem (constructor objs).
Proof. unfold wf_mem. simpl. lia. Qed.

Lemma wf_set_containerName (m : Mem) (r : ref) (v : string) :
  wf_mem m -> wf_mem (set_containerName r v m).
Proof. done. Qed.

Lemma wf_after_start (m : Mem) (x : ref) :
  wf_mem m -> wf_mem (after_start x m).
Proof.
  intros (Hr & Hs & Hne). unfold wf_mem, after_start. simpl.
  destruct (array_includes _ _ _); simpl;
    rewrite ?length_app, ?length_insert; simpl; lia.
Qed.

Lemma wf_after_stop (m : Mem) (x : ref) :
  wf_mem m -> wf_mem (after_stop x m).
Proof.
  intros (Hr & Hs & Hne). unfold wf_mem, after_stop. simpl.
  destruct (array_includes _ _ _); simpl;
    rewrite ?length_app, ?length_insert; simpl; lia.
Qed.

Lemma running_after_start (m : Mem) (x : ref) :
  wf_mem m ->
  getRunningContainerList (after_start x m) =
    getRunningContainerList m ++ [x].
Proof.
  intros (Hr & Hs & Hne). unfold after_start, getRunningContainerList. simpl.
  destruct (array_includes _ _ _); simpl.
  - unfold array. simpl. rewrite lookup_app_l by (by rewrite length_insert).
    by rewrite list_lookup_insert_eq.
  - unfold array. simpl. by rewrite list_lookup_insert_eq.
Qed.

Lemma stopping_after_start (m : Mem) (x : ref) :
  wf_mem m ->
  getStoppingContainerList (after_start x m) =
    if bool_decide (x ∈ getStoppingContainerList m)
    then filter_other_names m (getStoppingContainerList m) x
    else getStoppingContainerList m.
Proof.
  intros (Hr & Hs & Hne). unfold after_start, getStoppingContainerList.
  simpl. unfold array_includes. rewrite array_push_other by done.
  destruct (bool_decide _); simpl.
  - unfold array at 1. simpl. rewrite list_lookup_middle by done. simpl.
    apply filter_other_names_push.
  - by rewrite array_push_other.
Qed.

Lemma stopping_after_stop (m : Mem) (x : ref) :
  wf_mem m ->
  getStoppingContainerList (after_stop x m) =
    getStoppingContainerList m ++ [x].
Proof.
  intros (Hr & Hs & Hne). unfold after_stop, getStoppingContainerList. simpl.
  destruct (array_includes _ _ _); simpl.
  - unfold array. simpl. rewrite lookup_app_l by (by rewrite length_insert).
    by rewrite list_lookup_insert_eq.
  - unfold array. simpl. by rewrite list_lookup_insert_eq.
Qed.

Lemma running_after_stop (m : Mem) (x : ref) :
  wf_mem m ->
  getRunningContainerList (after_stop x m) =
    if bool_decide (x ∈ getRunningContainerList m)
    then filter_other_names m (getRunningContainerList m) x
    else getRunningContainerList m.
Proof.
  intros (Hr & Hs & Hne). unfold after_stop, getRunningContainerList.
  simpl. unfold array_includes. rewrite array_push_other by done.
  destruct (bool_decide _); simpl.
  - unfold array at 1. simpl. rewrite list_lookup_middle by done. simpl.
    apply filter_other_names_push.
  - by rewrite array_push_other.
Qed.

(** After the bookkeeping of a start, the description that was passed is
    listed as running and, as an object, not as stopped. *)
Lemma after_start_lists (m : Mem) (Image : ref) :
  wf_mem m ->
  (Image ∈ getRunningContainerList (after_start Image m)) /\
  (Image ∉ getStoppingContainerList (after_start Image m)).
Proof.
  intros (Hr & Hs & Hne). unfold after_start.
  unfold getStoppingContainerList, getRunningContainerList. simpl.
  destruct (array_includes _ _ _) eqn:Hinc; simpl.
  - split.
    + unfold array. simpl. rewrite lookup_app_l by (by rewrite length_insert).
      rewrite list_lookup_insert_eq by done. simpl.
      apply elem_of_app. right. by apply list_elem_of_singleton.
    + unfold array at 1. simpl. rewrite list_lookup_middle by done. simpl.
      apply not_in_filter_other_names.
  - split.
    + unfold array. simpl. rewrite list_lookup_insert_eq by done. simpl.
      apply elem_of_app. right. by apply list_elem_of_singleton.
    + by apply bool_decide_eq_false in Hinc.
Qed.

(** After the bookkeeping of a stop, a description that was listed as
    running is listed as stopped and no longer as running. *)
Lemma after_stop_lists (m : Mem) (Image : ref) :
  wf_mem m -> Image ∈ getRunningContainerList m ->
  Image ∈ getStoppingContainerList (after_stop Image m) /\
  Image ∉ getRunningContainerList (after_stop Image m).
Proof.
  intros (Hr & Hs & Hne) Hin. unfold after_stop.
  assert (array_includes (array_push (_stoppingImageList m) Image m)
            (_runningImageList m) Image = true) as Hinc.
  { apply bool_decide_eq_true. by rewrite array_push_other. }
  simpl. rewrite Hinc.
  unfold getStoppingContainerList, getRunningContainerList. simpl. split.
  - unfold array. simpl. rewrite lookup_app_l by (by rewrite length_insert).
    rewrite list_lookup_insert_eq by done. simpl.
    apply elem_of_app. right. by apply list_elem_of_singleton.
  - unfold array at 1. simpl. rewrite list_lookup_middle by done. simpl.
    apply not_in_filter_other_names.
Qed.

Lemma after_stop_keeps (m : Mem) (x : ref) (arr : aref) (L : list ref) :
  arrays m !! arr = Some L -> _stoppingImageList m <> arr ->
  arrays (after_stop x m) !! arr = Some L /\
  _stoppingImageList (after_stop x m) = _stoppingImageList m.
Proof.
  intros Harr Hne. unfold after_stop. simpl.
  assert (<[_stoppingImageList m:=array m (_stoppingImageList m) ++ [x]]>
            (arrays m) !! arr = Some L) as Hpush.
  { by rewrite list_lookup_insert_ne. }
  destruct (array_includes _ _ _); simpl; [|done].
  split; [|done]. rewrite lookup_app_l; [done|].
  by apply lookup_lt_Some in Hpush.
Qed.

Lemma after_stop_objects (m : Mem) (x : ref) :
  objects (after_stop x m) = objects m.
Proof. unfold after_stop. simpl. by destruct (array_includes _ _ _). Qed.

Lemma after_stop_stopping (m : Mem) (x : ref) :
  _stoppingImageList m < length (arrays m) ->
  _stoppingImageList (after_stop x m) < length (arrays (after_stop x m)) /\
  getStoppingContainerList (after_stop x m) =
    getStoppingContainerList m ++ [x].
Proof.
  intros Hs. unfold after_stop, getStoppingContainerList. simpl.
  destruct (array_includes _ _ _); simpl.
  - split; [rewrite length_app, length_insert; lia|].
    unfold array. simpl. rewrite lookup_app_l by (by rewrite length_insert).
    by rewrite list_lookup_insert_eq.
  - split; [by rewrite length_insert|].
    unfold array. simpl. by rewrite list_lookup_insert_eq.
Qed.

Lemma sound_constructor (objs : list DockerImage) : sound (constructor objs).
Proof.
  split; [apply wf_constructor|]. intros x Hx.
  unfold getRunningContainerList, constructor, array in Hx. simpl in Hx.
  by apply not_elem_of_nil in Hx.
Qed.

Lemma sound_set_containerName (m : Mem) (r : ref) (v : string) :
  sound m -> sound (set_containerName r v m).
Proof. done. Qed.

Lemma sound_after_start (m : Mem) (x : ref) :
  sound m -> sound (after_start x m).
Proof.
  intros [Hwf Hd]. split; [by apply wf_after_start|]. intros y.
  rewrite running_after_start, stopping_after_start by done.
  intros Hy Hy'. apply elem_of_app in Hy as [Hy|Hy].
  - apply (Hd y Hy). case_bool_decide; [|done].
    by apply in_filter_other_names in Hy'.
  - apply list_elem_of_singleton in Hy as ->. case_bool_decide; [|done].
    by apply not_in_filter_other_names in Hy'.
Qed.

Lemma sound_after_stop (m : Mem) (x : ref) :
  sound m -> sound (after_stop x m).
Proof.
  intros [Hwf Hd]. split; [by apply wf_after_stop|]. intros y.
  rewrite running_after_stop, stopping_after_stop by done.
  intros Hy Hy'. apply elem_of_app in Hy' as [Hy'|Hy'].
  - case_bool_decide; [apply in_filter_other_names in Hy|]; by apply (Hd y).
  - apply list_elem_of_singleton in Hy' as ->. case_bool_decide; [|done].
    by apply not_in_filter_other_names in Hy.
Qed.

Lemma after_start_objects (m : Mem) (x : ref) :
  deref (after_start x m) x = deref m x.
Proof. unfold after_start. simpl. by destruct (array_includes _ _ _). Qed.

Lemma deref_set_containerName (m : Mem) (x y : ref) (v : string) :
  x < length (objects m) ->
  deref (set_containerName x v m) y =
    if bool_decide (y = x)
    then {| name := name (deref m x); containerName := Some v;
            options := options (deref m x) |}
    else deref m y.
Proof.
  intros Hx. unfold deref at 1, set_containerName. simpl.
  case_bool_decide as E.
  - subst y. by rewrite list_lookup_insert_eq.
  - by rewrite list_lookup_insert_ne.
Qed.

Lemma same_images_set_containerName (objs : list DockerImage) (x : ref)
    (v : string) (m : Mem) :
  same_images objs m -> same_images objs (set_containerName x v m).
Proof.
  intros [Hlen Hd]. split; [simpl; by rewrite length_insert|].
  intros r. destruct (decide (x < length (objects m))) as [Hx|Hx].
  - rewrite deref_set_containerName by done.
    case_bool_decide as E; [subst r; simpl|]; apply Hd.
  - unfold deref, set_containerName. simpl.
    rewrite list_insert_ge by lia. apply Hd.
Qed.

(** ** Name derivation *)

Lemma substring_all (s : string) :
  String.substring 0 (String.length s) s = s.
Proof. induction s as [|c s IH]; [done|]. simpl. by rewrite IH. Qed.

Lemma replace_colon_cons (c : ascii) (s : string) :
  Js.replace ":" "-" (String c s) =
  if Ascii.eqb ":" c then String "-" s else String c (Js.replace ":" "-" s).
Proof.
  cbn [Js.replace String.prefix].
  destruct (ascii_dec ":" c) as [<-|Hne].
  - rewrite Ascii.eqb_refl.
    replace (String.prefix "" s) with true by (by destruct s).
    cbn [String.length Nat.sub String.substring String.append].
    by rewrite Nat.sub_0_r, substring_all.
  - apply Ascii.eqb_neq in Hne. by rewrite Hne.
Qed.

Lemma replace_colon_none (s : string) :
  Js.occurrences ":" s = 0 -> Js.replace ":" "-" s = s.
Proof.
  induction s as [|c s IH]; [done|].
  rewrite replace_colon_cons. cbn [Js.occurrences].
  destruct (Ascii.eqb ":" c); [done|]. intros H. by rewrite IH.
Qed.

Lemma replace_all_none (s : string) :
  Js.occurrences ":" s = 0 -> replace_all_colons s = s.
Proof.
  induction s as [|c s IH]; [done|]. cbn [Js.occurrences replace_all_colons].
  rewrite (Ascii.eqb_sym c). destruct (Ascii.eqb ":" c); [done|].
  intros H. by rewrite IH.
Qed.

Lemma replace_at_most_one (s : string) :
  Js.occurrences ":" s <= 1 -> Js.replace ":" "-" s = replace_all_colons s.
Proof.
  induction s as [|c s IH]; [done|].
  rewrite replace_colon_cons. cbn [Js.occurrences replace_all_colons].
  rewrite (Ascii.eqb_sym c). destruct (Ascii.eqb ":" c); intros H.
  - rewrite replace_all_none; [done|lia].
  - rewrite IH; [done|lia].
Qed.

Lemma occurrences_app (c : ascii) (s t : string) :
  Js.occurrences c (s ++ t)%string = Js.occurrences c s + Js.occurrences c t.
Proof. induction s as [|d s IH]; [done|]. simpl. rewrite IH. lia. Qed.

(** The derived name has one colon fewer than the image, not none. *)
Lemma replace_colon_occurrences (s : string) :
  Js.occurrences ":" (Js.replace ":" "-" s) = Js.occurrences ":" s - 1.
Proof.
  induction s as [|c s IH]; [done|].
  rewrite replace_colon_cons. cbn [Js.occurrences].
  destruct (Ascii.eqb ":" c) eqn:E; cbn [Js.occurrences].
  - change (Ascii.eqb ":" "-") with false. simpl. lia.
  - rewrite E, IH. simpl. lia.
Qed.

(** With at most one colon in the image the derived name is the documented
    one. *)
Lemma formatContainerName_single_colon (imageName : string) :
  Js.occurrences ":" imageName <= 1 ->
  _formatContainerName imageName =
  replace_all_colons (imageName ++ "-container")%string.
Proof.
  intros H. apply replace_at_most_one. rewrite occurrences_app.
  change (Js.occurrences ":" "-container") with 0. lia.
Qed.

(** C6.  [_formatContainerName] rewrites the first colon only: the derived
    name holds one colon fewer than the image, whatever the image.
    ["nginx:latest"] becomes ["nginx-latest-container"], but the name derived
    from an image with a registry port and a tag keeps its second colon, and
    so is not the image with ["-container"] appended and every colon turned
    into a hyphen. *)
Theorem formatContainerName_first_colon_only :
  (forall imageName : string,
     Js.occurrences ":" (_formatContainerName imageName) =
     Js.occurrences ":" imageName - 1) /\
  _formatContainerName "nginx:latest" = "nginx-latest-container" /\
  _formatContainerName registry_image =
    "localhost-5000/nginx:latest-container" /\
  Js.occurrences ":" (_formatContainerName registry_image) = 1 /\
  _formatContainerName registry_image <>
    replace_all_colons (registry_image ++ "-container")%string.
Proof.
  split.
  - intros imageName. unfold _formatContainerName.
    rewrite replace_colon_occurrences, occurrences_app.
    change (Js.occurrences ":" "-container") with 0. lia.
  - repeat split; try reflexivity. vm_compute. discriminate.
Qed.

Lemma replace_colon_length (s : string) :
  String.length (Js.replace ":" "-" s) = String.length s.
Proof.
  induction s as [|c s IH]; [done|].
  rewrite replace_colon_cons. destruct (Ascii.eqb ":" c); simpl; congruence.
Qed.

Lemma replace_colon_app (s t : string) :
  Js.occurrences ":" t = 0 ->
  Js.replace ":" "-" (s ++ t)%string = (Js.replace ":" "-" s ++ t)%string.
Proof.
  intros Ht. induction s as [|c s IH].
  - change (Js.replace ":" "-" t = t). by apply replace_colon_none.
  - change (String c s ++ t)%string with (String c (s ++ t)%string).
    rewrite !replace_colon_cons. destruct (Ascii.eqb ":" c); [done|].
    by rewrite IH.
Qed.

Lemma replace_colon_first (a b : string) :
  Js.occurrences ":" a = 0 ->
  Js.replace ":" "-" (a ++ String ":" b)%string = (a ++ String "-" b)%string.
Proof.
  induction a as [|c a IH]; intros Ha.
  - change (Js.replace ":" "-" (String ":" b) = String "-" b).
    by rewrite replace_colon_cons.
  - change (String c a ++ String ":" b)%string
      with (String c (a ++ String ":" b)%string).
    rewrite replace_colon_cons. cbn [Js.occurrences] in Ha.
    destruct (Ascii.eqb ":" c); [done|]. by rewrite IH.
Qed.

Lemma string_app_length (s t : string) :
  String.length (s ++ t)%string = String.length s + String.length t.
Proof.
  induction s as [|c s IH]; [done|].
  change (S (String.length (s ++ t)%string)
          = S (String.length s + String.length t)).
  by rewrite IH.
Qed.

Lemma string_app_assoc (s t u : string) :
  ((s ++ t) ++ u)%string = (s ++ (t ++ u))%string.
Proof.
  induction s as [|c s IH]; [done|].
  change (String c ((s ++ t) ++ u)%string = String c (s ++ (t ++ u))%string).
  by rewrite IH.
Qed.

(** X1.  The replacement never reaches the suffix: the derived name is the
    image with its first colon rewritten, followed by ["-container"], and is
    ten characters longer than the image. *)
Theorem formatContainerName_keeps_suffix (imageName : string) :
  _formatContainerName imageName =
    (Js.replace ":" "-" imageName ++ "-container")%string /\
  String.length (_formatContainerName imageName) =
    String.length imageName + 10.
Proof.
  assert (_formatContainerName imageName =
            (Js.replace ":" "-" imageName ++ "-container")%string) as E.
  { unfold _formatContainerName. by apply replace_colon_app. }
  split; [done|].
  by rewrite E, string_app_length, replace_colon_length.
Qed.

(** X2.  The derivation is not injective: an image [repo:tag] and an image
    whose name is [repo-tag] get the same container name. *)
Theorem formatContainerName_collides (repo tag : string) :
  Js.occurrences ":" repo = 0 -> Js.occurrences ":" tag = 0 ->
  _formatContainerName (repo ++ ":" ++ tag)%string =
  _formatContainerName (repo ++ "-" ++ tag)%string.
Proof.
  intros Hr Ht. unfold _formatContainerName.
  rewrite !string_app_assoc.
  change (":" ++ tag ++ "-container")%string
    with (String ":" (tag ++ "-container")%string).
  rewrite replace_colon_first by done.
  symmetry. apply replace_colon_none.
  rewrite occurrences_app, Hr. cbn [Js.occurrences].
  by rewrite occurrences_app, Ht.
Qed.

(** X2, witness: the image [nginx:latest] and an image named [nginx-latest]. *)
Lemma formatContainerName_collides_witness :
  _formatContainerName ("nginx" ++ ":" ++ "latest")%string =
  _formatContainerName ("nginx" ++ "-" ++ "latest")%string.
Proof.
  apply (formatContainerName_collides "nginx" "latest"); reflexivity.
Defined.

(** ** Calls a method cannot issue *)

Section Avoid.
Context {G : Engine} (f : Event -> bool) (Hf : marks_calls f).

Lemma avoids_bind_catch {A B : Type} (p : Prog A)
    (g : A -> Prog B) (h : Error -> Prog B) :
  avoids f p -> (forall a, avoids f (g a)) -> (forall e, avoids f (h e)) ->
  avoids f (bind_catch p g h).
Proof.
  revert B g h.
  induction p as [A a|A e|A X op k IH|A X s k IH|A c line k IH|A q _ k IH
                 |A arr i body _ onThrow IHt k IH|A];
    intros B g h Hp Hg Hh; simpl in *; auto.
  - destruct Hp as [Hop Hk]. split; auto.
  - destruct Hp as [Hq Hk]. split; auto.
  - destruct Hp as (Hb & Ht & Hk). repeat split; auto.
Qed.

Lemma count_emit (ev : Event) (t : list Event) :
  count f (t ++ [ev]) = count f t + (if f ev then 1 else 0).
Proof.
  unfold count. rewrite List.filter_app, length_app. simpl.
  by destruct (f ev).
Qed.

Lemma clean_emit (ev : Event) (c : Loop G) :
  f ev = false -> clean f c -> clean f (emit ev c).
Proof.
  intros Hev (Ht & Hr & Hw). repeat split; simpl; auto.
  rewrite count_emit, Hev. lia.
Qed.

Lemma clean_settle (w : Awaiter) (o : Outcome) (c : Loop G) :
  clean f c -> clean f (settle w o c).
Proof.
  intros Hc. destruct w as [n|]; simpl.
  - destruct Hc as (Ht & Hr & Hw). by repeat split.
  - destruct o as [|e]; [done|]. apply clean_emit; [apply Hf|done].
Qed.

Lemma clean_advance (p : Prog unit) (w : Awaiter) (c : Loop G) :
  avoids f p -> clean f c -> clean f (advance p w c).
Proof.
  revert p w c. fix IH 1. intros p w c Hp Hc.
  destruct p as [a|e|X op k|X s k|co line k|q k|arr i body onThrow k|];
    simpl in *.
  - by apply clean_settle.
  - by apply clean_settle.
  - destruct Hp as [Hop Hk].
    destruct (clean_emit (Called op) c Hop Hc) as (Ht & Hr & Hw).
    repeat split; simpl; auto.
    apply Forall_app. split; [done|]. by apply Forall_singleton.
  - destruct (s (memory c)) as [x m] eqn:E. apply IH; [apply Hp|].
    destruct Hc as (Ht & Hr & Hw). by repeat split.
  - apply IH; [done|]. apply clean_emit; [apply Hf|done].
  - destruct Hp as [Hq Hk]. apply IH; [done|]. by apply IH.
  - destruct Hc as (Ht & Hr & Hw). repeat split; simpl; auto.
    apply Forall_app. split; [done|]. by apply Forall_singleton.
  - done.
Qed.

Lemma clean_tick (c : Loop G) : clean f c -> clean f (tick c).
Proof.
  intros Hc. unfold tick. destruct (ready c) as [|t rest] eqn:E; [done|].
  destruct Hc as (Ht & Hr & Hw). rewrite E in Hr.
  apply Forall_cons in Hr as [Hcode Hrest].
  assert (clean f (with_ready rest c)) as Hc' by (by repeat split).
  destruct (code t) as [a|e|X op k|X s k|co line k|q k|arr i body onThrow k|]
    eqn:Ec; try (apply clean_advance; [done|done]).
  apply clean_advance; [|done]. unfold loop_turn.
  simpl in Hcode. destruct Hcode as (Hb & Hth & Hk).
  destruct (array (memory c) arr !! i) as [x|]; [|done].
  apply avoids_bind_catch; simpl; auto.
Qed.

Lemma clean_deliver (n : nat) (c : Loop G) : clean f c -> clean f (deliver n c).
Proof.
  intros Hc. unfold deliver. destruct (waiting c !! n) as [rq|] eqn:E; [|done].
  destruct (respond G (answer rq) (request rq) (engine c)) as [r e].
  destruct Hc as (Ht & Hr & Hw).
  apply clean_advance.
  - eapply Forall_lookup_1 in Hw; [|done]. apply Hw.
  - repeat split; simpl; auto. by apply Forall_delete.
Qed.

Lemma clean_invoke (p : Prog unit) (c : Loop G) :
  avoids f p -> clean f c -> clean f (invoke p c).
Proof.
  intros Hp (Ht & Hr & Hw). apply clean_advance; [done|]. by repeat split.
Qed.

Lemma clean_drain (fuel : nat) (c : Loop G) :
  clean f c -> clean f (drain fuel c).
Proof.
  revert c. induction fuel as [|fuel IH]; intros c Hc; simpl; [done|].
  destruct (ready c), (waiting c); auto using clean_tick, clean_deliver.
Qed.

Lemma clean_run (cmds : list Cmd) (c c' : Loop G) :
  calls_avoid f cmds -> clean f c -> run cmds c = Some c' -> clean f c'.
Proof.
  revert c. induction cmds as [|cmd cmds IH]; intros c Hcmds Hc Hrun;
    simpl in *.
  - by injection Hrun as <-.
  - destruct (step cmd c) as [c1|] eqn:Es; [|done].
    apply (IH c1); [by destruct cmd; try apply Hcmds| |done].
    unfold step in Es. destruct cmd as [p| |n], (ready c) eqn:Er; try done.
    + injection Es as <-. apply clean_invoke; [apply Hcmds|done].
    + injection Es as <-. by apply clean_tick.
    + case_bool_decide; [|done]. injection Es as <-. by apply clean_deliver.
Qed.

Lemma clean_boot (m : Mem) (e : engine_state G) : clean f (boot G m e).
Proof. by repeat split. Qed.

End Avoid.

Lemma is_pull_marks_calls : marks_calls is_pull.
Proof. by split. Qed.

Lemma is_create_marks_calls : marks_calls is_create.
Proof. by split. Qed.

Lemma is_start_marks_calls : marks_calls is_start.
Proof. by split. Qed.

Ltac avoids_tac :=
  repeat (unfold_bind; simpl;
          match goal with
          | |- True => exact I
          | |- _ = false => reflexivity
          | |- _ /\ _ => split
          | |- forall _, _ => intro
          | |- context [match ?x with _ => _ end] => is_var x; destruct x
          | |- context [if ?b then _ else _] => destruct b
          end).

Lemma startContainer_avoids_pull (Image : ref) :
  avoids is_pull (startContainer Image).
Proof. unfold startContainer, record_started. avoids_tac. Qed.

Lemma init_avoids_pull (imageList : list ref) (IsStartContainer : option bool) :
  avoids is_pull (init imageList IsStartContainer).
Proof.
  unfold init. unfold_bind. induction imageList as [|x l IH]; [done|].
  simpl. split; [|exact IH]. intros nm []. apply startContainer_avoids_pull.
Qed.

Lemma print_each_avoids (f : Event -> bool) (c : Console) (lines : list string)
    {B : Type} (g : unit -> Prog B) (h : Error -> Prog B) :
  avoids f (g tt) -> avoids f (bind_catch (print_each c lines) g h).
Proof.
  intros Hg. induction lines as [|d ds IH]; simpl; [done|exact IH].
Qed.

Lemma pullImage_omitted_avoids (f : Event -> bool) (Image : ref) :
  f (Called listImages) = false ->
  (forall nm, f (Called (pull nm)) = false) ->
  avoids f (pullImage Image None).
Proof.
  intros Hl Hp. unfold pullImage, pull_promise. unfold_bind. simpl.
  split; [done|].
  intros [images|e]; simpl; [|done]. intros nm. destruct (negb _); simpl.
  - intros nm'. split; [apply Hp|]. intros [stream|e]; simpl; [|done].
    apply print_each_avoids. by destruct (ends stream).
  - done.
Qed.

(** ** Which calls a method can issue *)

Lemma takes_down_marks_calls : marks_calls takes_down.
Proof. by split. Qed.

Lemma brings_up_marks_calls : marks_calls brings_up.
Proof. by split. Qed.

Lemma is_remove_marks_calls : marks_calls is_remove.
Proof. by split. Qed.

Lemma calls_only_avoid (P : Prog unit -> Prop) (f : Event -> bool)
    (cmds : list Cmd) :
  (forall p, P p -> avoids f p) -> calls_only P cmds -> calls_avoid f cmds.
Proof.
  intros HP. induction cmds as [|[p| |n] cmds IH]; simpl; [done| |done|done].
  intros [Hp Hrest]. auto.
Qed.

(** A run from a new loop that only calls programs avoiding [f] leaves no
    event that [f] marks. *)
Lemma run_avoids {G : Engine} (P : Prog unit -> Prop) (f : Event -> bool)
    (m : Mem) (e : engine_state G) (cmds : list Cmd) (c : Loop G) :
  marks_calls f -> (forall p, P p -> avoids f p) ->
  calls_only P cmds -> run cmds (boot G m e) = Some c ->
  count f (trace c) = 0.
Proof.
  intros Hf HP Hcmds Hrun.
  exact (proj1 (clean_run f Hf _ _ _ (calls_only_avoid P f cmds HP Hcmds)
                  (clean_boot f m e) Hrun)).
Qed.

Lemma avoids_bind_assoc {A B C : Type} (f : Event -> bool) (p : Prog A)
    (g : A -> Prog B) (h : Error -> Prog B)
    (g' : B -> Prog C) (h' : Error -> Prog C) :
  avoids f (bind_catch p (λ a, bind_catch (g a) g' h')
                         (λ e, bind_catch (h e) g' h')) ->
  avoids f (bind_catch (bind_catch p g h) g' h').
Proof.
  revert B C g h g' h'.
  induction p as [A a|A e|A X op k IH|A X s k IH|A c line k IH|A q _ k IH
                 |A arr i body _ onThrow IHt k IH|A];
    intros B C g h g' h' Hp; simpl in *; auto.
  - destruct Hp as [Hop Hk]. split; auto.
  - destruct Hp as [Hq Hk]. split; auto.
  - destruct Hp as (Hb & Ht & Hk). repeat split; auto.
Qed.

Lemma startContainer_avoids (f : Event -> bool) (Image : ref) :
  (forall ev, f ev = true -> takes_down ev = true \/ is_pull ev = true
                             \/ ev = Called listImages) ->
  avoids f (startContainer Image).
Proof.
  intros Hf.
  assert (forall X (op : Op X),
            takes_down (Called op) = false -> is_pull (Called op) = false ->
            Called op <> Called listImages -> f (Called op) = false) as H.
  { intros X op H1 H2 H3. destruct (f (Called op)) eqn:E; [|done].
    destruct (Hf _ E) as [H|[H|H]]; congruence. }
  unfold startContainer, record_started.
  repeat (unfold_bind; simpl;
          match goal with
          | |- True => exact I
          | |- f (Called _) = false =>
              apply H; [reflexivity|reflexivity|discriminate]
          | |- _ /\ _ => split
          | |- forall _, _ => intro
          | |- context [match ?x with _ => _ end] => is_var x; destruct x
          | |- context [if ?b then _ else _] => destruct b
          end).
Qed.

Lemma init_avoids (f : Event -> bool) (imageList : list ref)
    (flag : option bool) :
  (forall ev, f ev = true -> takes_down ev = true \/ is_pull ev = true
                             \/ ev = Called listImages) ->
  avoids f (init imageList flag).
Proof.
  intros Hf. unfold init. unfold_bind.
  induction imageList as [|x l IH]; [done|].
  simpl. split; [|exact IH]. intros nm []. by apply startContainer_avoids.
Qed.

Lemma pullImage_avoids (f : Event -> bool) (Image : ref)
    (flag : option bool) :
  (forall ev, f ev = true -> takes_down ev = true) ->
  avoids f (pullImage Image flag).
Proof.
  intros Hf.
  assert (forall x, avoids f (startContainer x)) as Hs.
  { intros x. apply startContainer_avoids. auto. }
  assert (forall X (op : Op X),
            takes_down (Called op) = false -> f (Called op) = false) as H.
  { intros X op H1. destruct (f (Called op)) eqn:E; [|done].
    apply Hf in E. congruence. }
  unfold pullImage, pull_promise. unfold_bind. cbn -[startContainer].
  split; [by apply H|].
  intros [images|e]; cbn -[startContainer]; [|done]. intros nm.
  destruct (negb _); cbn -[startContainer].
  - intros nm'. split; [by apply H|].
    intros [stream|e]; cbn -[startContainer]; [|done].
    apply print_each_avoids. destruct (ends stream); [|done].
    destruct (Js.truthy flag); [|done].
    by apply avoids_bind_catch.
  - destruct (Js.truthy flag); cbn -[startContainer]; [|done].
    do 2 apply avoids_bind_assoc. by apply avoids_bind_catch.
Qed.

Lemma stopContainer_avoids (f : Event -> bool) (Image : ref)
    (flag : option bool) :
  (forall h, f (Called (container_stop h)) = false) ->
  (forall h, f (Called (container_remove h)) = false
             \/ Js.truthy flag = false) ->
  avoids f (stopContainer Image flag).
Proof.
  intros Hs Hr. unfold stopContainer, record_stopped.
  destruct (Js.truthy flag) eqn:E;
    repeat (unfold_bind; simpl;
            match goal with
            | |- True => exact I
            | |- f (Called (container_stop _)) = false => apply Hs
            | |- f (Called (container_remove ?h)) = false =>
                by destruct (Hr h)
            | |- _ /\ _ => split
            | |- forall _, _ => intro
            | |- context [match ?x with _ => _ end] => is_var x; destruct x
            | |- context [if ?b then _ else _] => destruct b
            end).
Qed.

Lemma stop_avoids (f : Event -> bool) (flag : option bool) :
  (forall h, f (Called (container_stop h)) = false) ->
  (forall h, f (Called (container_remove h)) = false
             \/ default false flag = false) ->
  avoids f (stop flag).
Proof.
  intros Hs Hr. unfold stop, for_of. unfold_bind. cbn -[stopContainer].
  intros a. split; [|done]. intros x. by apply stopContainer_avoids.
Qed.

(** X3.  Whatever the engine and the order of its answers, a run that calls
    only [init], [pullImage] and [startContainer] never asks the engine to
    stop or to remove a container. *)
Theorem startup_never_takes_down (G : Engine) (m : Mem) (e : engine_state G)
    (cmds : list Cmd) (c : Loop G) :
  calls_only startup cmds -> run cmds (boot G m e) = Some c ->
  count takes_down (trace c) = 0.
Proof.
  apply run_avoids; [apply takes_down_marks_calls|].
  intros p [imageList flag|Image flag|Image].
  - apply init_avoids. auto.
  - apply pullImage_avoids. auto.
  - apply startContainer_avoids. auto.
Qed.

(** X3, witness: a batch initialisation and a pull on the reference engine. *)
Lemma startup_never_takes_down_witness :
  let cmds := [ Call (init [0] None); Answer 0; Answer 0; Answer 0;
                Call (pullImage 0 (Some true));
                Answer 0; Answer 0; Answer 0 ] in
  calls_only startup cmds /\
  exists c,
    run cmds (fresh Docker.daemon [nginx] (docker_with ["nginx:latest"] []))
      = Some c /\
    count takes_down (trace c) = 0.
Proof.
  intros cmds. split; [cbn [calls_only]; repeat split; constructor|].
  eexists. split; [vm_compute; reflexivity|].
  apply (startup_never_takes_down Docker.daemon (constructor [nginx])
            (docker_with ["nginx:latest"] []) cmds);
    [cbn [calls_only]; repeat split; constructor|vm_compute; reflexivity].
Defined.

(** X4.  A run that calls only [stop] and [stopContainer] asks the engine
    for nothing but stops and removals: it lists, inspects, pulls, creates
    and starts nothing. *)
Theorem teardown_only_takes_down (G : Engine) (m : Mem) (e : engine_state G)
    (cmds : list Cmd) (c : Loop G) :
  calls_only teardown cmds -> run cmds (boot G m e) = Some c ->
  count brings_up (trace c) = 0.
Proof.
  apply run_avoids; [apply brings_up_marks_calls|].
  intros p [flag|Image flag].
  - apply stop_avoids; auto.
  - apply stopContainer_avoids; auto.
Qed.

(** X4, witness: one running container, stopped and removed. *)
Lemma teardown_only_takes_down_witness :
  let cmds := [ Call (stop (Some true)); Tick; Answer 0; Answer 0; Tick ] in
  let m := {| objects := [image "nginx:latest" (Some "web")];
              arrays := [ [0]; [] ];
              _runningImageList := 0; _stoppingImageList := 1 |} in
  calls_only teardown cmds /\
  exists c,
    run cmds (boot Docker.daemon m
                (docker_with ["nginx:latest"] [("web", "running")]))
      = Some c /\
    count brings_up (trace c) = 0.
Proof.
  intros cmds. split; [cbn [calls_only]; repeat split; constructor|].
  eexists. split; [vm_compute; reflexivity|].
  apply (teardown_only_takes_down Docker.daemon
            {| objects := [image "nginx:latest" (Some "web")];
               arrays := [ [0]; [] ];
               _runningImageList := 0; _stoppingImageList := 1 |}
            (docker_with ["nginx:latest"] [("web", "running")]) cmds);
    [cbn [calls_only]; repeat split; constructor|vm_compute; reflexivity].
Defined.

(** X5.  Only [pullImage] pulls: a run that calls any of the other methods,
    in any order and on any engine, issues no pull. *)
Theorem pull_only_from_pullImage (G : Engine) (m : Mem) (e : engine_state G)
    (cmds : list Cmd) (c : Loop G) :
  calls_only pull_free cmds -> run cmds (boot G m e) = Some c ->
  count is_pull (trace c) = 0.
Proof.
  apply run_avoids; [apply is_pull_marks_calls|].
  intros p [imageList flag|Image|p' [flag|Image flag]].
  - apply init_avoids. auto.
  - apply startContainer_avoids. auto.
  - apply stop_avoids; auto.
  - apply stopContainer_avoids; auto.
Qed.

(** X5, witness: a batch initialisation followed by a teardown. *)
Lemma pull_only_from_pullImage_witness :
  let cmds := [ Call (init [0] None); Answer 0; Answer 0; Answer 0;
                Call (stop None); Tick; Answer 0; Tick ] in
  calls_only pull_free cmds /\
  exists c,
    run cmds (fresh Docker.daemon [nginx] (docker_with ["nginx:latest"] []))
      = Some c /\
    count is_pull (trace c) = 0.
Proof.
  intros cmds. split; [cbn [calls_only]; repeat split; repeat constructor|].
  eexists. split; [vm_compute; reflexivity|].
  apply (pull_only_from_pullImage Docker.daemon (constructor [nginx])
            (docker_with ["nginx:latest"] []) cmds);
    [cbn [calls_only]; repeat split; repeat constructor
    |vm_compute; reflexivity].
Defined.

(** X6.  Containers are removed on request only: a run in which every [stop]
    and [stopContainer] is called with the removal flag omitted or false
    issues no removal, whatever else it calls. *)
Theorem removal_only_on_request (G : Engine) (m : Mem) (e : engine_state G)
    (cmds : list Cmd) (c : Loop G) :
  calls_only keeping cmds -> run cmds (boot G m e) = Some c ->
  count is_remove (trace c) = 0.
Proof.
  apply run_avoids; [apply is_remove_marks_calls|].
  assert (forall ev, is_remove ev = true -> takes_down ev = true) as Hd.
  { intros ev H. unfold takes_down. rewrite H. apply orb_true_r. }
  intros p [p' [imageList flag|Image flag|Image]|flag Hf|Image flag Hf].
  - apply init_avoids. auto.
  - by apply pullImage_avoids.
  - apply startContainer_avoids. auto.
  - apply stop_avoids; auto.
  - apply stopContainer_avoids; auto.
Qed.

(** X6, witness: a start, a stop, a restart and a teardown, no removal asked. *)
Lemma removal_only_on_request_witness :
  let cmds := [ Call (init [0] None); Answer 0; Answer 0; Answer 0;
                Call (stopContainer 0 (Some false)); Answer 0;
                Call (startContainer 0); Answer 0; Answer 0; Answer 0;
                Call (stop None); Tick; Answer 0; Tick ] in
  calls_only keeping cmds /\
  exists c,
    run cmds (fresh Docker.daemon [nginx] (docker_with ["nginx:latest"] []))
      = Some c /\
    count is_remove (trace c) = 0.
Proof.
  intros cmds. split; [cbn [calls_only]; repeat split;
     first [ by apply keeping_stop | by apply keeping_stopContainer
           | apply keeping_startup; constructor ]|].
  eexists. split; [vm_compute; reflexivity|].
  apply (removal_only_on_request Docker.daemon (constructor [nginx])
            (docker_with ["nginx:latest"] []) cmds);
    [cbn [calls_only]; repeat split;
     first [ by apply keeping_stop | by apply keeping_stopContainer
           | apply keeping_startup; constructor ]|vm_compute; reflexivity].
Defined.

(** ** What every reachable memory satisfies *)

Section Keep.
Context {G : Engine} (I : Mem -> Prop).

Lemma keeps_bind_catch {A B : Type} (p : Prog A)
    (f : A -> Prog B) (h : Error -> Prog B) (m : Mem) :
  keeps I p m ->
  (forall a m', I m' -> keeps I (f a) m') ->
  (forall e m', I m' -> keeps I (h e) m') ->
  keeps I (bind_catch p f h) m.
Proof.
  revert B f h m.
  induction p as [A a|A e|A X op k IH|A X s k IH|A c line k IH|A q _ k IH
                 |A arr i body _ onThrow IHt k IH|A];
    intros B f h m Hp Hf Hh; simpl in *; auto.
  - destruct Hp as [Hm Hk]. split; auto.
  - destruct Hp as [Hq Hk]. split; auto.
  - destruct Hp as [Hm Hk]. split; [done|]. intros m' Hm'.
    destruct (Hk m' Hm') as (Hb & Ht & Hk'). repeat split; auto.
Qed.

Lemma keeps_bind_assoc {A B C : Type} (p : Prog A)
    (f : A -> Prog B) (h : Error -> Prog B)
    (f' : B -> Prog C) (h' : Error -> Prog C) (m : Mem) :
  keeps I (bind_catch p (λ a, bind_catch (f a) f' h')
                        (λ e, bind_catch (h e) f' h')) m ->
  keeps I (bind_catch (bind_catch p f h) f' h') m.
Proof.
  revert B C f h f' h' m.
  induction p as [A a|A e|A X op k IH|A X s k IH|A c line k IH|A q _ k IH
                 |A arr i body _ onThrow IHt k IH|A];
    intros B C f h f' h' m Hp; simpl in *; auto.
  - destruct Hp as [Hm Hk]. split; auto.
  - destruct Hp as [Hq Hk]. split; auto.
  - destruct Hp as [Hm Hk]. split; [done|]. intros m' Hm'.
    destruct (Hk m' Hm') as (Hb & Ht & Hk'). repeat split; auto.
Qed.

Lemma stable_advance (p : Prog unit) (w : Awaiter) (c : Loop G) :
  keeps I p (memory c) ->
  Forall (λ t, forall m, I m -> keeps I (code t) m) (ready c) ->
  Forall (λ rq, forall r m, I m -> keeps I (resume rq r) m) (waiting c) ->
  stable I (advance p w c).
Proof.
  revert p w c. fix IH 1. intros p w c Hp Hr Hw.
  destruct p as [a|e|X op k|X s k|co line k|q k|arr i body onThrow k|];
    simpl in *.
  - by destruct w as [n|]; repeat split.
  - by destruct w as [n|]; repeat split.
  - destruct Hp as [Hm Hk]. repeat split; simpl; auto.
    apply Forall_app. split; [done|]. by apply Forall_singleton.
  - destruct (s (memory c)) as [x m] eqn:E. simpl in Hp. by apply IH.
  - by apply IH.
  - destruct Hp as [Hq Hk].
    destruct (IH q Dropped c Hq Hr Hw) as (Hm1 & Hr1 & Hw1).
    apply IH; auto.
  - destruct Hp as [Hm Hk]. repeat split; simpl; auto.
    apply Forall_app. split; [done|]. apply Forall_singleton.
    intros m Hm'. simpl. split; [done|]. exact Hk.
  - by repeat split.
Qed.

Lemma stable_tick (c : Loop G) : stable I c -> stable I (tick c).
Proof.
  intros (Hm & Hr & Hw). unfold tick.
  destruct (ready c) as [|t rest] eqn:E; [by repeat split; rewrite ?E|].
  apply Forall_cons in Hr as [Hcode Hrest].
  specialize (Hcode (memory c) Hm).
  destruct (code t) as [a|e|X op k|X s k|co line k|q k|arr i body onThrow k|]
    eqn:Ec; try (by apply stable_advance).
  apply stable_advance; [|done|done]. unfold loop_turn. simpl.
  simpl in Hcode. destruct Hcode as [_ Hk].
  destruct (Hk (memory c) Hm) as (Hb & Ht & Hk').
  destruct (array (memory c) arr !! i) as [x|]; [|done].
  apply keeps_bind_catch; [done| |].
  - intros _ m' Hm'. simpl. split; [done|]. exact Hk.
  - intros e m' Hm'. by destruct (Hk m' Hm') as (_ & Ht' & _).
Qed.

Lemma stable_deliver (n : nat) (c : Loop G) :
  stable I c -> stable I (deliver n c).
Proof.
  intros (Hm & Hr & Hw). unfold deliver.
  destruct (waiting c !! n) as [rq|] eqn:E; [|done].
  destruct (respond G (answer rq) (request rq) (engine c)) as [r e].
  apply stable_advance; simpl; [|done|by apply Forall_delete].
  eapply Forall_lookup_1 in Hw; [|done]. by apply Hw.
Qed.

Lemma stable_invoke (p : Prog unit) (c : Loop G) :
  (forall m, I m -> keeps I p m) -> stable I c -> stable I (invoke p c).
Proof.
  intros Hp (Hm & Hr & Hw). apply stable_advance; simpl; auto.
Qed.

Lemma stable_run (cmds : list Cmd) (c c' : Loop G) :
  (forall p, method p -> forall m, I m -> keeps I p m) ->
  calls_methods cmds -> stable I c -> run cmds c = Some c' -> stable I c'.
Proof.
  intros HI. revert c.
  induction cmds as [|cmd cmds IH]; intros c Hcmds Hc Hrun; simpl in *.
  - by injection Hrun as <-.
  - destruct (step cmd c) as [c1|] eqn:Es; [|done].
    apply (IH c1); [by destruct cmd; try apply Hcmds| |done].
    unfold step in Es. destruct cmd as [p| |n], (ready c) eqn:Er; try done.
    + injection Es as <-. apply stable_invoke; [|done].
      apply HI, Hcmds.
    + injection Es as <-. by apply stable_tick.
    + case_bool_decide; [|done]. injection Es as <-. by apply stable_deliver.
Qed.

End Keep.

Ltac bookkeeping lem m x H :=
  let Hs := fresh "Hs" in
  pose proof (lem m x H) as Hs; unfold after_start, after_stop in Hs;
  simpl in Hs; destruct (array_includes _ _ _); simpl; exact Hs.

Lemma startContainer_keeps_sound (Image : ref) (m : Mem) :
  sound m -> keeps sound (startContainer Image) m.
Proof.
  intros Hm. unfold startContainer, record_started. unfold_bind. simpl.
  split; [done|]. intros [containers|e] m1 Hm1; simpl; [|done].
  destruct (negb _); simpl.
  - split; [done|]. intros [c|e] m2 Hm2; simpl; [|done].
    split; [done|]. intros [[]|e] m3 Hm3; simpl; [|done].
    bookkeeping sound_after_start m3 Image Hm3.
  - split; [done|]. intros [ins|e] m2 Hm2; simpl; [|done].
    destruct (negb _); simpl; [|done].
    split; [done|]. intros [[]|e] m3 Hm3; simpl; [|done].
    bookkeeping sound_after_start m3 Image Hm3.
Qed.

Lemma stopContainer_keeps_sound (Image : ref) (flag : option bool) (m : Mem) :
  sound m -> keeps sound (stopContainer Image flag) m.
Proof.
  intros Hm. unfold stopContainer, record_stopped. unfold_bind. simpl.
  split; [done|]. intros [[]|e] m1 Hm1; simpl; [|done].
  pose proof (sound_after_stop m1 Image Hm1) as Hs.
  unfold after_stop in Hs. simpl in Hs.
  destruct (array_includes _ _ _); simpl; destruct (Js.truthy flag); simpl;
    try exact Hs; (split; [exact Hs|]); by intros [[]|e] m2 Hm2.
Qed.

Lemma keeps_bind_method {B : Type} (p : Prog unit) (f : unit -> Prog B)
    (h : Error -> Prog B) (m : Mem) :
  keeps sound p m ->
  (forall m', sound m' -> keeps sound (f tt) m') ->
  (forall e m', sound m' -> keeps sound (h e) m') ->
  keeps sound (bind_catch p f h) m.
Proof.
  intros Hp Hf Hh. apply keeps_bind_catch; [done| |done]. by intros [].
Qed.

Lemma init_keeps_sound (imageList : list ref) (flag : option bool) (m : Mem) :
  sound m -> keeps sound (init imageList flag) m.
Proof.
  unfold init. unfold_bind. revert m.
  induction imageList as [|x l IH]; intros m Hm; [done|].
  cbn -[startContainer]. split; [|by intros m' Hm'; apply IH].
  apply startContainer_keeps_sound. by apply sound_set_containerName.
Qed.

Lemma pullImage_keeps_sound (Image : ref) (flag : option bool) (m : Mem) :
  sound m -> keeps sound (pullImage Image flag) m.
Proof.
  intros Hm. unfold pullImage, pull_promise. unfold_bind.
  cbn -[startContainer].
  split; [done|]. intros [images|e] m1 Hm1; cbn -[startContainer]; [|done].
  destruct (negb _); cbn -[startContainer].
  - split; [done|]. intros [stream|e] m2 Hm2; cbn -[startContainer]; [|done].
    induction (chunks stream) as [|d ds IHd]; cbn -[startContainer];
      [|exact IHd].
    destruct (ends stream); [|done]. destruct (Js.truthy flag); [|done].
    apply keeps_bind_method; [by apply startContainer_keeps_sound|done|done].
  - destruct (Js.truthy flag); cbn -[startContainer]; [|done].
    do 2 apply keeps_bind_assoc.
    apply keeps_bind_method; [by apply startContainer_keeps_sound|done|done].
Qed.

Lemma stop_keeps_sound (flag : option bool) (m : Mem) :
  sound m -> keeps sound (stop flag) m.
Proof.
  intros Hm. unfold stop, for_of. unfold_bind. cbn -[stopContainer].
  split; [done|]. intros m' Hm'. split; [|done]. intros x.
  by apply stopContainer_keeps_sound.
Qed.

(** Whatever the engine and the order of its answers, after any run of
    method calls on a new manager memory is well formed and no description
    is, as an object, in both lists. *)
Lemma reachable_sound (G : Engine) (objs : list DockerImage)
    (e : engine_state G) (cmds : list Cmd) (c : Loop G) :
  calls_methods cmds -> run cmds (fresh G objs e) = Some c ->
  sound (memory c).
Proof.
  intros Hcmds Hrun.
  apply (stable_run sound cmds (fresh G objs e) c); [|done| |done].
  - intros p [imageList flag|Image flag|Image|flag|Image flag] m Hm.
    + by apply init_keeps_sound.
    + by apply pullImage_keeps_sound.
    + by apply startContainer_keeps_sound.
    + by apply stop_keeps_sound.
    + by apply stopContainer_keeps_sound.
  - split; [apply sound_constructor|]. split; apply Forall_nil_2.
Qed.

(** X7.  Whatever the engine and the order of its answers, after any run of
    method calls on a new manager no description is, as an object, in both
    lists, and the two lists are two different arrays. *)
Theorem no_description_in_both_lists (G : Engine) (objs : list DockerImage)
    (e : engine_state G) (cmds : list Cmd) (c : Loop G) (Image : ref) :
  calls_methods cmds -> run cmds (fresh G objs e) = Some c ->
  _runningImageList (memory c) <> _stoppingImageList (memory c) /\
  (Image ∈ getRunningContainerList (memory c) ->
   Image ∉ getStoppingContainerList (memory c)).
Proof.
  intros Hcmds Hrun.
  destruct (reachable_sound G objs e cmds c Hcmds Hrun) as [(_ & _ & Hne) Hd].
  split; [done|apply Hd].
Qed.

(** X7, witness: a description started, stopped and started again. *)
Lemma no_description_in_both_lists_witness :
  let cmds := [ Call (init [0] None); Answer 0; Answer 0; Answer 0;
                Call (stopContainer 0 None); Answer 0;
                Call (startContainer 0); Answer 0; Answer 0; Answer 0 ] in
  calls_methods cmds /\
  exists c,
    run cmds (fresh Docker.daemon [nginx] (docker_with ["nginx:latest"] []))
      = Some c /\
    _runningImageList (memory c) <> _stoppingImageList (memory c) /\
    (0 ∈ getRunningContainerList (memory c) ->
     0 ∉ getStoppingContainerList (memory c)).
Proof.
  intros cmds. split; [cbn [calls_methods]; repeat split; constructor|].
  eexists. split; [vm_compute; reflexivity|].
  apply (no_description_in_both_lists Docker.daemon [nginx]
           (docker_with ["nginx:latest"] []) cmds);
    [cbn [calls_methods]; repeat split; constructor|vm_compute; reflexivity].
Defined.

Lemma stable_run_only {G : Engine} (I : Mem -> Prop)
    (P : Prog unit -> Prop) (cmds : list Cmd) (c c' : Loop G) :
  (forall p, P p -> forall m, I m -> keeps I p m) ->
  calls_only P cmds -> stable I c -> run cmds c = Some c' -> stable I c'.
Proof.
  intros HI. revert c.
  induction cmds as [|cmd cmds IH]; intros c Hcmds Hc Hrun; simpl in *.
  - by injection Hrun as <-.
  - destruct (step cmd c) as [c1|] eqn:Es; [|done].
    apply (IH c1); [by destruct cmd; try apply Hcmds| |done].
    unfold step in Es. destruct cmd as [p| |n], (ready c) eqn:Er; try done.
    + injection Es as <-. apply stable_invoke; [|done].
      apply HI, Hcmds.
    + injection Es as <-. by apply stable_tick.
    + case_bool_decide; [|done]. injection Es as <-. by apply stable_deliver.
Qed.

(** The methods keep whatever the bookkeeping keeps. *)
Section KeepObjects.
Context (I : Mem -> Prop).
Hypothesis I_push : forall a x m, I m -> I (array_push a x m).
Hypothesis I_alloc : forall l m, I m -> I (alloc_array l m).2.
Hypothesis I_running : forall a m, I m -> I (set_runningImageList a m).
Hypothesis I_stopping : forall a m, I m -> I (set_stoppingImageList a m).

Lemma startContainer_keeps (Image : ref) (m : Mem) :
  I m -> keeps I (startContainer Image) m.
Proof.
  intros Hm. unfold startContainer, record_started. unfold_bind. simpl.
  split; [done|]. intros [containers|e] m1 Hm1; simpl; [|done].
  destruct (negb _); simpl.
  - split; [done|]. intros [c|e] m2 Hm2; simpl; [|done].
    split; [done|]. intros [[]|e] m3 Hm3; simpl; [|done].
    destruct (array_includes _ _ _); simpl; auto.
    apply I_stopping. apply (I_alloc _ (array_push _ _ _)). auto.
  - split; [done|]. intros [ins|e] m2 Hm2; simpl; [|done].
    destruct (negb _); simpl; [|done].
    split; [done|]. intros [[]|e] m3 Hm3; simpl; [|done].
    destruct (array_includes _ _ _); simpl; auto.
    apply I_stopping. apply (I_alloc _ (array_push _ _ _)). auto.
Qed.

Lemma stopContainer_keeps (Image : ref) (flag : option bool) (m : Mem) :
  I m -> keeps I (stopContainer Image flag) m.
Proof.
  intros Hm. unfold stopContainer, record_stopped. unfold_bind. simpl.
  split; [done|]. intros [[]|e] m1 Hm1; simpl; [|done].
  assert (I (array_push (_stoppingImageList m1) Image m1)) as Hp by auto.
  destruct (array_includes _ _ _); simpl; destruct (Js.truthy flag); simpl.
  - split; [|by intros [[]|e] m2 Hm2].
    apply I_running. by apply (I_alloc _ (array_push _ _ _)).
  - apply I_running. by apply (I_alloc _ (array_push _ _ _)).
  - split; [done|]. by intros [[]|e] m2 Hm2.
  - done.
Qed.

Lemma pullImage_keeps (Image : ref) (flag : option bool) (m : Mem) :
  I m -> keeps I (pullImage Image flag) m.
Proof.
  intros Hm. unfold pullImage, pull_promise. unfold_bind.
  cbn -[startContainer].
  split; [done|]. intros [images|e] m1 Hm1; cbn -[startContainer]; [|done].
  destruct (negb _); cbn -[startContainer].
  - split; [done|]. intros [stream|e] m2 Hm2; cbn -[startContainer]; [|done].
    induction (chunks stream) as [|d ds IHd]; cbn -[startContainer];
      [|exact IHd].
    destruct (ends stream); [|done]. destruct (Js.truthy flag); [|done].
    apply keeps_bind_catch; [by apply startContainer_keeps|done|done].
  - destruct (Js.truthy flag); cbn -[startContainer]; [|done].
    do 2 apply keeps_bind_assoc.
    apply keeps_bind_catch; [by apply startContainer_keeps|done|done].
Qed.

Lemma stop_keeps (flag : option bool) (m : Mem) :
  I m -> keeps I (stop flag) m.
Proof.
  intros Hm. unfold stop, for_of. unfold_bind. cbn -[stopContainer].
  split; [done|]. intros m' Hm'. split; [|done]. intros x.
  by apply stopContainer_keeps.
Qed.

Lemma init_keeps (imageList : list ref) (flag : option bool) (m : Mem) :
  (forall x v m, I m -> I (set_containerName x v m)) ->
  I m -> keeps I (init imageList flag) m.
Proof.
  intros Hset. unfold init. unfold_bind. revert m.
  induction imageList as [|x l IH]; intros m Hm; [done|].
  cbn -[startContainer]. split; [|by intros m' Hm'; apply IH].
  apply startContainer_keeps. by apply Hset.
Qed.

End KeepObjects.

(** X8.  Only [init] writes to a description: after any run of the other
    methods, on any engine, the objects the caller built are as the caller
    built them. *)
Theorem descriptions_untouched_without_init (G : Engine)
    (objs : list DockerImage) (e : engine_state G) (cmds : list Cmd)
    (c : Loop G) :
  calls_only init_free cmds -> run cmds (fresh G objs e) = Some c ->
  objects (memory c) = objs.
Proof.
  intros Hcmds Hrun.
  apply (stable_run_only (λ m, objects m = objs) init_free cmds
           (fresh G objs e) c); [|done| |done].
  - intros p [Image flag|Image|p' [flag|Image flag]] m Hm.
    + by apply pullImage_keeps.
    + by apply startContainer_keeps.
    + by apply stop_keeps.
    + by apply stopContainer_keeps.
  - split; [done|]. split; apply Forall_nil_2.
Qed.

(** X8, witness: a pull with start, then a teardown with removal. *)
Lemma descriptions_untouched_witness :
  let cmds := [ Call (pullImage 0 (Some true));
                Answer 0; Answer 0; Answer 0; Answer 0; Answer 0;
                Call (stop (Some true)); Tick; Answer 0; Answer 0; Tick ] in
  let objs := [image "nginx:latest" (Some "web")] in
  calls_only init_free cmds /\
  exists c,
    run cmds (fresh Docker.daemon objs Docker.empty) = Some c /\
    objects (memory c) = objs.
Proof.
  intros cmds objs.
  split; [cbn [calls_only]; repeat split; repeat constructor|].
  eexists. split; [vm_compute; reflexivity|].
  apply (descriptions_untouched_without_init Docker.daemon objs
           Docker.empty cmds);
    [cbn [calls_only]; repeat split; repeat constructor
    |vm_compute; reflexivity].
Defined.

(** X9.  The image and the options of a description are never written:
    after any run of method calls, on any engine, every description has the
    image name and the options the caller gave it, and no object was added
    or lost. *)
Theorem images_and_options_never_change (G : Engine)
    (objs : list DockerImage) (e : engine_state G) (cmds : list Cmd)
    (c : Loop G) (Image : ref) :
  calls_methods cmds -> run cmds (fresh G objs e) = Some c ->
  length (objects (memory c)) = length objs /\
  name (deref (memory c) Image) = name (deref (constructor objs) Image) /\
  options (deref (memory c) Image) = options (deref (constructor objs) Image).
Proof.
  intros Hcmds Hrun.
  assert (stable (same_images objs) c) as [[Hlen Hd] _].
  { apply (stable_run (same_images objs) cmds (fresh G objs e) c);
      [|done| |done].
    - intros p [imageList flag|Image' flag|Image'|flag|Image' flag] m Hm.
      + apply init_keeps; try done.
        intros. by apply same_images_set_containerName.
      + by apply pullImage_keeps.
      + by apply startContainer_keeps.
      + by apply stop_keeps.
      + by apply stopContainer_keeps.
    - split; [|split; apply Forall_nil_2]. by split. }
  split; [done|]. apply Hd.
Qed.

(** X9, witness: a batch initialisation, then a teardown with removal. *)
Lemma images_and_options_witness :
  let cmds := [ Call (init [0] None); Answer 0; Answer 0; Answer 0;
                Call (stop (Some true)); Tick; Answer 0; Answer 0; Tick ] in
  let objs := [image "nginx:latest" (Some "web")] in
  calls_methods cmds /\
  exists c,
    run cmds (fresh Docker.daemon objs (docker_with ["nginx:latest"] []))
      = Some c /\
    length (objects (memory c)) = length objs /\
    name (deref (memory c) 0) = name (deref (constructor objs) 0) /\
    options (deref (memory c) 0) = options (deref (constructor objs) 0).
Proof.
  intros cmds objs.
  split; [cbn [calls_methods]; repeat split; constructor|].
  eexists. split; [vm_compute; reflexivity|].
  apply (images_and_options_never_change Docker.daemon objs
           (docker_with ["nginx:latest"] []) cmds);
    [cbn [calls_methods]; repeat split; constructor|vm_compute; reflexivity].
Defined.

(** ** Batch initialisation *)

(** [init] passes its flag to [startContainer], which ignores it. *)
Lemma init_flag_is_dropped (imageList : list ref) (a b : option bool) :
  init imageList a = init imageList b.
Proof. reflexivity. Qed.

(** The promise of [init] is resolved as soon as the call returns, before
    the engine has answered anything, whatever the engine and the batch. *)
Lemma init_resolves_at_once (G : Engine) (imageList : list ref)
    (IsStartContainer : option bool) (c : Loop G) :
  promises (invoke (init imageList IsStartContainer) c) !! length (promises c)
  = Some (Some Resolved).
Proof.
  unfold invoke, init, try_catch.
  set (w := Held (length (promises c))).
  assert (forall c' : Loop G, length (promises c) < length (promises c') ->
    promises (advance (bind_catch (forEach imageList (λ Image,
       fork (nm ← read (λ m, name (deref m Image));
             write (set_containerName Image (_formatContainerName nm));;
             startContainer Image))) Ret
       (λ error, print console_error ["Error initializing images:"; error];;
                 Throw error)) w c') !! length (promises c)
    = Some (Some Resolved)) as H.
  { induction imageList as [|x l IH]; intros c' Hlen.
    - simpl. by apply list_lookup_insert_eq.
    - simpl. apply IH. simpl. done. }
  apply H. simpl. rewrite length_app. simpl. lia.
Qed.

(** Whatever the engine, the batch and the order of the answers, a run that
    only calls [init] issues no pull. *)
Lemma init_never_pulls (G : Engine) (m : Mem) (e : engine_state G)
    (imageList : list ref) (IsStartContainer : option bool)
    (rest : list Cmd) (c : Loop G) :
  calls_avoid is_pull rest ->
  run (Call (init imageList IsStartContainer) :: rest) (boot G m e) = Some c ->
  count is_pull (trace c) = 0.
Proof.
  intros Hrest Hrun.
  assert (calls_avoid is_pull (Call (init imageList IsStartContainer) :: rest))
    as Hall by (split; [apply init_avoids_pull|done]).
  exact (proj1 (clean_run is_pull is_pull_marks_calls _ _ _ Hall
                  (clean_boot is_pull m e) Hrun)).
Qed.

(** C1.  A run that only calls [init] issues no pull, whatever the engine,
    the batch and the order of the answers.  So
    [init([{ name: 'nginx:latest' }])] on an engine without the image and
    without the container issues none: the one [createContainer] is refused
    for the missing image, no [start] follows and nothing is listed as
    running; the refusal ends as the rejection of a promise nobody holds. *)
Theorem init_starts_without_pull :
  (forall (G : Engine) (m : Mem) (e : engine_state G) (imageList : list ref)
          (IsStartContainer : option bool) (rest : list Cmd) (c : Loop G),
     calls_avoid is_pull rest ->
     run (Call (init imageList IsStartContainer) :: rest) (boot G m e)
       = Some c ->
     count is_pull (trace c) = 0) /\
  let c := call_and_wait 3 (init [0] None)
             (fresh Docker.daemon [nginx] Docker.empty) in
  quiescent c /\
  count is_pull (trace c) = 0 /\
  count is_create (trace c) = 1 /\
  count is_start (trace c) = 0 /\
  getRunningContainerList (memory c) = [] /\
  containerName (deref (memory c) 0) = Some "nginx-latest-container" /\
  last (trace c) = Some (Unhandled "no such image").
Proof.
  split.
  - intros G m e imageList IsStartContainer rest c.
    apply init_never_pulls.
  - vm_compute. repeat split.
Qed.

(** With the image at hand the same call creates and starts the container
    and lists the description as running, still without a pull. *)
Example init_with_image_at_hand :
  let c := call_and_wait 3 (init [0] None)
             (fresh Docker.daemon [nginx] (docker_with ["nginx:latest"] [])) in
  quiescent c /\
  count is_pull (trace c) = 0 /\
  count is_create (trace c) = 1 /\
  count is_start (trace c) = 1 /\
  getRunningContainerList (memory c) = [0] /\
  containerName (deref (memory c) 0) = Some "nginx-latest-container".
Proof. vm_compute. repeat split. Qed.

(** C2.  [init] builds the same program whatever its flag.  So
    [init(imageList, false)] on an engine with the image and without the
    container creates the container, starts it and lists the description as
    running, as it does with the flag left out. *)
Theorem init_without_start_flag_starts :
  (forall (imageList : list ref) (flag : option bool),
     init imageList flag = init imageList (Some false)) /\
  let c := call_and_wait 3 (init [0] (Some false))
             (fresh Docker.daemon [nginx] (docker_with ["nginx:latest"] [])) in
  quiescent c /\
  count is_create (trace c) = 1 /\
  count is_start (trace c) = 1 /\
  getRunningContainerList (memory c) = [0] /\
  Docker.containers (engine c) =
    [ {| Docker.c_name := "nginx-latest-container";
         Docker.c_image := "nginx:latest";
         Docker.c_status := "running" |} ].
Proof.
  split.
  - intros imageList flag. apply init_flag_is_dropped.
  - vm_compute. repeat split.
Qed.

(** C3.  The promise of [init] is resolved when the call returns, whatever
    the engine and the batch.  So against an engine that fails every call it
    is resolved and stays resolved; the failure of the convergence is
    printed and ends as the rejection of a promise nobody holds. *)
Theorem init_resolves_when_engine_fails :
  (forall (G : Engine) (imageList : list ref) (flag : option bool)
          (c : Loop G),
     promises (invoke (init imageList flag) c) !! length (promises c)
     = Some (Some Resolved)) /\
  let c0 := invoke (init [0] None) (fresh unreachable [nginx] tt) in
  let c := drain 3 c0 in
  promises c0 = [Some Resolved] /\
  quiescent c /\
  promises c = [Some Resolved] /\
  trace c = [ Called (listContainers true);
              Printed console_error
                ["Error starting container:"; "connect ECONNREFUSED"];
              Unhandled "connect ECONNREFUSED" ].
Proof.
  split.
  - intros G imageList flag c. apply init_resolves_at_once.
  - vm_compute. repeat split.
Qed.

(** The memory after the callbacks of [init] have run for the list [l]. *)
Lemma named_all (l : list ref) (m : Mem) :
  allocated m l ->
  let m' := foldl (λ m x, set_containerName x
                            (_formatContainerName (name (deref m x))) m) m l in
  length (objects m') = length (objects m) /\
  arrays m' = arrays m /\
  _runningImageList m' = _runningImageList m /\
  _stoppingImageList m' = _stoppingImageList m /\
  forall y, deref m' y = if bool_decide (y ∈ l)
                         then named_by_init (deref m y)
                         else deref m y.
Proof.
  revert m. induction l as [|x l IH]; intros m Hl; cbv zeta.
  - simpl. by repeat split.
  - apply Forall_cons in Hl as [Hx Hl]. cbn [foldl].
    set (m1 := set_containerName x _ m).
    assert (allocated m1 l) as Hl1.
    { unfold allocated, m1. simpl. by rewrite length_insert. }
    destruct (IH m1 Hl1) as (Hlen & Ha & Hr & Hs & Hd).
    split; [rewrite Hlen; unfold m1; simpl; by rewrite length_insert|].
    repeat split; try done.
    intros y. rewrite Hd. unfold m1.
    rewrite deref_set_containerName by done.
    destruct (decide (y = x)) as [->|Hne].
    + rewrite (bool_decide_eq_true_2 (x = x)) by done.
      rewrite (bool_decide_eq_true_2 (x ∈ x :: l)) by apply list_elem_of_here.
      by destruct (bool_decide (x ∈ l)).
    + rewrite (bool_decide_eq_false_2 (y = x)) by done.
      destruct (decide (y ∈ l)) as [Hy|Hy].
      * rewrite !bool_decide_eq_true_2; [done| |done].
        by apply list_elem_of_further.
      * rewrite !bool_decide_eq_false_2; [done| |done].
        intros H. apply elem_of_cons in H as [H|H]; done.
Qed.

Lemma init_advance {G : Engine} (l : list ref) (w : Awaiter)
    (h : Error -> Prog unit) (c : Loop G) :
  let c' :=
    advance (bind_catch
               (forEach l (λ Image,
                  fork (nm ← read (λ m, name (deref m Image));
                        write (set_containerName Image
                                 (_formatContainerName nm));;
                        startContainer Image))) Ret h) w c in
  exists c1 : Loop G,
    c' = settle w Resolved c1 /\
    memory c1 =
      foldl (λ m x, set_containerName x
                      (_formatContainerName (name (deref m x))) m)
            (memory c) l /\
    engine c1 = engine c /\
    ready c1 = ready c /\
    map owner (waiting c1) = map owner (waiting c) ++ map (λ _, Dropped) l /\
    trace c1 = trace c ++ map (λ _, Called (listContainers true)) l /\
    promises c1 = promises c.
Proof.
  revert c. induction l as [|x l IH]; intros c; cbv zeta.
  - exists c. simpl. rewrite !app_nil_r. by repeat split.
  - unfold_bind. cbn -[_formatContainerName]. unfold_bind.
    match goal with
    | |- context [advance _ w ?c0] =>
        destruct (IH c0) as (c1 & E & Hm & He & Hr & Hw & Ht & Hp)
    end.
    exists c1. split; [exact E|]. simpl in *.
    rewrite Hm, He, Hr, Hw, Ht, Hp, !map_app, <- !app_assoc. by repeat split.
Qed.

Lemma init_invoke {G : Engine} (imageList : list ref) (flag : option bool)
    (c : Loop G) :
  exists c1 : Loop G,
    invoke (init imageList flag) c
      = with_promises (promises c ++ [Some Resolved]) c1 /\
    memory c1 =
      foldl (λ m x, set_containerName x
                      (_formatContainerName (name (deref m x))) m)
            (memory c) imageList /\
    engine c1 = engine c /\
    ready c1 = ready c /\
    map owner (waiting c1)
      = map owner (waiting c) ++ map (λ _, Dropped) imageList /\
    trace c1
      = trace c ++ map (λ _, Called (listContainers true)) imageList.
Proof.
  unfold invoke, init, try_catch.
  destruct (init_advance imageList (Held (length (promises c)))
              (λ error, print console_error
                          ["Error initializing images:"; error];;
                        Throw error)
              (with_promises (promises c ++ [None]) c))
    as (c1 & E & Hm & He & Hr & Hw & Ht & Hp).
  simpl in *. exists c1. split; [|done].
  rewrite E. simpl. by rewrite Hp, insert_last.
Qed.

(** X10.  When [init] returns, every description of the batch carries the
    container name derived from its image, whether or not it had one, and its
    image and options are as they were; the other objects and the two lists
    are untouched. *)
Theorem init_names_every_description (G : Engine) (imageList : list ref)
    (flag : option bool) (c : Loop G) :
  allocated (memory c) imageList ->
  let m' := memory (invoke (init imageList flag) c) in
  (forall Image, Image ∈ imageList ->
     deref m' Image = named_by_init (deref (memory c) Image)) /\
  (forall Image, Image ∉ imageList ->
     deref m' Image = deref (memory c) Image) /\
  getRunningContainerList m' = getRunningContainerList (memory c) /\
  getStoppingContainerList m' = getStoppingContainerList (memory c).
Proof.
  intros Hl.
  destruct (init_invoke imageList flag c) as (c1 & E & Hm & _).
  destruct (named_all imageList (memory c) Hl) as (_ & Ha & Hr & Hs & Hd).
  cbv zeta. rewrite E. simpl. rewrite Hm.
  unfold getRunningContainerList, getStoppingContainerList, array.
  rewrite Ha, Hr, Hs.
  repeat split; intros Image HI; rewrite Hd.
  - by rewrite bool_decide_eq_true_2.
  - by rewrite bool_decide_eq_false_2.
Qed.

(** X10, witness: one description without a container name and one with. *)
Lemma init_names_every_description_witness :
  let c := fresh Docker.daemon
             [ image "nginx:latest" None; image "redis:7" (Some "cache") ]
             Docker.empty in
  let m' := memory (invoke (init [0; 1] None) c) in
  (forall Image, Image ∈ [0; 1] ->
     deref m' Image = named_by_init (deref (memory c) Image)) /\
  (forall Image, Image ∉ [0; 1] ->
     deref m' Image = deref (memory c) Image) /\
  getRunningContainerList m' = getRunningContainerList (memory c) /\
  getStoppingContainerList m' = getStoppingContainerList (memory c).
Proof.
  apply (init_names_every_description Docker.daemon [0; 1] None
           (fresh Docker.daemon
              [ image "nginx:latest" None; image "redis:7" (Some "cache") ]
              Docker.empty)).
  repeat constructor.
Defined.

(** X11.  [init] starts the whole batch at once: when it returns, one
    [listContainers] call per description has been issued, in the order of
    the batch, and nothing else; each is waiting on behalf of a call whose
    promise nobody holds, and the promise of [init] is resolved already. *)
Theorem init_lists_once_per_description (G : Engine) (imageList : list ref)
    (flag : option bool) (c : Loop G) :
  let c' := invoke (init imageList flag) c in
  trace c' = trace c ++ map (λ _, Called (listContainers true)) imageList /\
  map owner (waiting c')
    = map owner (waiting c) ++ map (λ _, Dropped) imageList /\
  ready c' = ready c /\
  engine c' = engine c /\
  promises c' = promises c ++ [Some Resolved].
Proof.
  destruct (init_invoke imageList flag c) as (c1 & E & Hm & He & Hr & Hw & Ht).
  cbv zeta. rewrite E. simpl. by rewrite He, Hr, Hw, Ht.
Qed.

(** ** Starting one container *)

Section StartAnyEngine.
Context {G : Engine}.

Ltac go := cbn -[listed array_includes filter_other_names array_push count].

(** For every engine: when the listing shows the container and the
    inspection says it runs, [startContainer] issues no start, resolves, and
    leaves memory, hence both lists, as they were. *)
Lemma startContainer_running_leaves_lists (c : Loop G) (Image : ref)
    (l : list ContainerInfo) (e1 e2 : engine_state G) :
  let cn := containerName (deref (memory c) Image) in
  quiescent c ->
  respond G _ (listContainers true) (engine c) = (Fulfilled l, e1) ->
  listed cn l = true ->
  respond G _ (container_inspect (getContainer cn)) e1
    = (Fulfilled {| State_Status := "running" |}, e2) ->
  let c' := drain 2 (invoke (startContainer Image) c) in
  quiescent c' /\
  memory c' = memory c /\
  count is_start (trace c') = count is_start (trace c) /\
  promises c' = promises c ++ [Some Resolved].
Proof.
  intros cn [Hr Hw] E1 Hl E2. destruct c as [m e r w t ps]. simpl in *.
  subst r w. unfold startContainer, invoke. unfold_bind.
  go. rewrite E1. go. fold cn. rewrite Hl. go. fold cn. rewrite E2. go.
  rewrite insert_last, !count_app.
  change (count is_start [Called (listContainers true)]) with 0.
  change (count is_start [Called (container_inspect (getContainer cn))])
    with 0.
  match goal with
  | |- context [count is_start [Printed ?s ?line]] =>
      change (count is_start [Printed s line]) with 0
  end.
  repeat split; lia.
Qed.

(** For every engine: when the container is missing and the engine creates
    and starts it, [startContainer] resolves and leaves the memory of the
    bookkeeping. *)
Lemma startContainer_created_is_recorded (c : Loop G) (Image : ref)
    (l : list ContainerInfo) (h : Container) (e1 e2 e3 : engine_state G) :
  let cn := containerName (deref (memory c) Image) in
  quiescent c ->
  respond G _ (listContainers true) (engine c) = (Fulfilled l, e1) ->
  listed cn l = false ->
  respond G _ (createContainer (create_options (deref (memory c) Image))) e1
    = (Fulfilled h, e2) ->
  respond G _ (container_start h) e2 = (Fulfilled tt, e3) ->
  let c' := drain 3 (invoke (startContainer Image) c) in
  quiescent c' /\
  memory c' = after_start Image (memory c) /\
  promises c' = promises c ++ [Some Resolved].
Proof.
  intros cn [Hr Hw] E1 Hl E2 E3. destruct c as [m e r w t ps]. simpl in *.
  subst r w. unfold startContainer, record_started, after_start, invoke.
  unfold_bind.
  go. rewrite E1. go. fold cn. rewrite Hl. go. rewrite E2. go. rewrite E3.
  go. destruct (array_includes _ _ _); go; rewrite insert_last;
    by repeat split.
Qed.

End StartAnyEngine.

(** C5.  For every engine, when the listing shows the container and the
    inspection says it runs, [startContainer] leaves memory as it was.  So on
    a new manager, for a description whose container exists and is inspected
    as running, no [start] is issued and the promise resolves, but the call
    returns before the bookkeeping, and the description is not listed as
    running. *)
Theorem startContainer_running_is_not_recorded :
  (forall (G : Engine) (c : Loop G) (Image : ref) (l : list ContainerInfo)
          (e1 e2 : engine_state G),
     quiescent c ->
     respond G _ (listContainers true) (engine c) = (Fulfilled l, e1) ->
     listed (containerName (deref (memory c) Image)) l = true ->
     respond G _
       (container_inspect
          (getContainer (containerName (deref (memory c) Image)))) e1
       = (Fulfilled {| State_Status := "running" |}, e2) ->
     memory (drain 2 (invoke (startContainer Image) c)) = memory c) /\
  let c := call_and_wait 2 (startContainer 0)
             (fresh Docker.daemon [image "nginx:latest" (Some "web")]
                    (docker_with ["nginx:latest"] [("web", "running")])) in
  quiescent c /\
  promises c = [Some Resolved] /\
  count is_start (trace c) = 0 /\
  getRunningContainerList (memory c) = [] /\
  getStoppingContainerList (memory c) = [].
Proof.
  split.
  - intros G c Image l e1 e2 Hq E1 Hl E2.
    by destruct (startContainer_running_leaves_lists c Image l e1 e2
                   Hq E1 Hl E2) as (_ & Hm & _).
  - vm_compute. repeat split.
Qed.

(** C4.  The bookkeeping of a stop leaves the running list as it was when
    the description passed is not in it as an object, whatever names the
    list holds.  So with two descriptions of the same container name, the
    first started and the second passed to [stopContainer], both calls
    succeed, and the name is then in the running list and in the stopped
    list. *)
Theorem same_name_in_both_lists :
  (forall (m : Mem) (x : ref),
     wf_mem m -> x ∉ getRunningContainerList m ->
     getRunningContainerList (after_stop x m) = getRunningContainerList m) /\
  let c1 := call_and_wait 3 (startContainer 0)
              (fresh Docker.daemon
                     [image "nginx:latest" (Some "web");
                      image "nginx:latest" (Some "web")]
                     (docker_with ["nginx:latest"] [])) in
  let c2 := call_and_wait 1 (stopContainer 1 None) c1 in
  quiescent c2 /\
  promises c2 = [Some Resolved; Some Resolved] /\
  getRunningContainerList (memory c2) = [0] /\
  getStoppingContainerList (memory c2) = [1] /\
  names_of (memory c2) (getRunningContainerList (memory c2)) = [Some "web"] /\
  names_of (memory c2) (getStoppingContainerList (memory c2)) = [Some "web"].
Proof.
  split.
  - intros m x Hwf Hx. rewrite running_after_stop by done.
    by rewrite bool_decide_eq_false_2.
  - vm_compute. repeat split.
Qed.

Section StartPaths.
Context {G : Engine}.

Ltac go :=
  cbn -[listed array_includes filter_other_names array_push count
       last_promise errors calls].

(** X12.  [startContainer] always settles: from an idle loop, whatever the
    engine answers, three answers are enough for the call to be over.  Either
    its promise is resolved, nothing was printed by [console.error], and
    memory is as it was or holds the bookkeeping of a start; or the promise
    is rejected with the error of the engine, that error was printed once
    after ["Error starting container:"], and memory is as it was. *)
Theorem startContainer_settles (c : Loop G) (Image : ref) (fuel : nat) :
  quiescent c -> 3 <= fuel ->
  let c' := call_and_wait fuel (startContainer Image) c in
  quiescent c' /\
  ((last_promise c' = Some Resolved /\
    errors (trace c') = errors (trace c) /\
    (memory c' = memory c \/ memory c' = after_start Image (memory c))) \/
   (exists err,
      last_promise c' = Some (Failed err) /\
      errors (trace c') =
        errors (trace c) ++ [["Error starting container:"; err]] /\
      memory c' = memory c)).
Proof.
  intros [Hr Hw] Hfuel.
  assert (let c' := call_and_wait 3 (startContainer Image) c in
          quiescent c' /\
          ((last_promise c' = Some Resolved /\
            errors (trace c') = errors (trace c) /\
            (memory c' = memory c \/
             memory c' = after_start Image (memory c))) \/
           (exists err,
              last_promise c' = Some (Failed err) /\
              errors (trace c') =
                errors (trace c) ++ [["Error starting container:"; err]] /\
              memory c' = memory c))) as H3.
  { destruct c as [m e r w t ps]. simpl in *. subst r w.
    unfold call_and_wait, startContainer, record_started, invoke.
    unfold_bind.
    repeat (go; rewrite ?insert_last;
            match goal with
            | |- context [respond G ?X ?op ?s] =>
                destruct (respond G X op s) as [[?|?] ?] eqn:?
            | |- context [if negb ?b then _ else _] => destruct b eqn:?
            | |- context [if array_includes ?a ?b ?c then _ else _] =>
                destruct (array_includes a b c) eqn:Hinc
            end).
    all: go; rewrite ?insert_last, ?last_promise_invoked, ?errors_app.
    all: split; [by split|].
    all: try (simpl in Hinc; unfold after_start; simpl; rewrite Hinc).
    all: simpl; rewrite ?app_nil_r.
    all: try (left; repeat split; auto; fail).
    all: right; eexists; repeat split. }
  cbv zeta in *. unfold call_and_wait in *.
  by rewrite (drain_more 3 fuel _ (proj1 H3) Hfuel).
Qed.

(** A call that gets to start a container, on either path: the trace it
    leaves and the memory of the bookkeeping. *)
Lemma startContainer_started (c : Loop G) (Image : ref)
    (l : list ContainerInfo) (e1 : engine_state G) :
  let cn := containerName (deref (memory c) Image) in
  quiescent c ->
  respond G _ (listContainers true) (engine c) = (Fulfilled l, e1) ->
  let c' := call_and_wait 3 (startContainer Image) c in
  (listed cn l = false ->
   forall (h : Container) (e2 e3 : engine_state G),
     respond G _ (createContainer (create_options (deref (memory c) Image))) e1
       = (Fulfilled h, e2) ->
     respond G _ (container_start h) e2 = (Fulfilled tt, e3) ->
     c' = {| memory := after_start Image (memory c);
             engine := e3; ready := []; waiting := [];
             trace := trace c ++
               [ Called (listContainers true);
                 Called (createContainer
                           (create_options (deref (memory c) Image)));
                 Called (container_start h);
                 Printed console_log
                   [("Container " ++ Js.template cn ++ " started")%string] ];
             promises := promises c ++ [Some Resolved] |}) /\
  (listed cn l = true ->
   forall (inspect : ContainerInspectInfo) (e2 e3 : engine_state G),
     respond G _ (container_inspect (getContainer cn)) e1
       = (Fulfilled inspect, e2) ->
     String.eqb (State_Status inspect) "running" = false ->
     respond G _ (container_start (getContainer cn)) e2 = (Fulfilled tt, e3) ->
     c' = {| memory := after_start Image (memory c);
             engine := e3; ready := []; waiting := [];
             trace := trace c ++
               [ Called (listContainers true);
                 Called (container_inspect (getContainer cn));
                 Called (container_start (getContainer cn));
                 Printed console_log
                   [("Container " ++ Js.template cn ++ " started")%string] ];
             promises := promises c ++ [Some Resolved] |}).
Proof.
  intros cn [Hr Hw] E1. destruct c as [m e r w t ps]. simpl in *. subst r w.
  split.
  - intros Hl h e2 e3 E2 E3.
    unfold call_and_wait, startContainer, record_started, after_start, invoke.
    unfold_bind.
    go. rewrite E1. go. fold cn. rewrite Hl. go. rewrite E2. go. rewrite E3.
    go. fold cn.
    destruct (array_includes _ _ _); go; rewrite insert_last, <- !app_assoc;
      reflexivity.
  - intros Hl inspect e2 e3 E2 Hs E3.
    unfold call_and_wait, startContainer, record_started, after_start, invoke.
    unfold_bind.
    go. rewrite E1. go. fold cn. rewrite Hl. go. fold cn. rewrite E2. go.
    rewrite Hs. go. fold cn. rewrite E3. go. fold cn.
    destruct (array_includes _ _ _); go; rewrite insert_last, <- !app_assoc;
      reflexivity.
Qed.

(** X13.  When no container of the name is listed and the engine grants the
    creation and the start, [startContainer] issues exactly a listing, a
    creation from the image, the container name and the options of the
    description, and a start of the container the creation returned; it
    resolves, appends the description to the running list, and leaves it out
    of the stopped list. *)
Theorem startContainer_creates_then_starts (c : Loop G) (Image : ref)
    (l : list ContainerInfo) (h : Container) (e1 e2 e3 : engine_state G)
    (fuel : nat) :
  let D := deref (memory c) Image in
  quiescent c -> wf_mem (memory c) -> 3 <= fuel ->
  respond G _ (listContainers true) (engine c) = (Fulfilled l, e1) ->
  listed (containerName D) l = false ->
  respond G _ (createContainer (create_options D)) e1 = (Fulfilled h, e2) ->
  respond G _ (container_start h) e2 = (Fulfilled tt, e3) ->
  let c' := call_and_wait fuel (startContainer Image) c in
  quiescent c' /\
  last_promise c' = Some Resolved /\
  engine c' = e3 /\
  calls (trace c') = calls (trace c) ++
    [ Called (listContainers true);
      Called (createContainer
                {| cc_Image := name D;
                   cc_name := containerName D;
                   cc_HostConfig := o ← options D; HostConfig o;
                   cc_Env := o ← options D; Env o;
                   cc_Volumes := o ← options D; Volumes o;
                   cc_ExposedPorts := o ← options D; ExposedPorts o |});
      Called (container_start h) ] /\
  getRunningContainerList (memory c') =
    getRunningContainerList (memory c) ++ [Image] /\
  Image ∉ getStoppingContainerList (memory c').
Proof.
  intros D Hq Hwf Hfuel E1 Hl E2 E3.
  destruct (startContainer_started c Image l e1 Hq E1) as [H _].
  specialize (H Hl h e2 e3 E2 E3).
  cbv zeta. unfold call_and_wait in *.
  rewrite (drain_more 3 fuel) by (by rewrite ?H).
  rewrite H. simpl. rewrite last_promise_invoked, calls_app.
  rewrite running_after_start by done.
  repeat split; try done. by apply after_start_lists.
Qed.

(** X14.  When a container of the name is listed and inspected as not
    running, and the engine grants the start, [startContainer] creates
    nothing: it issues a listing, an inspection and a start of the container
    of that name.  It resolves and appends the description to the running
    list; if the description was in the stopped list, every description with
    its container name leaves that list, and otherwise the stopped list is
    as it was. *)
Theorem startContainer_restarts_existing (c : Loop G) (Image : ref)
    (l : list ContainerInfo) (inspect : ContainerInspectInfo)
    (e1 e2 e3 : engine_state G) (fuel : nat) :
  let cn := containerName (deref (memory c) Image) in
  quiescent c -> wf_mem (memory c) -> 3 <= fuel ->
  respond G _ (listContainers true) (engine c) = (Fulfilled l, e1) ->
  listed cn l = true ->
  respond G _ (container_inspect (getContainer cn)) e1
    = (Fulfilled inspect, e2) ->
  State_Status inspect <> "running" ->
  respond G _ (container_start (getContainer cn)) e2 = (Fulfilled tt, e3) ->
  let c' := call_and_wait fuel (startContainer Image) c in
  quiescent c' /\
  last_promise c' = Some Resolved /\
  calls (trace c') = calls (trace c) ++
    [ Called (listContainers true);
      Called (container_inspect (getContainer cn));
      Called (container_start (getContainer cn)) ] /\
  getRunningContainerList (memory c') =
    getRunningContainerList (memory c) ++ [Image] /\
  getStoppingContainerList (memory c') =
    (if bool_decide (Image ∈ getStoppingContainerList (memory c))
     then filter_other_names (memory c)
            (getStoppingContainerList (memory c)) Image
     else getStoppingContainerList (memory c)).
Proof.
  intros cn Hq Hwf Hfuel E1 Hl E2 Hs E3.
  destruct (startContainer_started c Image l e1 Hq E1) as [_ H].
  apply String.eqb_neq in Hs.
  specialize (H Hl inspect e2 e3 E2 Hs E3).
  cbv zeta. unfold call_and_wait in *.
  rewrite (drain_more 3 fuel) by (by rewrite ?H).
  rewrite H. simpl. rewrite last_promise_invoked, calls_app.
  rewrite running_after_start, stopping_after_start by done.
  by repeat split.
Qed.

End StartPaths.

(** X12, witness: a new manager facing an engine that holds nothing. *)
Lemma startContainer_settles_witness :
  let c := fresh Docker.daemon [nginx] Docker.empty in
  let c' := call_and_wait 3 (startContainer 0) c in
  quiescent c' /\
  ((last_promise c' = Some Resolved /\
    errors (trace c') = errors (trace c) /\
    (memory c' = memory c \/ memory c' = after_start 0 (memory c))) \/
   (exists err,
      last_promise c' = Some (Failed err) /\
      errors (trace c') =
        errors (trace c) ++ [["Error starting container:"; err]] /\
      memory c' = memory c)).
Proof.
  apply (@startContainer_settles Docker.daemon
           (fresh Docker.daemon [nginx] Docker.empty) 0 3); [by split|lia].
Defined.

(** X13, witness: the reference engine with the image and no container. *)
Lemma startContainer_creates_then_starts_witness :
  let D := image "nginx:latest" (Some "web") in
  let d := docker_with ["nginx:latest"] [] in
  let h := getContainer (Some "web") in
  let c := fresh Docker.daemon [D] d in
  let c' := call_and_wait 3 (startContainer 0) c in
  quiescent c' /\
  last_promise c' = Some Resolved /\
  engine c' =
    {| Docker.images := Docker.images d;
       Docker.containers :=
         [ {| Docker.c_name := "web"; Docker.c_image := "nginx:latest";
              Docker.c_status := "running" |} ] |} /\
  calls (trace c') =
    [ Called (listContainers true);
      Called (createContainer
                {| cc_Image := "nginx:latest"; cc_name := Some "web";
                   cc_HostConfig := None; cc_Env := None;
                   cc_Volumes := None; cc_ExposedPorts := None |});
      Called (container_start h) ] /\
  getRunningContainerList (memory c') = [0] /\
  0 ∉ getStoppingContainerList (memory c').
Proof.
  apply (@startContainer_creates_then_starts Docker.daemon
           (fresh Docker.daemon [image "nginx:latest" (Some "web")]
                  (docker_with ["nginx:latest"] []))
           0 [] (getContainer (Some "web"))
           (docker_with ["nginx:latest"] [])
           (Docker.add_container
              {| Docker.c_name := "web"; Docker.c_image := "nginx:latest";
                 Docker.c_status := "created" |}
              (docker_with ["nginx:latest"] []))
           {| Docker.images := Docker.images (docker_with ["nginx:latest"] []);
              Docker.containers :=
                [ {| Docker.c_name := "web"; Docker.c_image := "nginx:latest";
                     Docker.c_status := "running" |} ] |}
           3).
  - by split.
  - unfold wf_mem. simpl. lia.
  - lia.
  - reflexivity.
  - reflexivity.
  - reflexivity.
  - reflexivity.
Defined.

(** X14, witness: an exited container and two stopped descriptions. *)
Lemma startContainer_restarts_existing_witness :
  let m := {| objects := [ image "nginx:latest" (Some "web");
                           image "nginx:1.27" (Some "web") ];
              arrays := [ []; [1; 0] ];
              _runningImageList := 0; _stoppingImageList := 1 |} in
  let d := docker_with ["nginx:latest"] [("web", "exited")] in
  let h := getContainer (Some "web") in
  let c' := call_and_wait 3 (startContainer 0) (boot Docker.daemon m d) in
  quiescent c' /\
  last_promise c' = Some Resolved /\
  calls (trace c') =
    [ Called (listContainers true);
      Called (container_inspect h);
      Called (container_start h) ] /\
  getRunningContainerList (memory c') = [0] /\
  getStoppingContainerList (memory c') = [].
Proof.
  apply (@startContainer_restarts_existing Docker.daemon
           (boot Docker.daemon
              {| objects := [ image "nginx:latest" (Some "web");
                              image "nginx:1.27" (Some "web") ];
                 arrays := [ []; [1; 0] ];
                 _runningImageList := 0; _stoppingImageList := 1 |}
              (docker_with ["nginx:latest"] [("web", "exited")]))
           0 [ {| Names := ["/web"] |} ] {| State_Status := "exited" |}
           (docker_with ["nginx:latest"] [("web", "exited")])
           (docker_with ["nginx:latest"] [("web", "exited")])
           (docker_with ["nginx:latest"] [("web", "running")])
           3).
  - by split.
  - unfold wf_mem. simpl. lia.
  - lia.
  - reflexivity.
  - reflexivity.
  - reflexivity.
  - discriminate.
  - reflexivity.
Defined.

(** ** Two calls in sequence, on the reference engine *)

Section DockerFacts.
Import Docker.

Lemma slash_inj (a b : string) : ("/" ++ a)%string = ("/" ++ b)%string -> a = b.
Proof. intros H. by injection H. Qed.

Lemma listed_listing (nm : string) (d : state) :
  listed (Some nm) (listing true d) = existsb (named nm) (containers d).
Proof.
  unfold listed, listing. simpl.
  induction (containers d) as [|c l IH]; [done|]. simpl. rewrite IH.
  f_equal. unfold Js.includes, named.
  destruct (String.eqb_spec (c_name c) nm) as [->|Hne].
  - apply bool_decide_eq_true. apply list_elem_of_singleton. done.
  - apply bool_decide_eq_false. rewrite list_elem_of_singleton.
    intros [= E]. by symmetry in E.
Qed.

Lemma lookup_find (nm : string) (d : state) :
  lookup (getContainer (Some nm)) d = List.find (named nm) (containers d).
Proof. done. Qed.

Lemma find_none_exists (nm : string) (l : list container) :
  List.find (named nm) l = None -> existsb (named nm) l = false.
Proof.
  induction l as [|c l IH]; [done|]. simpl. destruct (named nm c); [done|auto].
Qed.

Lemma find_some_exists (nm : string) (l : list container) (c : container) :
  List.find (named nm) l = Some c ->
  existsb (named nm) l = true /\ c_name c = nm.
Proof.
  induction l as [|c' l IH]; [done|]. simpl.
  destruct (named nm c') eqn:E.
  - intros [= <-]. split; [done|]. by apply String.eqb_eq.
  - intros H. by apply IH.
Qed.

Lemma find_app_new (nm : string) (l : list container) (c : container) :
  List.find (named nm) l = None -> c_name c = nm ->
  List.find (named nm) (l ++ [c]) = Some c.
Proof.
  intros Hl Hc. induction l as [|c' l IH]; simpl in *.
  - unfold named. rewrite Hc, String.eqb_refl. done.
  - destruct (named nm c'); [done|auto].
Qed.

Lemma find_set_status (nm st : string) (l : list container) (c : container) :
  List.find (named nm) l = Some c ->
  List.find (named nm)
    (map (λ c', if String.eqb (c_name c') nm
                then {| c_name := c_name c'; c_image := c_image c';
                        c_status := st |}
                else c') l)
  = Some {| c_name := nm; c_image := c_image c; c_status := st |}.
Proof.
  induction l as [|c' l IH]; [done|]. simpl. unfold named at 1 3.
  destruct (String.eqb_spec (c_name c') nm) as [E|Hne]; simpl.
  - intros [= <-]. unfold named. simpl. rewrite E, String.eqb_refl. done.
  - apply String.eqb_neq in Hne. unfold named. rewrite Hne. apply IH.
Qed.

Lemma exists_set_status (nm st : string) (l : list container) :
  existsb (named nm)
    (map (λ c', if String.eqb (c_name c') nm
                then {| c_name := c_name c'; c_image := c_image c';
                        c_status := st |}
                else c') l)
  = existsb (named nm) l.
Proof.
  induction l as [|c' l IH]; [done|]. simpl. rewrite IH. f_equal.
  unfold named.
  by destruct (String.eqb (c_name c') nm) eqn:E; simpl; rewrite ?E.
Qed.

(** On the reference engine, a call that finds its container running reads
    the listing and the inspection and changes nothing. *)
Lemma startContainer_found_running (c : Loop daemon) (Image : ref)
    (nm : string) (rec : container) :
  quiescent c ->
  containerName (deref (memory c) Image) = Some nm ->
  lookup (getContainer (Some nm)) (engine c) = Some rec ->
  c_status rec = "running" ->
  drain 2 (invoke (startContainer Image) c) =
  {| memory := memory c; engine := engine c; ready := []; waiting := [];
     trace := trace c ++
       [ Called (listContainers true);
         Called (container_inspect (getContainer (Some nm)));
         Printed console_log [("Container " ++ nm ++ " is running")%string] ];
     promises := promises c ++ [Some Resolved] |}.
Proof.
  destruct c as [m e r w t ps]. intros [Hr Hw] Hn Hl Hs. simpl in *. subst r w.
  unfold startContainer, invoke. unfold_bind.
  cbn -[listed listing lookup].
  rewrite Hn, listed_listing.
  rewrite lookup_find in Hl. destruct (find_some_exists _ _ _ Hl) as [Hex _].
  rewrite Hex. cbn -[listed listing lookup]. rewrite lookup_find, Hl, Hs.
  cbn. rewrite Hn. cbn. rewrite insert_last. rewrite <- !app_assoc. done.
Qed.

Ltac dk_step E :=
  cbn -[listed listing lookup has_image array_includes filter_other_names
        set_status] in E.

(** The first call on the reference engine, along each of its paths. *)
Lemma startContainer_first (d : state) (m : Mem) (Image : ref) (nm : string)
    (c1 : Loop daemon) :
  containerName (deref m Image) = Some nm ->
  c1 = drain 3 (invoke (startContainer Image) (boot daemon m d)) ->
  quiescent c1 /\
  objects (memory c1) = objects m /\
  count is_create (trace c1) =
    (if lookup (getContainer (Some nm)) d is Some _ then 0 else 1) /\
  count is_start (trace c1) <= 1 /\
  exists o, promises c1 = [Some o] /\
    (o = Resolved ->
     exists rec, lookup (getContainer (Some nm)) (engine c1) = Some rec /\
                 c_status rec = "running").
Proof.
  intros Hn E. rewrite lookup_find.
  unfold startContainer, record_started, invoke, boot in E. unfold_bind.
  dk_step E. rewrite Hn, listed_listing in E.
  destruct (List.find (named nm) (containers d)) as [rec|] eqn:Hl.
  - destruct (find_some_exists _ _ _ Hl) as [Hex Hrec]. rewrite Hex in E.
    dk_step E. rewrite lookup_find, Hl in E. dk_step E.
    destruct (String.eqb (c_status rec) "running") eqn:Hs; dk_step E.
    + rewrite Hn in E. dk_step E. subst c1. unfold count. simpl.
      repeat split; [lia|].
      exists Resolved. split; [done|]. intros _. exists rec.
      rewrite lookup_find. split; [done|]. by apply String.eqb_eq.
    + rewrite lookup_find, Hl, Hs in E. dk_step E. rewrite Hn, Hrec in E.
      destruct (array_includes _ _ _); dk_step E; subst c1; unfold count;
        simpl; (repeat split; [lia|]);
        exists Resolved; (split; [done|]); intros _; eexists;
        (split; [by apply find_set_status|done]).
  - rewrite (find_none_exists _ _ Hl) in E. dk_step E.
    unfold create_options in E. dk_step E. rewrite Hn in E.
    destruct (has_image (name (deref m Image)) d) eqn:Hi; dk_step E.
    + rewrite lookup_find, Hl in E. dk_step E. rewrite lookup_find in E.
      dk_step E.
      rewrite (find_app_new nm (containers d)
                 {| c_name := nm; c_image := name (deref m Image);
                    c_status := "created" |} Hl eq_refl) in E.
      dk_step E. rewrite Hn in E.
      destruct (array_includes _ _ _); dk_step E; subst c1; unfold count;
        simpl; (repeat split; [lia|]);
        exists Resolved; (split; [done|]); intros _; eexists;
        (split; [apply find_set_status; by apply find_app_new|done]).
    + subst c1. unfold count. simpl. repeat split; [lia|]. eexists.
      split; [done|]. done.
Qed.

(** With a container name the two calls converge.  On the reference engine,
    two calls of [startContainer] in sequence on a description with a
    container name, the first of which succeeds, issue one [createContainer]
    when no container of that name existed and none when one did, and at
    most one [start]; the second call issues neither, leaves memory and
    engine as they are, and resolves. *)
Theorem startContainer_twice_is_idempotent (d : state) (m : Mem)
    (Image : ref) (nm : string) (fuel1 fuel2 : nat) :
  containerName (deref m Image) = Some nm ->
  3 <= fuel1 -> 2 <= fuel2 ->
  let c1 := call_and_wait fuel1 (startContainer Image) (boot daemon m d) in
  let c2 := call_and_wait fuel2 (startContainer Image) c1 in
  promises c1 = [Some Resolved] ->
  quiescent c2 /\
  promises c2 = [Some Resolved; Some Resolved] /\
  count is_create (trace c2) =
    (if lookup (getContainer (Some nm)) d is Some _ then 0 else 1) /\
  count is_start (trace c2) <= 1 /\
  count is_create (trace c2) = count is_create (trace c1) /\
  count is_start (trace c2) = count is_start (trace c1) /\
  memory c2 = memory c1 /\
  engine c2 = engine c1.
Proof.
  intros Hn Hf1 Hf2 c1 c2 Hres.
  destruct (startContainer_first d m Image nm _ Hn eq_refl)
    as (Hq & Hobj & Hcreate & Hstart & o & Ho & Hrun).
  assert (c1 = drain 3 (invoke (startContainer Image) (boot daemon m d)))
    as E1 by (by apply drain_more).
  rewrite <- E1 in *. rewrite Hres in Ho. injection Ho as <-.
  destruct (Hrun eq_refl) as (rec & Hl & Hs).
  assert (containerName (deref (memory c1) Image) = Some nm) as Hn1.
  { unfold deref. by rewrite Hobj. }
  pose proof (startContainer_found_running c1 Image nm rec Hq Hn1 Hl Hs) as E2.
  assert (c2 = drain 2 (invoke (startContainer Image) c1)) as E2'.
  { apply drain_more; [|done]. by rewrite E2. }
  rewrite E2 in E2'. rewrite E2'. simpl. rewrite Hres, !count_app.
  unfold count at 2 4 6 7. simpl. rewrite !Nat.add_0_r.
  repeat split; try done.
Qed.

(** A container left stopped by an earlier run is started again, not
    created: over the two calls no [createContainer] is issued. *)
Lemma startContainer_twice_on_existing_creates_none :
  let c1 := call_and_wait 3 (startContainer 0)
              (fresh daemon [image "nginx:latest" (Some "web")]
                     (docker_with ["nginx:latest"] [("web", "exited")])) in
  let c2 := call_and_wait 3 (startContainer 0) c1 in
  promises c2 = [Some Resolved; Some Resolved] /\
  count is_create (trace c2) = 0 /\
  count is_create (trace c2) <> 1 /\
  count is_start (trace c2) = 1.
Proof. vm_compute. repeat split. discriminate. Qed.

(** The same two calls on a new manager, the image present, no container
    yet. *)
Lemma startContainer_twice_witness :
  let d := docker_with ["nginx:latest"] [] in
  let m := constructor [image "nginx:latest" (Some "web")] in
  let c1 := call_and_wait 3 (startContainer 0) (boot daemon m d) in
  let c2 := call_and_wait 2 (startContainer 0) c1 in
  quiescent c2 /\
  promises c2 = [Some Resolved; Some Resolved] /\
  count is_create (trace c2) =
    (if lookup (getContainer (Some "web")) d is Some _ then 0 else 1) /\
  count is_start (trace c2) <= 1 /\
  count is_create (trace c2) = count is_create (trace c1) /\
  count is_start (trace c2) = count is_start (trace c1) /\
  memory c2 = memory c1 /\
  engine c2 = engine c1.
Proof.
  apply (startContainer_twice_is_idempotent
           (docker_with ["nginx:latest"] [])
           (constructor [image "nginx:latest" (Some "web")]) 0 "web" 3 2);
    [reflexivity | lia | lia | reflexivity].
Defined.

End DockerFacts.

(** C7.  [startContainer] looks a container up under the name of the
    description and never makes one up: for a description without a
    container name it looks for ["/undefined"] and asks for a container
    without a name.  So, whatever the engine, when the listings do not show
    that name and the engine grants the calls, the second of two calls in
    sequence creates and starts a container again.  On the reference engine,
    for the description [{ name: 'nginx:latest' }] and with the image
    present, the two calls issue two [createContainer] and two [start], both
    resolve, two containers run, and the description is listed twice as
    running. *)
Theorem startContainer_twice_without_name_creates_twice :
  (forall (G : Engine) (c : Loop G) (Image : ref)
          (l1 l2 : list ContainerInfo) (h1 h2 : Container)
          (e1 e2 e3 e4 e5 e6 : engine_state G),
     let D := deref (memory c) Image in
     quiescent c ->
     containerName D = None ->
     respond G _ (listContainers true) (engine c) = (Fulfilled l1, e1) ->
     listed (Some "undefined") l1 = false ->
     respond G _ (createContainer (create_options D)) e1
       = (Fulfilled h1, e2) ->
     respond G _ (container_start h1) e2 = (Fulfilled tt, e3) ->
     respond G _ (listContainers true) e3 = (Fulfilled l2, e4) ->
     listed (Some "undefined") l2 = false ->
     respond G _ (createContainer (create_options D)) e4
       = (Fulfilled h2, e5) ->
     respond G _ (container_start h2) e5 = (Fulfilled tt, e6) ->
     let c1 := call_and_wait 3 (startContainer Image) c in
     let c2 := call_and_wait 3 (startContainer Image) c1 in
     quiescent c2 /\
     promises c2 = promises c ++ [Some Resolved; Some Resolved] /\
     calls (trace c2) = calls (trace c) ++
       [ Called (listContainers true);
         Called (createContainer (create_options D));
         Called (container_start h1);
         Called (listContainers true);
         Called (createContainer (create_options D));
         Called (container_start h2) ] /\
     cc_name (create_options D) = None /\
     memory c2 = after_start Image (after_start Image (memory c))) /\
  let c1 := call_and_wait 3 (startContainer 0)
              (fresh Docker.daemon [nginx] (docker_with ["nginx:latest"] [])) in
  let c2 := call_and_wait 3 (startContainer 0) c1 in
  quiescent c2 /\
  promises c2 = [Some Resolved; Some Resolved] /\
  count is_create (trace c2) = 2 /\
  count is_start (trace c2) = 2 /\
  getRunningContainerList (memory c2) = [0; 0] /\
  Docker.containers (engine c2) =
    [ {| Docker.c_name := "unnamed"; Docker.c_image := "nginx:latest";
         Docker.c_status := "running" |};
      {| Docker.c_name := "unnamed_"; Docker.c_image := "nginx:latest";
         Docker.c_status := "running" |} ].
Proof.
  split.
  - intros G c Image l1 l2 h1 h2 e1 e2 e3 e4 e5 e6 D
      Hq Hn E1 Hl1 E2 E3 E4 Hl2 E5 E6 c1 c2.
    assert (listed (containerName D) l1 = false) as Hl1'
      by (by rewrite Hn).
    destruct (startContainer_started c Image l1 e1 Hq E1) as [H1 _].
    specialize (H1 Hl1' h1 e2 e3 E2 E3).
    assert (deref (memory c1) Image = D) as HD.
    { unfold c1. rewrite H1. apply after_start_objects. }
    assert (quiescent c1) as Hq1 by (unfold c1; by rewrite H1).
    assert (engine c1 = e3) as He1 by (unfold c1; by rewrite H1).
    destruct (startContainer_started c1 Image l2 e4 Hq1) as [H2 _];
      [by rewrite He1|].
    rewrite HD in H2.
    assert (listed (containerName D) l2 = false) as Hl2'
      by (by rewrite Hn).
    specialize (H2 Hl2' h2 e5 e6 E5 E6).
    unfold c2. rewrite H2. unfold c1. rewrite H1. simpl.
    rewrite <- !app_assoc, !calls_app. simpl.
    by repeat split.
  - vm_compute. by repeat split.
Qed.

(** ** Stopping one container *)

(** [stopContainer(Image, true)] when the engine grants the stop: the run
    in full, whatever the removal answers. *)
Lemma stopContainer_remove_run (G : Engine) (e e1 e2 : engine_state G)
    (m : Mem) (Image : ref) (r2 : Settled unit) :
  let h := getContainer (containerName (deref m Image)) in
  respond G unit (container_stop h) e = (Fulfilled tt, e1) ->
  respond G unit (container_remove h) e1 = (r2, e2) ->
  let c := drain 2 (invoke (stopContainer Image (Some true)) (boot G m e)) in
  quiescent c /\
  memory c = after_stop Image m /\
  calls (trace c) = [Called (container_stop h); Called (container_remove h)] /\
  promises c = [Some (outcome_of r2)].
Proof.
  intros h E1 E2.
  unfold stopContainer, record_stopped, invoke, boot, after_stop. unfold_bind.
  cbn -[array_includes filter_other_names array_push].
  fold h. rewrite E1.
  cbn -[array_includes filter_other_names array_push].
  destruct (array_includes _ _ _);
    cbn -[array_includes filter_other_names array_push];
    fold h; rewrite E2; by destruct r2 as [[]|err].
Qed.

(** C8.  For a description listed as running, when the engine grants the
    stop, [stopContainer(Image, true)] issues one stop call and then one
    remove call on the container, and leaves the description in the stopped
    list and out of the running list; its promise is rejected with the error
    of the removal when the removal fails, and resolved when it succeeds. *)
Theorem stopContainer_remove_keeps_stopped (G : Engine) (e : engine_state G)
    (m : Mem) (Image : ref) (fuel : nat) :
  let h := getContainer (containerName (deref m Image)) in
  let stopped := respond G unit (container_stop h) e in
  let removed := respond G unit (container_remove h) stopped.2 in
  let c := call_and_wait fuel (stopContainer Image (Some true)) (boot G m e) in
  wf_mem m ->
  Image ∈ getRunningContainerList m ->
  stopped.1 = Fulfilled tt ->
  2 <= fuel ->
  quiescent c /\
  calls (trace c) = [Called (container_stop h); Called (container_remove h)] /\
  (Image ∈ getStoppingContainerList (memory c)) /\
  (Image ∉ getRunningContainerList (memory c)) /\
  promises c = [Some (outcome_of removed.1)].
Proof.
  intros h stopped removed c Hwf Hin Hstop Hfuel.
  destruct stopped as [r1 e1] eqn:E1. simpl in Hstop, removed. subst r1.
  destruct removed as [r2 e2] eqn:E2. simpl.
  destruct (stopContainer_remove_run G e e1 e2 m Image r2 E1 E2)
    as (Hq & Hm & Hc & Hp).
  assert (c = drain 2 (invoke (stopContainer Image (Some true)) (boot G m e)))
    as -> by (by apply drain_more).
  rewrite Hm. destruct (after_stop_lists m Image Hwf Hin) as [Hs Hr].
  exact (conj Hq (conj Hc (conj Hs (conj Hr Hp)))).
Qed.

(** C8, witness: a running container on the reference engine. *)
Lemma stopContainer_remove_witness :
  let m := {| objects := [image "nginx:latest" (Some "web")];
              arrays := [ [0]; [] ];
              _runningImageList := 0; _stoppingImageList := 1 |} in
  let e := docker_with ["nginx:latest"] [("web", "running")] in
  let h := getContainer (Some "web") in
  let c := call_and_wait 2 (stopContainer 0 (Some true))
                         (boot Docker.daemon m e) in
  quiescent c /\
  calls (trace c) = [Called (container_stop h); Called (container_remove h)] /\
  (0 ∈ getStoppingContainerList (memory c)) /\
  (0 ∉ getRunningContainerList (memory c)) /\
  promises c = [Some Resolved].
Proof.
  apply (stopContainer_remove_keeps_stopped Docker.daemon
           (docker_with ["nginx:latest"] [("web", "running")])
           {| objects := [image "nginx:latest" (Some "web")];
              arrays := [ [0]; [] ];
              _runningImageList := 0; _stoppingImageList := 1 |} 0 2).
  - unfold wf_mem. simpl. lia.
  - apply list_elem_of_here.
  - reflexivity.
  - lia.
Defined.

(** The same call against an engine that refuses the removal: the promise is
    rejected, and the description stays in the stopped list only. *)
Example stopContainer_remove_refused :
  let m := {| objects := [image "nginx:latest" (Some "web")];
              arrays := [ [0]; [] ];
              _runningImageList := 0; _stoppingImageList := 1 |} in
  let c := call_and_wait 2 (stopContainer 0 (Some true)) (boot keeper m tt) in
  promises c = [Some (Failed "refused")] /\
  getStoppingContainerList (memory c) = [0] /\
  getRunningContainerList (memory c) = [] /\
  count is_stop (trace c) = 1 /\
  count is_remove (trace c) = 1.
Proof. vm_compute. repeat split. Qed.

Section StopOne.
Context {G : Engine}.

Ltac go :=
  cbn -[array_includes filter_other_names array_push last_promise errors
       calls].

(** X15.  When the engine refuses the stop, [stopContainer] stops there: it
    issues no removal even when one was asked for, leaves both lists as they
    were, prints the error once after ["Error stopping container:"], and
    rejects its promise with it. *)
Theorem stopContainer_refused_changes_nothing (c : Loop G) (Image : ref)
    (flag : option bool) (err : Error) (e1 : engine_state G) (fuel : nat) :
  let h := getContainer (containerName (deref (memory c) Image)) in
  quiescent c -> 1 <= fuel ->
  respond G unit (container_stop h) (engine c) = (Rejected err, e1) ->
  let c' := call_and_wait fuel (stopContainer Image flag) c in
  quiescent c' /\
  last_promise c' = Some (Failed err) /\
  memory c' = memory c /\
  calls (trace c') = calls (trace c) ++ [Called (container_stop h)] /\
  errors (trace c') =
    errors (trace c) ++ [["Error stopping container:"; err]].
Proof.
  intros h [Hr Hw] Hfuel E1. destruct c as [m e r w t ps]. simpl in *.
  subst r w.
  assert (call_and_wait 1 (stopContainer Image flag)
            (Build_Loop G m e [] [] t ps)
          = {| memory := m; engine := e1; ready := []; waiting := [];
               trace := t ++ [ Called (container_stop h);
                               Printed console_error
                                 ["Error stopping container:"; err] ];
               promises := ps ++ [Some (Failed err)] |}) as H1.
  { unfold call_and_wait, stopContainer, invoke. unfold_bind.
    go. fold h. rewrite E1. go. by rewrite insert_last, <- !app_assoc. }
  cbv zeta. unfold call_and_wait in *.
  rewrite (drain_more 1 fuel) by (by rewrite ?H1).
  rewrite H1. simpl.
  rewrite last_promise_invoked, calls_app, errors_app.
  by repeat split.
Qed.

(** X16.  When the engine grants the stop and no removal is asked for,
    [stopContainer] issues that one call and resolves.  The description is
    appended to the stopped list, listed as running or not; if it was listed
    as running, every description with its container name leaves the running
    list, and otherwise the running list is as it was. *)
Theorem stopContainer_without_removal (c : Loop G) (Image : ref)
    (flag : option bool) (e1 : engine_state G) (fuel : nat) :
  let h := getContainer (containerName (deref (memory c) Image)) in
  quiescent c -> wf_mem (memory c) -> 1 <= fuel ->
  Js.truthy flag = false ->
  respond G unit (container_stop h) (engine c) = (Fulfilled tt, e1) ->
  let c' := call_and_wait fuel (stopContainer Image flag) c in
  quiescent c' /\
  last_promise c' = Some Resolved /\
  calls (trace c') = calls (trace c) ++ [Called (container_stop h)] /\
  errors (trace c') = errors (trace c) /\
  getStoppingContainerList (memory c') =
    getStoppingContainerList (memory c) ++ [Image] /\
  getRunningContainerList (memory c') =
    (if bool_decide (Image ∈ getRunningContainerList (memory c))
     then filter_other_names (memory c)
            (getRunningContainerList (memory c)) Image
     else getRunningContainerList (memory c)).
Proof.
  intros h [Hr Hw] Hwf Hfuel Hflag E1. destruct c as [m e r w t ps].
  simpl in *. subst r w.
  assert (call_and_wait 1 (stopContainer Image flag)
            (Build_Loop G m e [] [] t ps)
          = {| memory := after_stop Image m; engine := e1;
               ready := []; waiting := [];
               trace := t ++ [ Called (container_stop h);
                               Printed console_log
                                 [("Container " ++
                                   Js.template (containerName (deref m Image))
                                   ++ " stopped")%string] ];
               promises := ps ++ [Some Resolved] |}) as H1.
  { unfold call_and_wait, stopContainer, record_stopped, after_stop, invoke.
    unfold_bind. rewrite Hflag.
    go. fold h. rewrite E1. go.
    destruct (array_includes _ _ _); go;
      by rewrite insert_last, <- !app_assoc. }
  cbv zeta. unfold call_and_wait in *.
  rewrite (drain_more 1 fuel) by (by rewrite ?H1).
  rewrite H1. simpl.
  rewrite last_promise_invoked, calls_app, errors_app.
  rewrite stopping_after_stop, running_after_stop by done.
  repeat split; try done. apply app_nil_r.
Qed.


End StopOne.

(** X15, witness: a container that is not running, with a removal asked for. *)
Lemma stopContainer_refused_witness :
  let m := {| objects := [image "nginx:latest" (Some "web")];
              arrays := [ [0]; [] ];
              _runningImageList := 0; _stoppingImageList := 1 |} in
  let c := boot Docker.daemon m
             (docker_with ["nginx:latest"] [("web", "exited")]) in
  let c' := call_and_wait 1 (stopContainer 0 (Some true)) c in
  quiescent c' /\
  last_promise c' = Some (Failed "container already stopped") /\
  memory c' = memory c /\
  calls (trace c') =
    calls (trace c) ++ [Called (container_stop (getContainer (Some "web")))] /\
  errors (trace c') =
    errors (trace c) ++
    [["Error stopping container:"; "container already stopped"]].
Proof.
  apply (@stopContainer_refused_changes_nothing Docker.daemon
           (boot Docker.daemon
              {| objects := [image "nginx:latest" (Some "web")];
                 arrays := [ [0]; [] ];
                 _runningImageList := 0; _stoppingImageList := 1 |}
              (docker_with ["nginx:latest"] [("web", "exited")]))
           0 (Some true) "container already stopped"
           (docker_with ["nginx:latest"] [("web", "exited")]) 1).
  - by split.
  - lia.
  - reflexivity.
Defined.

(** X16, witness: three running descriptions, two of the same name. *)
Lemma stopContainer_without_removal_witness :
  let m := {| objects := [ image "nginx:latest" (Some "web");
                           image "nginx:1.27" (Some "web");
                           image "redis:7" (Some "cache") ];
              arrays := [ [0; 2; 1]; [] ];
              _runningImageList := 0; _stoppingImageList := 1 |} in
  let c := boot Docker.daemon m
             (docker_with ["nginx:latest"] [("web", "running")]) in
  let c' := call_and_wait 1 (stopContainer 0 None) c in
  quiescent c' /\
  last_promise c' = Some Resolved /\
  calls (trace c') =
    calls (trace c) ++ [Called (container_stop (getContainer (Some "web")))] /\
  errors (trace c') = errors (trace c) /\
  getStoppingContainerList (memory c') = [0] /\
  getRunningContainerList (memory c') = [2].
Proof.
  apply (@stopContainer_without_removal Docker.daemon
           (boot Docker.daemon
              {| objects := [ image "nginx:latest" (Some "web");
                              image "nginx:1.27" (Some "web");
                              image "redis:7" (Some "cache") ];
                 arrays := [ [0; 2; 1]; [] ];
                 _runningImageList := 0; _stoppingImageList := 1 |}
              (docker_with ["nginx:latest"] [("web", "running")]))
           0 None
           (docker_with ["nginx:latest"] [("web", "exited")]) 1).
  - by split.
  - unfold wf_mem. simpl. lia.
  - lia.
  - reflexivity.
  - reflexivity.
Defined.

(** ** Stopping every container *)

Section StopAll.
Context {G : Engine}.

Ltac go := cbn -[array_includes filter_other_names array_push].

(** One turn of the teardown, from an idle loop: after at most two answers of
    the engine either the turn has succeeded and what follows the body runs
    next, or it has failed and the handler has run. *)
Lemma stopContainer_then (arr : aref) (L : list ref) (c : Loop G)
    (w : Awaiter) (rm : bool) (x : ref) (H : Error -> Prog unit) :
  (forall err (c' : Loop G),
     quiescent c' -> quiescent (advance (H err) w c')) ->
  walkable arr L c ->
  exists n, 1 <= n <= 2 /\
    ((exists c', walkable arr L c' /\
        forall (K : Prog unit) (fuel : nat), n <= fuel ->
          drain fuel (advance (bind_catch (stopContainer x (Some rm))
                                          (λ _, K) H) w c)
          = drain (fuel - n) (advance K w c')) \/
     (exists F, quiescent F /\
        forall (K : Prog unit) (fuel : nat), n <= fuel ->
          drain fuel (advance (bind_catch (stopContainer x (Some rm))
                                          (λ _, K) H) w c)
          = F)).
Proof.
  intros HH (Hr & Hw & Harr & Hne). destruct c as [m e r wt t ps]. simpl in *.
  subst r wt.
  set (h := getContainer (containerName (deref m x))).
  destruct (after_stop_keeps m x arr L Harr Hne) as [Harr' Hne'].
  destruct (respond G unit (container_stop h) e) as [[[]|err] e1] eqn:E1.
  - destruct rm.
    + destruct (respond G unit (container_remove h) e1) as [[[]|err] e2] eqn:E2.
      * exists 2. split; [lia|]. left.
        eexists (Build_Loop G (after_stop x m) e2 [] [] _ ps).
        split; [repeat split; simpl; congruence|].
        intros K [|[|fuel]] Hf; try lia.
        unfold stopContainer, record_stopped, after_stop. unfold_bind.
        go. fold h. rewrite E1. go.
        destruct (array_includes _ _ _); go; fold h; rewrite E2; go;
          rewrite Nat.sub_0_r; reflexivity.
      * exists 2. split; [lia|]. right.
        eexists (advance (H err) w
                   (Build_Loop G (after_stop x m) e2 [] [] _ ps)).
        split; [by apply HH|].
        intros K [|[|fuel]] Hf; try lia.
        unfold stopContainer, record_stopped, after_stop. unfold_bind.
        go. fold h. rewrite E1. go.
        destruct (array_includes _ _ _); go; fold h; rewrite E2; go;
          (rewrite drain_quiescent; [reflexivity|by apply HH]).
    + exists 1. split; [lia|]. left.
      eexists (Build_Loop G (after_stop x m) e1 [] [] _ ps).
      split; [repeat split; simpl; congruence|].
      intros K [|fuel] Hf; try lia.
      unfold stopContainer, record_stopped, after_stop. unfold_bind.
      go. fold h. rewrite E1. go.
      destruct (array_includes _ _ _); go; rewrite Nat.sub_0_r; reflexivity.
  - exists 1. split; [lia|]. right.
    eexists (advance (H err) w (Build_Loop G m e1 [] [] _ ps)).
    split; [by apply HH|].
    intros K [|fuel] Hf; try lia.
    unfold stopContainer, record_stopped. unfold_bind.
    go. fold h. rewrite E1. go.
    rewrite drain_quiescent; [reflexivity|by apply HH].
Qed.

Lemma drain_loop_head (c : Loop G) (w : Awaiter) (arr : aref) (i : nat)
    (body : ref -> Prog unit) (H : Error -> Prog unit) (k : Prog unit)
    (L : list ref) (fuel : nat) :
  ready c = [] -> arrays (memory c) !! arr = Some L ->
  drain (S fuel)
    (with_ready [ {| code := ForOf arr i body H k; awaiter := w |} ] c)
  = drain fuel
      (advance match L !! i with
               | Some x => bind_catch (body x)
                             (λ _, ForOf arr (S i) body H k) H
               | None => k
               end w c).
Proof.
  intros Hr Harr. destruct c as [m e r wt t ps]. simpl in *. subst r.
  unfold tick, loop_turn, array. simpl. by rewrite Harr.
Qed.

Lemma advance_loop_head (c : Loop G) (w : Awaiter) (arr : aref) (i : nat)
    (body : ref -> Prog unit) (H : Error -> Prog unit) (k : Prog unit) :
  ready c = [] ->
  advance (ForOf arr i body H k) w c
  = with_ready [ {| code := ForOf arr i body H k; awaiter := w |} ] c.
Proof. intros Hr. simpl. by rewrite Hr. Qed.

(** From index [i] on, the loop over the live array and the walk over the
    rest of its elements end in the same state. *)
Lemma stop_loop_sim (arr : aref) (L : list ref) (rm : bool)
    (H : Error -> Prog unit) :
  (forall err w (c' : Loop G),
     quiescent c' -> quiescent (advance (H err) w c')) ->
  forall (l' : list ref) (i : nat) (c : Loop G) (w : Awaiter) (fuel : nat),
    walkable arr L c -> drop i L = l' -> 3 * length l' + 1 <= fuel ->
    let body := λ Image, stopContainer Image (Some rm) in
    let live :=
      drain fuel
        (with_ready [ {| code := ForOf arr i body H (Ret tt);
                         awaiter := w |} ] c) in
    quiescent live /\
    live = drain fuel (advance (await_each l' body H) w c).
Proof.
  intros HH l'. induction l' as [|x l'' IH]; intros i c w fuel Hc Hdrop Hfuel;
    cbv zeta.
  - destruct fuel as [|fuel]; [simpl in Hfuel; lia|].
    assert (L !! i = None) as Hi.
    { apply lookup_ge_None. apply drop_nil_inv in Hdrop. lia. }
    destruct Hc as (Hr & Hw & Harr & Hne).
    rewrite (drain_loop_head c w arr i _ H (Ret tt) L fuel Hr Harr), Hi.
    assert (quiescent (advance (Ret tt) w c)) as Hq.
    { by apply settle_idle. }
    cbn [await_each]. by rewrite !drain_quiescent.
  - assert (L !! i = Some x /\ drop (S i) L = l'') as [Hi Hdrop'].
    { split.
      - pose proof (lookup_drop L i 0) as H0.
        rewrite Hdrop, Nat.add_0_r in H0. by symmetry.
      - pose proof (drop_drop L 1 i) as H1.
        rewrite Hdrop, Nat.add_1_r in H1. by symmetry. }
    simpl in Hfuel. destruct fuel as [|fuel]; [lia|].
    pose proof Hc as (Hr & Hw & Harr & Hne).
    rewrite (drain_loop_head c w arr i _ H (Ret tt) L fuel Hr Harr), Hi.
    cbn [await_each].
    destruct (stopContainer_then arr L c w rm x H (λ err, HH err w) Hc)
      as (n & Hn & [(c' & Hc' & Hrun)|(F & HF & Hrun)]).
    + rewrite !Hrun by lia.
      pose proof Hc' as (Hr' & _). rewrite (advance_loop_head c') by done.
      destruct (IH (S i) c' w (fuel - n) Hc' Hdrop' ltac:(lia)) as [Hq Heq].
      split; [done|]. rewrite Heq. symmetry. apply drain_more; [|lia].
      by rewrite <- Heq.
    + by rewrite !Hrun by lia.
Qed.

Lemma teardown_calls_objects (m m' : Mem) (rm : bool) (l : list ref) :
  objects m' = objects m -> teardown_calls m' rm l = teardown_calls m rm l.
Proof. intros H. unfold teardown_calls, deref. by rewrite H. Qed.

(** Against an engine that grants every stop and removal, walking a list of
    descriptions stops (and removes) the container of each once, in order,
    appends the list to the stopped list and resolves. *)
Lemma walk_granted (HG : grants_teardown G) (rm : bool)
    (H : Error -> Prog unit) (l : list ref) :
  forall (c : Loop G) (w : Awaiter) (fuel : nat),
    ready c = [] -> waiting c = [] ->
    _stoppingImageList (memory c) < length (arrays (memory c)) ->
    2 * length l <= fuel ->
    let c' := drain fuel
                (advance (await_each l
                            (λ Image, stopContainer Image (Some rm)) H) w c) in
    quiescent c' /\
    calls (trace c') = calls (trace c) ++ teardown_calls (memory c) rm l /\
    getStoppingContainerList (memory c') =
      getStoppingContainerList (memory c) ++ l /\
    promises c' = promises (settle w Resolved c).
Proof.
  induction l as [|x l IH]; intros c w fuel Hr Hw Hs Hfuel; cbv zeta.
  - cbn [await_each advance].
    assert (quiescent (settle w Resolved c)) as Hq by (by destruct w).
    rewrite (drain_quiescent _ _ Hq). split; [done|].
    rewrite !app_nil_r. by destruct w.
  - destruct c as [m e r wt t ps]. simpl in Hr, Hw, Hs. subst r wt.
    cbn [memory trace].
    set (h := getContainer (containerName (deref m x))).
    destruct (HG h e) as [Hstop _].
    destruct (respond G unit (container_stop h) e) as [r1 e1] eqn:E1.
    simpl in Hstop. subst r1.
    destruct (after_stop_stopping m x Hs) as [Hs' Hst'].
    pose proof (after_stop_objects m x) as Hobj.
    simpl in Hfuel. destruct fuel as [|fuel]; [lia|].
    destruct rm.
    + destruct (HG h e1) as [_ Hrem].
      destruct (respond G unit (container_remove h) e1) as [r2 e2] eqn:E2.
      simpl in Hrem. subst r2.
      destruct fuel as [|fuel]; [lia|].
      match goal with
      | |- context [drain _ ?X] =>
          assert (exists t', calls t' = calls t ++
                    [Called (container_stop h); Called (container_remove h)] /\
                  drain (S (S fuel)) X =
                  drain fuel (advance (await_each l
                     (λ Image, stopContainer Image (Some true)) H) w
                     (Build_Loop G (after_stop x m) e2 [] [] t' ps))) as Hstep
      end.
      { eexists. split; cycle 1.
        - cbn [await_each]. unfold stopContainer, record_stopped, after_stop.
          unfold_bind. go. fold h. rewrite E1. go.
          destruct (array_includes _ _ _); go; fold h; rewrite E2; go;
            reflexivity.
        - unfold calls. rewrite !List.filter_app. simpl.
          by rewrite <- !app_assoc. }
      destruct Hstep as (t' & Ht' & ->).
      destruct (IH (Build_Loop G (after_stop x m) e2 [] [] t' ps) w fuel
                  eq_refl eq_refl Hs' ltac:(lia)) as (Hq & Hc & Hl & Hp).
      cbn [memory trace] in Hc, Hl. split; [done|].
      rewrite Hc, Hl, Ht', Hst', Hp, (teardown_calls_objects _ _ _ _ Hobj).
      simpl. rewrite <- !app_assoc. split; [done|]. split; [done|].
      by destruct w.
    + match goal with
      | |- context [drain _ ?X] =>
          assert (exists t', calls t' = calls t ++
                    [Called (container_stop h)] /\
                  drain (S fuel) X =
                  drain fuel (advance (await_each l
                     (λ Image, stopContainer Image (Some false)) H) w
                     (Build_Loop G (after_stop x m) e1 [] [] t' ps))) as Hstep
      end.
      { eexists. split; cycle 1.
        - cbn [await_each]. unfold stopContainer, record_stopped, after_stop.
          unfold_bind. go. fold h. rewrite E1. go.
          destruct (array_includes _ _ _); go; reflexivity.
        - unfold calls. rewrite !List.filter_app. simpl.
          by rewrite <- !app_assoc. }
      destruct Hstep as (t' & Ht' & ->).
      destruct (IH (Build_Loop G (after_stop x m) e1 [] [] t' ps) w fuel
                  eq_refl eq_refl Hs' ltac:(lia)) as (Hq & Hc & Hl & Hp).
      cbn [memory trace] in Hc, Hl. split; [done|].
      rewrite Hc, Hl, Ht', Hst', Hp, (teardown_calls_objects _ _ _ _ Hobj).
      simpl. rewrite <- !app_assoc. split; [done|]. split; [done|].
      by destruct w.
Qed.

(** C9, as amended.  When nothing else runs while [stop] runs, it ends in the
    very state that walking a copy of the running list ends in, for every
    engine: [stopContainer] is applied once to each entry the array held
    when [stop] began, in order, up to the first failure, and the removals
    [stopContainer] makes do not disturb the walk.  Against an engine that
    grants every stop and removal, the engine calls are the stop (and the
    removal) of each entry in turn, the entries are appended to the stopped
    list, and the promise resolves. *)
Theorem stop_alone_walks_snapshot (e : engine_state G) (m : Mem)
    (IsRemoveContainer : option bool) (fuel : nat) :
  wf_mem m ->
  3 * length (getRunningContainerList m) + 1 <= fuel ->
  let live := call_and_wait fuel (stop IsRemoveContainer) (boot G m e) in
  quiescent live /\
  live = call_and_wait fuel (stop_over_snapshot IsRemoveContainer)
                       (boot G m e) /\
  (grants_teardown G ->
   calls (trace live) =
     teardown_calls m (default false IsRemoveContainer)
                    (getRunningContainerList m) /\
   getStoppingContainerList (memory live) =
     getStoppingContainerList m ++ getRunningContainerList m /\
   promises live = [Some Resolved]).
Proof.
  intros (Hr & Hs & Hne) Hfuel.
  apply lookup_lt_is_Some in Hr as [L HL].
  assert (getRunningContainerList m = L) as HL'.
  { unfold getRunningContainerList, array.
    exact (f_equal (default []) HL). }
  rewrite HL' in *.
  pose proof (stop_loop_sim (_runningImageList m) L
                (default false IsRemoveContainer)
                (λ error, Print console_error ["Error stopping images:"; error]
                                (Throw error))) as Hsim.
  assert (forall err w (c' : Loop G), quiescent c' ->
            quiescent (advance (Print console_error
                                  ["Error stopping images:"; err]
                                  (Throw err)) w c')) as HH.
  { intros err w c' [Hq1 Hq2]. simpl. apply settle_idle. by split. }
  specialize (Hsim HH).
  specialize (Hsim L 0 (Build_Loop G m e [] [] [] [None]) (Held 0) fuel).
  cbv zeta in Hsim.
  assert (call_and_wait fuel (stop_over_snapshot IsRemoveContainer)
                        (boot G m e)
          = drain fuel
              (advance (await_each L
                 (λ Image, stopContainer Image
                             (Some (default false IsRemoveContainer)))
                 (λ error, Print console_error
                             ["Error stopping images:"; error]
                             (Throw error)))
                 (Held 0) (Build_Loop G m e [] [] [] [None]))) as Esnap.
  { unfold call_and_wait, stop_over_snapshot, invoke, boot. unfold_bind.
    simpl. by rewrite HL'. }
  assert (call_and_wait fuel (stop IsRemoveContainer) (boot G m e)
          = drain fuel
              (with_ready
                 [ {| code := ForOf (_runningImageList m) 0
                        (λ Image, stopContainer Image
                                    (Some (default false IsRemoveContainer)))
                        (λ error, Print console_error
                                    ["Error stopping images:"; error]
                                    (Throw error))
                        (Ret tt);
                      awaiter := Held 0 |} ]
                 (Build_Loop G m e [] [] [] [None]))) as Elive.
  { reflexivity. }
  destruct Hsim as [Hq Heq].
  { repeat split; simpl; [done|congruence]. }
  { apply drop_0. }
  { done. }
  cbv zeta. rewrite Esnap, Elive. split; [done|]. split; [done|].
  intros HG. rewrite Heq.
  destruct (walk_granted HG (default false IsRemoveContainer)
              (λ error, Print console_error ["Error stopping images:"; error]
                              (Throw error))
              L (Build_Loop G m e [] [] [] [None]) (Held 0) fuel
              eq_refl eq_refl Hs ltac:(lia)) as (_ & Hc & Hl & Hp).
  done.
Qed.

End StopAll.

(** The engine [obliging] grants every stop and removal. *)
Lemma obliging_grants_teardown : grants_teardown obliging.
Proof. intros h s. by split. Qed.

(** C9, witness: two descriptions listed as running, an engine that grants
    everything. *)
Lemma stop_alone_witness :
  let m := {| objects := [image "a:1" (Some "a"); image "b:1" (Some "b")];
              arrays := [ [0; 1]; [] ];
              _runningImageList := 0; _stoppingImageList := 1 |} in
  let live := call_and_wait 7 (stop None) (boot obliging m tt) in
  quiescent live /\
  live = call_and_wait 7 (stop_over_snapshot None) (boot obliging m tt) /\
  calls (trace live) =
    [ Called (container_stop (getContainer (Some "a")));
      Called (container_stop (getContainer (Some "b"))) ] /\
  getStoppingContainerList (memory live) = [0; 1] /\
  promises live = [Some Resolved].
Proof.
  assert (wf_mem {| objects := [image "a:1" (Some "a"); image "b:1" (Some "b")];
                    arrays := [ [0; 1]; [] ];
                    _runningImageList := 0; _stoppingImageList := 1 |})
    as Hwf by (unfold wf_mem; simpl; lia).
  destruct (@stop_alone_walks_snapshot obliging tt _ None 7 Hwf
              ltac:(simpl; lia)) as (Hq & He & Hg).
  exact (conj Hq (conj He (Hg obliging_grants_teardown))).
Defined.

(** The same teardown on the reference engine, with both containers
    running. *)
Example stop_alone_on_docker :
  let m := {| objects := [image "a:1" (Some "a"); image "b:1" (Some "b")];
              arrays := [ [0; 1]; [] ];
              _runningImageList := 0; _stoppingImageList := 1 |} in
  let e := docker_with ["a:1"; "b:1"] [("a", "running"); ("b", "running")] in
  let live := call_and_wait 7 (stop (Some true)) (boot Docker.daemon m e) in
  quiescent live /\
  calls (trace live) =
    [ Called (container_stop (getContainer (Some "a")));
      Called (container_remove (getContainer (Some "a")));
      Called (container_stop (getContainer (Some "b")));
      Called (container_remove (getContainer (Some "b"))) ] /\
  getRunningContainerList (memory live) = [] /\
  getStoppingContainerList (memory live) = [0; 1] /\
  Docker.containers (engine live) = [].
Proof. vm_compute. repeat split. Qed.

(** C9, counterexample.  [stop()] begins with one description in the running
    list; a second one, started while the first stop is pending, is pushed
    onto the array the loop walks, and the same call of [stop] stops it
    too. *)
Lemma stop_reaches_late_arrival :
  let c0 := fresh Docker.daemon
              [image "a:1" (Some "a"); image "b:1" (Some "b")]
              (docker_with ["a:1"; "b:1"] []) in
  (getRunningContainerList ∘ memory) <$> run one_running c0 = Some [0] /\
  (λ c, (List.filter is_stop (trace c),
         getStoppingContainerList (memory c),
         ready c, waiting c))
    <$> run (one_running ++ late_arrival) c0
  = Some ([ Called (container_stop (getContainer (Some "a")));
            Called (container_stop (getContainer (Some "b"))) ],
          [0; 1], [], []).
Proof. split; vm_compute; reflexivity. Qed.

Section StopEdges.
Context {G : Engine}.

Ltac go :=
  cbn -[array_includes filter_other_names array_push last_promise errors
       calls].

(** X17.  With nothing listed as running, [stop] asks the engine for
    nothing, prints nothing, leaves memory as it was and resolves. *)
Theorem stop_with_nothing_running (c : Loop G) (flag : option bool)
    (fuel : nat) :
  quiescent c -> 1 <= fuel ->
  getRunningContainerList (memory c) = [] ->
  let c' := call_and_wait fuel (stop flag) c in
  quiescent c' /\
  last_promise c' = Some Resolved /\
  trace c' = trace c /\
  memory c' = memory c /\
  engine c' = engine c.
Proof.
  intros [Hr Hw] Hfuel HL. destruct c as [m e r w t ps]. simpl in *.
  subst r w.
  assert (call_and_wait 1 (stop flag) (Build_Loop G m e [] [] t ps)
          = Build_Loop G m e [] [] t (ps ++ [Some Resolved])) as H1.
  { unfold call_and_wait, stop, for_of, invoke. unfold_bind.
    go. unfold tick, loop_turn. go.
    unfold getRunningContainerList in HL. rewrite HL. go.
    by rewrite insert_last. }
  cbv zeta. unfold call_and_wait in *.
  rewrite (drain_more 1 fuel) by (by rewrite ?H1).
  rewrite H1. simpl. by rewrite last_promise_invoked.
Qed.

(** X18.  [stop] gives up at the first refusal: when the engine refuses to
    stop the first description listed as running, no other description is
    asked to stop, both lists are as they were, the error is printed by
    [stopContainer] and again by [stop], and the promise of [stop] is
    rejected with it. *)
Theorem stop_halts_at_first_refusal (c : Loop G) (flag : option bool)
    (Image : ref) (rest : list ref) (err : Error) (e1 : engine_state G)
    (fuel : nat) :
  let h := getContainer (containerName (deref (memory c) Image)) in
  quiescent c -> 2 <= fuel ->
  getRunningContainerList (memory c) = Image :: rest ->
  respond G unit (container_stop h) (engine c) = (Rejected err, e1) ->
  let c' := call_and_wait fuel (stop flag) c in
  quiescent c' /\
  last_promise c' = Some (Failed err) /\
  memory c' = memory c /\
  calls (trace c') = calls (trace c) ++ [Called (container_stop h)] /\
  errors (trace c') =
    errors (trace c) ++ [ ["Error stopping container:"; err];
                          ["Error stopping images:"; err] ].
Proof.
  intros h [Hr Hw] Hfuel HL E1. destruct c as [m e r w t ps]. simpl in *.
  subst r w.
  assert (call_and_wait 2 (stop flag) (Build_Loop G m e [] [] t ps)
          = {| memory := m; engine := e1; ready := []; waiting := [];
               trace := t ++ [ Called (container_stop h);
                               Printed console_error
                                 ["Error stopping container:"; err];
                               Printed console_error
                                 ["Error stopping images:"; err] ];
               promises := ps ++ [Some (Failed err)] |}) as H2.
  { unfold call_and_wait, stop, for_of, stopContainer, invoke. unfold_bind.
    go. unfold tick, loop_turn. go.
    unfold getRunningContainerList in HL. rewrite HL. go.
    fold h. rewrite E1. go. by rewrite insert_last, <- !app_assoc. }
  cbv zeta. unfold call_and_wait in *.
  rewrite (drain_more 2 fuel) by (by rewrite ?H2).
  rewrite H2. simpl. rewrite last_promise_invoked, calls_app, errors_app.
  by repeat split.
Qed.

End StopEdges.

(** X17, witness: a new manager. *)
Lemma stop_with_nothing_running_witness :
  let c := fresh Docker.daemon [nginx] Docker.empty in
  let c' := call_and_wait 1 (stop (Some true)) c in
  quiescent c' /\
  last_promise c' = Some Resolved /\
  trace c' = trace c /\
  memory c' = memory c /\
  engine c' = engine c.
Proof.
  apply (@stop_with_nothing_running Docker.daemon
           (fresh Docker.daemon [nginx] Docker.empty) (Some true) 1).
  - by split.
  - lia.
  - reflexivity.
Defined.

(** X18, witness: two running descriptions, the first already stopped. *)
Lemma stop_halts_at_first_refusal_witness :
  let m := {| objects := [ image "nginx:latest" (Some "web");
                           image "redis:7" (Some "cache") ];
              arrays := [ [0; 1]; [] ];
              _runningImageList := 0; _stoppingImageList := 1 |} in
  let d := docker_with [] [("web", "exited"); ("cache", "running")] in
  let c := boot Docker.daemon m d in
  let c' := call_and_wait 2 (stop None) c in
  quiescent c' /\
  last_promise c' = Some (Failed "container already stopped") /\
  memory c' = memory c /\
  calls (trace c') =
    calls (trace c) ++ [Called (container_stop (getContainer (Some "web")))] /\
  errors (trace c') =
    errors (trace c) ++
    [ ["Error stopping container:"; "container already stopped"];
      ["Error stopping images:"; "container already stopped"] ].
Proof.
  apply (@stop_halts_at_first_refusal Docker.daemon
           (boot Docker.daemon
              {| objects := [ image "nginx:latest" (Some "web");
                              image "redis:7" (Some "cache") ];
                 arrays := [ [0; 1]; [] ];
                 _runningImageList := 0; _stoppingImageList := 1 |}
              (docker_with [] [("web", "exited"); ("cache", "running")]))
           None 0 [1] "container already stopped"
           (docker_with [] [("web", "exited"); ("cache", "running")]) 2).
  - by split.
  - lia.
  - reflexivity.
  - reflexivity.
Defined.

(** ** Pulling an image *)

Section PullImage.
Context {G : Engine}.

Lemma advance_print_each (s : Console) (lines : list string)
    (f : unit -> Prog unit) (h : Error -> Prog unit) (w : Awaiter)
    (c : Loop G) :
  exists t, calls t = [] /\
    advance (bind_catch (print_each s lines) f h) w c
    = advance (f tt) w
        (Build_Loop G (memory c) (engine c) (ready c) (waiting c)
                    (trace c ++ t) (promises c)).
Proof.
  revert c. induction lines as [|d ds IH]; intros c.
  - exists []. split; [done|]. destruct c. simpl. by rewrite app_nil_r.
  - destruct (IH (emit (Printed s [d]) c)) as (t & Ht & E).
    exists (Printed s [d] :: t). split; [done|].
    change (advance (bind_catch (print_each s (d :: ds)) f h) w c)
      with (advance (bind_catch (print_each s ds) f h) w
                    (emit (Printed s [d]) c)).
    rewrite E. simpl. by rewrite <- app_assoc.
Qed.

(** C10.  [pullImage(Image)] with [IsStartContainer] omitted never issues a
    [createContainer] or a [start], at any point of its execution and for
    every engine; when the listing holds the tag it resolves after the
    listing alone, and when the image is missing and the pull stream ends it
    resolves after the listing and the pull. *)
Theorem pullImage_omitted_flag_never_starts (e : engine_state G) (m : Mem)
    (Image : ref) (fuel : nat) :
  let c := call_and_wait fuel (pullImage Image None) (boot G m e) in
  let nm := name (deref m Image) in
  let listing := respond G _ listImages e in
  let pulled := respond G _ (pull nm) listing.2 in
  count is_create (trace c) = 0 /\
  count is_start (trace c) = 0 /\
  (forall images,
     listing.1 = Fulfilled images -> tagged nm images = true -> 1 <= fuel ->
     quiescent c /\
     calls (trace c) = [Called listImages] /\
     promises c = [Some Resolved]) /\
  (forall images stream,
     listing.1 = Fulfilled images -> tagged nm images = false ->
     pulled.1 = Fulfilled stream -> ends stream = true -> 2 <= fuel ->
     quiescent c /\
     calls (trace c) = [Called listImages; Called (pull nm)] /\
     promises c = [Some Resolved]).
Proof.
  intros c nm listing pulled.
  assert (forall f, marks_calls f -> f (Called listImages) = false ->
            (forall n, f (Called (pull n)) = false) ->
            count f (trace c) = 0) as Hnone.
  { intros f Hf Hl Hp. apply (clean_drain f Hf), (clean_invoke f Hf).
    - by apply pullImage_omitted_avoids.
    - apply clean_boot. }
  split; [by apply Hnone|]. split; [by apply Hnone|]. clear Hnone.
  split.
  - intros images Hl Ht Hfuel.
    assert (c = drain 1 (invoke (pullImage Image None) (boot G m e))) as ->;
      [apply drain_more; [|done]|];
      unfold pullImage, invoke, boot; unfold_bind; cbn -[tagged];
      fold listing; destruct listing as [r e1]; simpl in Hl; subst r;
      cbn -[tagged]; fold nm; rewrite Ht; by cbn.
  - intros images stream Hl Ht Hp He Hfuel.
    assert (c = drain 2 (invoke (pullImage Image None) (boot G m e))) as ->;
      [apply drain_more; [|done]|];
      unfold pullImage, pull_promise, invoke, boot; unfold_bind;
      cbn -[tagged];
      fold listing; destruct listing as [r e1]; simpl in Hl, pulled; subst r;
      cbn -[tagged]; fold nm; rewrite Ht; cbn -[tagged]; fold nm;
      fold pulled; destruct pulled as [r2 e2]; simpl in Hp; subst r2;
      cbn -[tagged print_each];
      match goal with
      | |- context [advance (bind_catch (print_each ?s ?l) ?f ?h) ?w ?c0] =>
          destruct (advance_print_each s l f h w c0) as (t & Htr & ->)
      end; rewrite He; unfold calls in *; cbn; rewrite ?Htr; done.
Qed.

End PullImage.

(** C10, witness: the reference engine with the image, and without it. *)
Lemma pullImage_omitted_flag_witness :
  let c1 := call_and_wait 1 (pullImage 0 None)
              (fresh Docker.daemon [nginx] (docker_with ["nginx:latest"] [])) in
  let c2 := call_and_wait 2 (pullImage 0 None)
              (fresh Docker.daemon [nginx] Docker.empty) in
  (quiescent c1 /\
   calls (trace c1) = [Called listImages] /\
   promises c1 = [Some Resolved]) /\
  (quiescent c2 /\
   calls (trace c2) = [Called listImages; Called (pull "nginx:latest")] /\
   promises c2 = [Some Resolved]).
Proof.
  split.
  - apply (proj1 (proj2 (proj2
             (@pullImage_omitted_flag_never_starts Docker.daemon
                (docker_with ["nginx:latest"] []) (constructor [nginx]) 0 1)))
             [ {| RepoTags := Some ["nginx:latest"] |} ]);
      [reflexivity | reflexivity | lia].
  - apply (proj2 (proj2 (proj2
             (@pullImage_omitted_flag_never_starts Docker.daemon
                Docker.empty (constructor [nginx]) 0 2)))
             [] {| chunks := ["Pulling nginx:latest"]; ends := true |});
      [reflexivity | reflexivity | reflexivity | reflexivity | lia].
Defined.

Section PullPaths.
Context {G : Engine}.

Ltac go :=
  cbn -[tagged listed array_includes filter_other_names array_push
       last_promise errors calls print_each startContainer].

Ltac go' :=
  cbn -[tagged listed array_includes filter_other_names array_push
       last_promise errors unhandled calls print_each].

(** Every path through the engine's answers. *)
Ltac paths :=
  repeat (go'; rewrite ?insert_last;
          match goal with
          | |- context [respond G ?X ?op ?s] =>
              destruct (respond G X op s) as [[?|?] ?] eqn:?
          | |- context [if negb ?b then _ else _] => destruct b eqn:?
          | |- context [if array_includes ?a ?b ?c then _ else _] =>
              destruct (array_includes a b c) eqn:?
          end);
  go'; rewrite ?insert_last.

Lemma advance_print_lines (s : Console) (lines : list string)
    (f : unit -> Prog unit) (h : Error -> Prog unit) (w : Awaiter)
    (c : Loop G) :
  advance (bind_catch (print_each s lines) f h) w c
  = advance (f tt) w
      (Build_Loop G (memory c) (engine c) (ready c) (waiting c)
                  (trace c ++ map (λ d, Printed s [d]) lines) (promises c)).
Proof.
  revert c. induction lines as [|d ds IH]; intros c.
  - destruct c. simpl. by rewrite app_nil_r.
  - change (advance (bind_catch (print_each s (d :: ds)) f h) w c)
      with (advance (bind_catch (print_each s ds) f h) w
                    (emit (Printed s [d]) c)).
    rewrite IH. simpl. by rewrite <- app_assoc.
Qed.

Lemma calls_logged (lines : list string) :
  calls (map (λ d, Printed console_log [d]) lines) = [].
Proof. by induction lines. Qed.

Lemma errors_logged (lines : list string) :
  errors (map (λ d, Printed console_log [d]) lines) = [].
Proof. by induction lines. Qed.

Lemma unhandled_logged (lines : list string) :
  unhandled (map (λ d, Printed console_log [d]) lines) = [].
Proof. by induction lines. Qed.

(** X19.  When the listing of the images fails, [pullImage] pulls nothing
    and starts nothing: it prints the error once after
    ["Error pulling image:"], leaves memory as it was, and rejects its
    promise with it. *)
Theorem pullImage_listing_fails (c : Loop G) (Image : ref)
    (flag : option bool) (err : Error) (e1 : engine_state G) (fuel : nat) :
  quiescent c -> 1 <= fuel ->
  respond G _ listImages (engine c) = (Rejected err, e1) ->
  let c' := call_and_wait fuel (pullImage Image flag) c in
  quiescent c' /\
  last_promise c' = Some (Failed err) /\
  memory c' = memory c /\
  calls (trace c') = calls (trace c) ++ [Called listImages] /\
  errors (trace c') = errors (trace c) ++ [["Error pulling image:"; err]].
Proof.
  intros [Hr Hw] Hfuel E1. destruct c as [m e r w t ps]. simpl in *.
  subst r w.
  assert (call_and_wait 1 (pullImage Image flag)
            (Build_Loop G m e [] [] t ps)
          = {| memory := m; engine := e1; ready := []; waiting := [];
               trace := t ++ [ Called listImages;
                               Printed console_error
                                 ["Error pulling image:"; err] ];
               promises := ps ++ [Some (Failed err)] |}) as H1.
  { unfold call_and_wait, pullImage, invoke. unfold_bind.
    go. rewrite E1. go. by rewrite insert_last, <- !app_assoc. }
  cbv zeta. unfold call_and_wait in *.
  rewrite (drain_more 1 fuel) by (by rewrite ?H1).
  rewrite H1. simpl. rewrite last_promise_invoked, calls_app, errors_app.
  by repeat split.
Qed.

(** X20.  When the listing holds the tag of the image, [pullImage] never
    pulls, whatever the flag, the engine and the answers that follow. *)
Theorem pullImage_present_image_never_pulls (e e1 : engine_state G)
    (m : Mem) (Image : ref) (flag : option bool) (images : list ImageInfo)
    (fuel : nat) :
  respond G _ listImages e = (Fulfilled images, e1) ->
  tagged (name (deref m Image)) images = true ->
  count is_pull (trace (call_and_wait fuel (pullImage Image flag)
                          (boot G m e))) = 0.
Proof.
  intros E1 Ht. destruct fuel as [|fuel]; [done|].
  assert (avoids is_pull (startContainer Image)) as Hs.
  { apply startContainer_avoids. auto. }
  unfold call_and_wait, pullImage, invoke, boot. unfold_bind.
  go. rewrite E1. go. rewrite Ht. go.
  destruct (Js.truthy flag); go;
    apply (clean_drain is_pull is_pull_marks_calls).
  - apply (clean_advance is_pull is_pull_marks_calls).
    + do 2 apply avoids_bind_assoc. by apply avoids_bind_catch.
    + by repeat split.
  - by repeat split.
Qed.

(** X21.  The whole of [pullImage(Image, true)] for a missing image, when
    the engine grants everything: a listing of the images, the pull, whose
    progress is printed chunk by chunk, and then the calls of
    [startContainer], in this order; the promise is resolved once the
    container is started, and the description is appended to the running
    list. *)
Theorem pullImage_pulls_then_starts (c : Loop G) (Image : ref)
    (flag : option bool) (images : list ImageInfo) (stream : PullStream)
    (l : list ContainerInfo) (h : Container)
    (e1 e2 e3 e4 e5 : engine_state G) (fuel : nat) :
  let D := deref (memory c) Image in
  quiescent c -> wf_mem (memory c) -> 5 <= fuel ->
  Js.truthy flag = true ->
  respond G _ listImages (engine c) = (Fulfilled images, e1) ->
  tagged (name D) images = false ->
  respond G _ (pull (name D)) e1 = (Fulfilled stream, e2) ->
  ends stream = true ->
  respond G _ (listContainers true) e2 = (Fulfilled l, e3) ->
  listed (containerName D) l = false ->
  respond G _ (createContainer (create_options D)) e3 = (Fulfilled h, e4) ->
  respond G _ (container_start h) e4 = (Fulfilled tt, e5) ->
  let c' := call_and_wait fuel (pullImage Image flag) c in
  quiescent c' /\
  last_promise c' = Some Resolved /\
  engine c' = e5 /\
  trace c' = trace c ++
    [ Called listImages; Called (pull (name D)) ] ++
    map (λ data, Printed console_log [data]) (chunks stream) ++
    [ Called (listContainers true);
      Called (createContainer (create_options D));
      Called (container_start h);
      Printed console_log
        [("Container " ++ Js.template (containerName D) ++ " started")%string]
    ] /\
  getRunningContainerList (memory c') =
    getRunningContainerList (memory c) ++ [Image] /\
  Image ∉ getStoppingContainerList (memory c').
Proof.
  intros D [Hr Hw] Hwf Hfuel Hflag E1 Ht E2 He E3 Hl E4 E5.
  destruct c as [m e r w t ps]. simpl in *. subst r w.
  assert (call_and_wait 5 (pullImage Image flag)
            (Build_Loop G m e [] [] t ps)
          = {| memory := after_start Image m; engine := e5;
               ready := []; waiting := [];
               trace := t ++
                 [ Called listImages; Called (pull (name D)) ] ++
                 map (λ data, Printed console_log [data]) (chunks stream) ++
                 [ Called (listContainers true);
                   Called (createContainer (create_options D));
                   Called (container_start h);
                   Printed console_log
                     [("Container " ++ Js.template (containerName D)
                       ++ " started")%string] ];
               promises := ps ++ [Some Resolved] |}) as H5.
  { unfold call_and_wait, pullImage, pull_promise, startContainer,
      record_started, after_start, invoke.
    unfold_bind.
    go'. rewrite E1. go'. fold D. rewrite Ht. go'. fold D. rewrite E2. go'.
    rewrite advance_print_lines. rewrite He, Hflag. go'.
    rewrite E3. go'. fold D. rewrite Hl. go'. fold D. rewrite E4. go'.
    rewrite E5. go'. fold D.
    destruct (array_includes _ _ _); go';
      by rewrite insert_last, <- !app_assoc. }
  cbv zeta. unfold call_and_wait in *.
  rewrite (drain_more 5 fuel) by (by rewrite ?H5).
  rewrite H5. simpl. rewrite last_promise_invoked.
  rewrite running_after_start by done.
  repeat split; try done. by apply after_start_lists.
Qed.

(** X22.  When the image had to be pulled and the start that follows fails,
    at whichever of its engine calls, the promise of
    [pullImage(Image, true)] is never settled: the failure is printed by
    [startContainer], it is left as the unhandled rejection of the listener
    of ['end'], and the call is over with its promise still pending, however
    long the caller waits.  [started] is the run of [startContainer] alone,
    from the engine as the pull leaves it. *)
Theorem pullImage_pending_when_start_fails (c : Loop G) (Image : ref)
    (flag : option bool) (images : list ImageInfo) (stream : PullStream)
    (e1 e2 : engine_state G) (fuel : nat) :
  let nm := name (deref (memory c) Image) in
  quiescent c -> 5 <= fuel ->
  Js.truthy flag = true ->
  respond G _ listImages (engine c) = (Fulfilled images, e1) ->
  tagged nm images = false ->
  respond G _ (pull nm) e1 = (Fulfilled stream, e2) ->
  ends stream = true ->
  let started := call_and_wait 3 (startContainer Image) (with_engine e2 c) in
  let c' := call_and_wait fuel (pullImage Image flag) c in
  forall err : Error,
    last_promise started = Some (Failed err) ->
    quiescent c' /\
    last_promise c' = None /\
    memory c' = memory c /\
    engine c' = engine started /\
    errors (trace c') =
      errors (trace c) ++ [["Error starting container:"; err]] /\
    unhandled (trace c') = unhandled (trace c) ++ [err].
Proof.
  intros nm [Hr Hw] Hfuel Hflag E1 Ht E2 He.
  destruct c as [m e r w t ps]. simpl in *. subst r w.
  assert (let started := call_and_wait 3 (startContainer Image)
                           (Build_Loop G m e2 [] [] t ps) in
          let c' := call_and_wait 5 (pullImage Image flag)
                      (Build_Loop G m e [] [] t ps) in
          forall err : Error,
            last_promise started = Some (Failed err) ->
            quiescent c' /\
            last_promise c' = None /\
            memory c' = m /\
            engine c' = engine started /\
            errors (trace c') =
              errors t ++ [["Error starting container:"; err]] /\
            unhandled (trace c') = unhandled t ++ [err]) as H5.
  { unfold call_and_wait, pullImage, pull_promise, startContainer,
      record_started, invoke.
    unfold_bind.
    go'. rewrite E1. go'. fold nm. rewrite Ht. go'. fold nm. rewrite E2.
    go'.
    rewrite advance_print_lines. rewrite He, Hflag.
    paths.
    all: rewrite ?last_promise_invoked.
    all: intros err' [= <-] || (intros err' [=]).
    all: rewrite !errors_app, !unhandled_app, ?errors_logged,
           ?unhandled_logged; simpl.
    all: rewrite ?app_nil_r, <- ?app_assoc.
    all: by repeat split. }
  cbv zeta in *. intros err Herr. specialize (H5 err Herr).
  unfold call_and_wait in *.
  by rewrite (drain_more 5 fuel _ (proj1 H5) Hfuel).
Qed.

(** X23.  When the image is present and the start that follows fails, at
    whichever of its engine calls, the failure reaches the caller of
    [pullImage(Image, true)]: it is printed by [startContainer] and again by
    [pullImage], the promise of [pullImage] is rejected with it, and no
    rejection is left unhandled.  [started] is the run of [startContainer]
    alone, from the engine as the listing of the images leaves it. *)
Theorem pullImage_present_image_start_fails (c : Loop G) (Image : ref)
    (flag : option bool) (images : list ImageInfo)
    (e1 : engine_state G) (fuel : nat) :
  let nm := name (deref (memory c) Image) in
  quiescent c -> 4 <= fuel ->
  Js.truthy flag = true ->
  respond G _ listImages (engine c) = (Fulfilled images, e1) ->
  tagged nm images = true ->
  let started := call_and_wait 3 (startContainer Image) (with_engine e1 c) in
  let c' := call_and_wait fuel (pullImage Image flag) c in
  forall err : Error,
    last_promise started = Some (Failed err) ->
    quiescent c' /\
    last_promise c' = Some (Failed err) /\
    memory c' = memory c /\
    engine c' = engine started /\
    errors (trace c') =
      errors (trace c) ++ [ ["Error starting container:"; err];
                            ["Error pulling image:"; err] ] /\
    unhandled (trace c') = unhandled (trace c).
Proof.
  intros nm [Hr Hw] Hfuel Hflag E1 Ht.
  destruct c as [m e r w t ps]. simpl in *. subst r w.
  assert (let started := call_and_wait 3 (startContainer Image)
                           (Build_Loop G m e1 [] [] t ps) in
          let c' := call_and_wait 4 (pullImage Image flag)
                      (Build_Loop G m e [] [] t ps) in
          forall err : Error,
            last_promise started = Some (Failed err) ->
            quiescent c' /\
            last_promise c' = Some (Failed err) /\
            memory c' = m /\
            engine c' = engine started /\
            errors (trace c') =
              errors t ++ [ ["Error starting container:"; err];
                            ["Error pulling image:"; err] ] /\
            unhandled (trace c') = unhandled t) as H4.
  { unfold call_and_wait, pullImage, startContainer, record_started, invoke.
    unfold_bind.
    go'. rewrite E1. go'. fold nm. rewrite Ht, Hflag.
    paths.
    all: rewrite ?last_promise_invoked.
    all: intros err' [= <-] || (intros err' [=]).
    all: rewrite !errors_app, !unhandled_app; simpl.
    all: rewrite ?app_nil_r, <- ?app_assoc.
    all: by repeat split. }
  cbv zeta in *. intros err Herr. specialize (H4 err Herr).
  unfold call_and_wait in *.
  by rewrite (drain_more 4 fuel _ (proj1 H4) Hfuel).
Qed.

End PullPaths.

(** X19, witness: an engine that cannot be reached. *)
Lemma pullImage_listing_fails_witness :
  let c := fresh unreachable [nginx] tt in
  let c' := call_and_wait 1 (pullImage 0 (Some true)) c in
  quiescent c' /\
  last_promise c' = Some (Failed "connect ECONNREFUSED") /\
  memory c' = memory c /\
  calls (trace c') = calls (trace c) ++ [Called listImages] /\
  errors (trace c') =
    errors (trace c) ++ [["Error pulling image:"; "connect ECONNREFUSED"]].
Proof.
  apply (@pullImage_listing_fails unreachable (fresh unreachable [nginx] tt)
           0 (Some true) "connect ECONNREFUSED" tt 1).
  - by split.
  - lia.
  - reflexivity.
Defined.

(** X20, witness: the reference engine with the image. *)
Lemma pullImage_present_image_witness :
  count is_pull
    (trace (call_and_wait 4 (pullImage 0 (Some true))
              (boot Docker.daemon (constructor [nginx])
                 (docker_with ["nginx:latest"] [])))) = 0.
Proof.
  apply (@pullImage_present_image_never_pulls Docker.daemon
           (docker_with ["nginx:latest"] []) (docker_with ["nginx:latest"] [])
           (constructor [nginx]) 0 (Some true)
           [ {| RepoTags := Some ["nginx:latest"] |} ] 4);
    reflexivity.
Defined.

(** X21, witness: the reference engine, empty. *)
Lemma pullImage_pulls_then_starts_witness :
  let D := image "nginx:latest" (Some "web") in
  let c := fresh Docker.daemon [D] Docker.empty in
  let c' := call_and_wait 5 (pullImage 0 (Some true)) c in
  quiescent c' /\
  last_promise c' = Some Resolved /\
  engine c' =
    {| Docker.images := [ {| RepoTags := Some ["nginx:latest"] |} ];
       Docker.containers :=
         [ {| Docker.c_name := "web"; Docker.c_image := "nginx:latest";
              Docker.c_status := "running" |} ] |} /\
  trace c' =
    [ Called listImages; Called (pull "nginx:latest");
      Printed console_log ["Pulling nginx:latest"];
      Called (listContainers true);
      Called (createContainer (create_options D));
      Called (container_start (getContainer (Some "web")));
      Printed console_log ["Container web started"] ] /\
  getRunningContainerList (memory c') = [0] /\
  0 ∉ getStoppingContainerList (memory c').
Proof.
  apply (@pullImage_pulls_then_starts Docker.daemon
           (fresh Docker.daemon [image "nginx:latest" (Some "web")]
                  Docker.empty)
           0 (Some true) []
           {| chunks := ["Pulling nginx:latest"]; ends := true |}
           [] (getContainer (Some "web"))
           Docker.empty
           (docker_with ["nginx:latest"] [])
           (docker_with ["nginx:latest"] [])
           (Docker.add_container
              {| Docker.c_name := "web"; Docker.c_image := "nginx:latest";
                 Docker.c_status := "created" |}
              (docker_with ["nginx:latest"] []))
           (Docker.set_status "web" "running"
              (Docker.add_container
                 {| Docker.c_name := "web"; Docker.c_image := "nginx:latest";
                    Docker.c_status := "created" |}
                 (docker_with ["nginx:latest"] [])))
           5).
  - by split.
  - unfold wf_mem. simpl. lia.
  - lia.
  - reflexivity.
  - reflexivity.
  - reflexivity.
  - reflexivity.
  - reflexivity.
  - reflexivity.
  - reflexivity.
  - reflexivity.
  - reflexivity.
Defined.

(** X22, witness: an engine that pulls and refuses to create. *)
Lemma pullImage_pending_witness :
  let c := fresh (registry []) [nginx] tt in
  let c' := call_and_wait 5 (pullImage 0 (Some true)) c in
  quiescent c' /\
  last_promise c' = None /\
  memory c' = memory c /\
  engine c' = tt /\
  errors (trace c') =
    errors (trace c) ++ [["Error starting container:"; "refused"]] /\
  unhandled (trace c') = unhandled (trace c) ++ ["refused"].
Proof.
  apply (@pullImage_pending_when_start_fails (registry [])
           (fresh (registry []) [nginx] tt) 0 (Some true) []
           {| chunks := ["Pulling nginx:latest"]; ends := true |}
           tt tt 5).
  - by split.
  - lia.
  - reflexivity.
  - reflexivity.
  - reflexivity.
  - reflexivity.
  - reflexivity.
  - reflexivity.
Defined.

(** X23, witness: an engine that holds the image and refuses to create. *)
Lemma pullImage_present_image_start_fails_witness :
  let c := fresh (registry ["nginx:latest"]) [nginx] tt in
  let c' := call_and_wait 4 (pullImage 0 (Some true)) c in
  quiescent c' /\
  last_promise c' = Some (Failed "refused") /\
  memory c' = memory c /\
  engine c' = tt /\
  errors (trace c') =
    errors (trace c) ++ [ ["Error starting container:"; "refused"];
                          ["Error pulling image:"; "refused"] ] /\
  unhandled (trace c') = unhandled (trace c).
Proof.
  apply (@pullImage_present_image_start_fails (registry ["nginx:latest"])
           (fresh (registry ["nginx:latest"]) [nginx] tt) 0 (Some true)
           [ {| RepoTags := Some ["nginx:latest"] |} ] tt 4).
  - by split.
  - lia.
  - reflexivity.
  - reflexivity.
  - reflexivity.
  - reflexivity.
Defined.

(** ** Life cycles on the reference engine *)

Section DockerCycle.
Import Docker.

Ltac dk :=
  cbn -[listed listing lookup has_image array_includes filter_other_names
        set_status add_container].



Lemma has_image_add_container (tag : string) (c : container) (s : state) :
  has_image tag (add_container c s) = has_image tag s.
Proof. done. Qed.


(** X25.  [startContainer] does not serialise calls: on the reference
    engine, when two descriptions with the same container name are started
    without awaiting the first, both calls find no container in their
    listing and both ask for a creation; the second creation is refused
    because the name is taken, so the second call is rejected and only the
    first description is listed as running. *)
Theorem overlapping_starts_collide (d : state) (m : Mem) (x y : ref)
    (nm : string) :
  containerName (deref m x) = Some nm ->
  containerName (deref m y) = Some nm ->
  has_image (name (deref m x)) d = true ->
  has_image (name (deref m y)) d = true ->
  lookup (getContainer (Some nm)) d = None ->
  exists c,
    run (overlapping_starts x y) (boot daemon m d) = Some c /\
    quiescent c /\
    promises c = [Some Resolved; Some (Failed "name already in use")] /\
    count is_create (trace c) = 2 /\
    count is_start (trace c) = 1 /\
    memory c = after_start x m /\
    engine c =
      set_status nm "running"
        (add_container {| c_name := nm; c_image := name (deref m x);
                          c_status := "created" |} d).
Proof.
  intros Hx Hy Hix Hiy Hl. rewrite lookup_find in Hl.
  set (created := {| c_name := nm; c_image := name (deref m x);
                     c_status := "created" |}).
  assert (List.find (named nm) (containers (add_container created d))
          = Some created) as Hl2 by (by apply find_app_new).
  unfold overlapping_starts, startContainer, record_started, after_start,
    boot.
  unfold_bind.
  repeat progress
    (dk; fold created;
     rewrite ?Hx, ?Hy, ?listed_listing, ?(find_none_exists nm _ Hl), ?Hix,
       ?has_image_add_container, ?Hiy, ?lookup_find, ?Hl, ?Hl2;
     rewrite ?bool_decide_eq_true_2 by (simpl; lia)).
  destruct (array_includes _ _ _); dk; eexists; (split; [reflexivity|]);
    by repeat split.
Qed.

End DockerCycle.


(** X25, witness: two descriptions of the same image and container name. *)
Lemma overlapping_starts_witness :
  let m := constructor [ image "nginx:latest" (Some "web");
                         image "nginx:latest" (Some "web") ] in
  let d := docker_with ["nginx:latest"] [] in
  exists c,
    run (overlapping_starts 0 1) (boot Docker.daemon m d) = Some c /\
    quiescent c /\
    promises c = [Some Resolved; Some (Failed "name already in use")] /\
    count is_create (trace c) = 2 /\
    count is_start (trace c) = 1 /\
    memory c = after_start 0 m /\
    engine c =
      {| Docker.images := Docker.images d;
         Docker.containers :=
           [ {| Docker.c_name := "web"; Docker.c_image := "nginx:latest";
                Docker.c_status := "running" |} ] |}.
Proof.
  intros m d.
  destruct (overlapping_starts_collide d m 0 1 "web"
              eq_refl eq_refl eq_refl eq_refl eq_refl) as (c & H).
  exists c. exact H.
Defined.
